(** * Resilience core of the summarizer service: a shallow embedding

    The Python sources embedded here are
    - [app/core/exceptions.py]                    (exception hierarchy),
    - [app/services/summary_service.py]           (orchestrator, circuit breaker),
    - [app/api/middleware/rate_limit.py]          (sliding-window limiter),
    - [app/services/cache/memory_cache.py]        (TTL + LRU cache),
    - [app/domain/entities/summary_request.py]    (cache fingerprint),
    - [app/services/fallback/textrank_summarizer.py] (sentence budget, selection).

    Conventions.  [time.time()] is read by the caller of every embedded
    method and passed in as an explicit rational [Time]; Python [int] is
    [Z]; [int(x)] on a float is truncation toward zero ([py_int]).  Mutable
    objects become records that are threaded through the calls, and a
    raised exception is the [Raise] case of [Result]. *)

From stdpp Require Import gmap strings list fin_maps sorting pretty.
From Stdlib Require Import ZArith QArith Qround Lia Lqa.
From Stdlib Require Import Sorting.Sorted Sorting.Permutation.

Local Open Scope Z_scope.

(** ** Clock readings and Python's [int()] *)

Definition Time := Q.

(** [int(x)]: truncation toward zero. *)
Definition py_int (x : Q) : Z := Z.quot (Qnum x) (Zpos (Qden x)).

(** [len(s)] for a [str].  A string is held as the bytes of its UTF-8
    encoding; its code points are counted by the bytes that are not
    continuation bytes ([10xxxxxx]). *)
Definition is_continuation_byte (c : Ascii.ascii) : bool :=
  match c with
  | Ascii.Ascii _ _ _ _ _ _ b6 b7 => b7 && negb b6
  end.

Fixpoint py_len (s : string) : nat :=
  match s with
  | EmptyString => 0
  | String c rest => ((if is_continuation_byte c then 0 else 1) + py_len rest)%nat
  end.

Definition Qleb (a b : Q) : bool := Qle_bool a b.
(** [a > b] on floats. *)
Definition Qgtb (a b : Q) : bool := negb (Qle_bool a b).

(** ** [app/core/exceptions.py] *)

Module Exceptions.

Inductive ExcClass : Type :=
| BaseException
| PyException              (* builtin Exception *)
| AsyncioTimeoutError      (* asyncio.TimeoutError *)
| ValueError
| IndexError
| ZeroDivisionError
| LLMSummarizerException
| ValidationError
| AuthenticationError
| AuthorizationError
| RateLimitExceededError
| LLMProviderError
| LLMProviderTimeoutError
| LLMProviderQuotaError
| LLMProviderUnavailableError
| FallbackError
| CacheError
| ConfigurationError
| TextProcessingError.

Global Instance ExcClass_eq_dec : EqDecision ExcClass.
Proof. solve_decision. Defined.

(** The direct base class written in each [class X(Y)] header. *)
Definition base (c : ExcClass) : option ExcClass :=
  match c with
  | BaseException => None
  | PyException => Some BaseException
  | AsyncioTimeoutError => Some PyException
  | ValueError => Some PyException
  | IndexError => Some PyException
  | ZeroDivisionError => Some PyException
  | LLMSummarizerException => Some PyException
  | ValidationError => Some LLMSummarizerException
  | AuthenticationError => Some LLMSummarizerException
  | AuthorizationError => Some LLMSummarizerException
  | RateLimitExceededError => Some LLMSummarizerException
  | LLMProviderError => Some LLMSummarizerException
  | LLMProviderTimeoutError => Some LLMProviderError
  | LLMProviderQuotaError => Some LLMProviderError
  | LLMProviderUnavailableError => Some LLMProviderError
  | FallbackError => Some LLMSummarizerException
  | CacheError => Some LLMSummarizerException
  | ConfigurationError => Some LLMSummarizerException
  | TextProcessingError => Some LLMSummarizerException
  end.

(** [issubclass c d], climbing the (depth at most 4) hierarchy. *)
Fixpoint issubclass_fuel (fuel : nat) (c d : ExcClass) : bool :=
  if bool_decide (c = d) then true
  else match fuel, base c with
       | S f, Some b => issubclass_fuel f b d
       | _, _ => false
       end.

Definition issubclass : ExcClass -> ExcClass -> bool := issubclass_fuel 4.

(** A raised exception: its class and [str(e)]. *)
Record Exn : Type := mkExn { exc_class : ExcClass; exc_str : string }.

Definition isinstance (e : Exn) (c : ExcClass) : bool :=
  issubclass (exc_class e) c.

(** [except (c1, c2, ...)] *)
Definition isinstance_any (e : Exn) (cs : list ExcClass) : bool :=
  existsb (isinstance e) cs.

Inductive Result (A : Type) : Type :=
| Return : A -> Result A
| Raise : Exn -> Result A.
Global Arguments Return {A} _.
Global Arguments Raise {A} _.

Definition raised {A} (r : Result A) : option Exn :=
  match r with Return _ => None | Raise e => Some e end.

End Exceptions.
Import Exceptions.

(** ** [CircuitBreaker] in [app/services/summary_service.py] *)

Module CircuitBreaker.

(** The attributes set in [__init__].  There is no state enumeration in
    the source: the breaker is the boolean [is_open]. *)
Record t : Type := mk {
  failure_threshold : Z;
  recovery_timeout : Z;
  expected_exception : ExcClass;
  failure_count : Z;
  last_failure_time : option Time;
  is_open : bool
}.

Definition __init__ (failure_threshold recovery_timeout : Z)
    (expected_exception : ExcClass) : t :=
  mk failure_threshold recovery_timeout expected_exception 0 None false.

Definition set_is_open (b : bool) (cb : t) : t :=
  mk (failure_threshold cb) (recovery_timeout cb) (expected_exception cb)
     (failure_count cb) (last_failure_time cb) b.
Definition set_failure_count (n : Z) (cb : t) : t :=
  mk (failure_threshold cb) (recovery_timeout cb) (expected_exception cb)
     n (last_failure_time cb) (is_open cb).
Definition set_last_failure_time (tm : option Time) (cb : t) : t :=
  mk (failure_threshold cb) (recovery_timeout cb) (expected_exception cb)
     (failure_count cb) tm (is_open cb).

Definition _should_attempt_reset (cb : t) (now : Time) : bool :=
  match last_failure_time cb with
  | None => true
  | Some tf => Qleb (inject_Z (recovery_timeout cb)) (now - tf)
  end.

Definition breaker_open_error : Exn :=
  mkExn LLMProviderUnavailableError "Circuit breaker is open".

Definition __aenter__ (cb : t) (now : Time) : Result unit * t :=
  if is_open cb then
    if _should_attempt_reset cb now then
      (Return tt, set_failure_count 0 (set_is_open false cb))
    else (Raise breaker_open_error, cb)
  else (Return tt, cb).

(** [exc] is [None] when the body finished normally ([exc_type is None]). *)
Definition __aexit__ (cb : t) (exc : option Exn) (now : Time) : t :=
  match exc with
  | None => set_failure_count 0 cb
  | Some e =>
      if isinstance e (expected_exception cb) then
        let cb1 := set_failure_count (failure_count cb + 1) cb in
        let cb2 := set_last_failure_time (Some now) cb1 in
        if failure_count cb2 >=? failure_threshold cb2
        then set_is_open true cb2 else cb2
      else cb
  end.

(** What one [async with breaker: body] did. *)
Record Guarded (A : Type) : Type := mkGuarded {
  outcome : Result A;
  invoked : bool;          (* was the body (the downstream call) run? *)
  breaker : t
}.
Global Arguments mkGuarded {A} _ _ _.
Global Arguments outcome {A} _.
Global Arguments invoked {A} _.
Global Arguments breaker {A} _.

(** [async with cb: body()].  [now_in] is the clock read by
    [_should_attempt_reset], [now_out] the one read by [__aexit__].
    When [__aenter__] raises, neither the body nor [__aexit__] runs. *)
Definition guarded_call {A} (cb : t) (now_in : Time)
    (body : unit -> Result A) (now_out : Time) : Guarded A :=
  match __aenter__ cb now_in with
  | (Raise e, cb') => mkGuarded (Raise e) false cb'
  | (Return _, cb') =>
      let r := body tt in
      mkGuarded r true (__aexit__ cb' (raised r) now_out)
  end.

(** A guarded call whose body raises [error]: the clock readings of
    [__aenter__] and [__aexit__], and the exception. *)
Record FailedCall : Type := mkFailed {
  at_entry : Time;
  error : Exn;
  at_exit : Time
}.

(** A run of guarded calls whose bodies all raise. *)
Fixpoint failing_calls {A} (cb : t) (calls : list FailedCall) : t :=
  match calls with
  | [] => cb
  | c :: rest =>
      failing_calls (A:=A)
        (breaker (guarded_call (A:=A) cb (at_entry c) (fun _ => Raise (error c))
                    (at_exit c)))
        rest
  end.

(** For each call of such a run, whether its body was run. *)
Fixpoint failing_calls_invoked {A} (cb : t) (calls : list FailedCall) : list bool :=
  match calls with
  | [] => []
  | c :: rest =>
      let g := guarded_call (A:=A) cb (at_entry c) (fun _ => Raise (error c)) (at_exit c) in
      invoked g :: failing_calls_invoked (A:=A) (breaker g) rest
  end.

End CircuitBreaker.

(** ** [app/api/middleware/rate_limit.py] *)

Module RateLimit.

(** The [rate_limit_info] dictionary built by [is_allowed]. *)
Record RateLimitInfo : Type := mkInfo {
  limit : Z;
  remaining : Z;
  reset : Z;
  retry_after : Z
}.

(** [while history and history[0] <= cutoff_time: history.popleft()] *)
Fixpoint popleft_while (cutoff_time : Time) (history : list Time) : list Time :=
  match history with
  | [] => []
  | t0 :: rest =>
      if Qleb t0 cutoff_time then popleft_while cutoff_time rest else history
  end.

(** [InMemoryRateLimiter.is_allowed].  [request_history] is the
    [defaultdict] of deques: reading a missing identifier yields (and
    stores) an empty deque; the deque is updated in place, which is the
    [insert] at the end. *)
Definition is_allowed (request_history : gmap string (list Time))
    (identifier : string) (limit window_seconds : Z) (current_time : Time)
    : (bool * RateLimitInfo) * gmap string (list Time) :=
  let cutoff_time := (current_time - inject_Z window_seconds)%Q in
  let history := default [] (request_history !! identifier) in
  let history := popleft_while cutoff_time history in
  let current_count := Z.of_nat (length history) in
  let is_allowed := current_count <? limit in
  let history := if is_allowed then history ++ [current_time] else history in
  let reset_time :=
    match history with
    | _ :: _ => py_int (current_time + inject_Z window_seconds)%Q
    | [] => py_int current_time
    end in
  let rate_limit_info :=
    {| limit := limit;
       remaining := Z.max 0 (limit - current_count - (if is_allowed then 1 else 0));
       reset := reset_time;
       retry_after :=
         Z.max 1 (py_int (inject_Z window_seconds
                          - (current_time - hd current_time history))%Q) |} in
  ((is_allowed, rate_limit_info), <[identifier := history]> request_history).

(** The [limits] dictionary of the middleware. *)
Record Limits : Type := mkLimits {
  requests_per_minute : Z;
  requests_per_hour : Z
}.

(** The dictionary returned by [_check_rate_limits]. *)
Record CheckResult : Type := mkCheck {
  allowed : bool;
  r_limit : Z;
  r_remaining : Z;
  r_reset : Z;
  r_retry_after : Z;
  r_window : string
}.

(** [RateLimitMiddleware._check_rate_limits].  Each of the two
    [is_allowed] calls reads the clock itself: [t_minute] then [t_hour]. *)
Definition _check_rate_limits (request_history : gmap string (list Time))
    (identifier : string) (limits : Limits) (t_minute t_hour : Time)
    : CheckResult * gmap string (list Time) :=
  let '((minute_allowed, minute_info), rh1) :=
    is_allowed request_history (identifier +:+ ":minute")
      (requests_per_minute limits) 60 t_minute in
  let '((hour_allowed, hour_info), rh2) :=
    is_allowed rh1 (identifier +:+ ":hour")
      (requests_per_hour limits) 3600 t_hour in
  let allowed := minute_allowed && hour_allowed in
  let '(limit_info, window) :=
    if negb minute_allowed then (minute_info, "minute")
    else if negb hour_allowed then (hour_info, "hour")
    else (minute_info, "minute") in
  ({| allowed := allowed;
      r_limit := limit limit_info;
      r_remaining := remaining limit_info;
      r_reset := reset limit_info;
      r_retry_after := retry_after limit_info;
      r_window := window |}, rh2).

(** A client issuing one [is_allowed] call per clock reading in [times],
    always with the same identifier, limit and window; the result lists
    the verdicts in order. *)
Fixpoint serve (request_history : gmap string (list Time))
    (identifier : string) (limit window_seconds : Z) (times : list Time)
    : list bool * gmap string (list Time) :=
  match times with
  | [] => ([], request_history)
  | now :: rest =>
      let '((ok, _), rh1) :=
        is_allowed request_history identifier limit window_seconds now in
      let '(oks, rh2) := serve rh1 identifier limit window_seconds rest in
      (ok :: oks, rh2)
  end.

(** The clock readings of the admitted requests of a run. *)
Fixpoint admitted (times : list Time) (verdicts : list bool) : list Time :=
  match times, verdicts with
  | now :: ts, ok :: oks =>
      if ok then now :: admitted ts oks else admitted ts oks
  | _, _ => []
  end.

(** Number of timestamps of [l] inside the closed interval [[lo, hi]]. *)
Definition count_within (lo hi : Time) (l : list Time) : nat :=
  length (List.filter (fun t => Qleb lo t && Qleb t hi) l).

End RateLimit.

(** ** [app/domain/entities]: requests and responses *)

Module Entities.

Inductive LanguageCode : Type :=
| AUTO | SPANISH | ENGLISH | FRENCH | GERMAN | ITALIAN
| PORTUGUESE | RUSSIAN | CHINESE | JAPANESE | KOREAN.

Global Instance LanguageCode_eq_dec : EqDecision LanguageCode.
Proof. solve_decision. Defined.

(** The [str] value of each member ([class LanguageCode(str, Enum)]). *)
Definition LanguageCode_value (l : LanguageCode) : string :=
  match l with
  | AUTO => "auto" | SPANISH => "es" | ENGLISH => "en" | FRENCH => "fr"
  | GERMAN => "de" | ITALIAN => "it" | PORTUGUESE => "pt" | RUSSIAN => "ru"
  | CHINESE => "zh" | JAPANESE => "ja" | KOREAN => "ko"
  end.

Definition all_languages : list LanguageCode :=
  [AUTO; SPANISH; ENGLISH; FRENCH; GERMAN; ITALIAN;
   PORTUGUESE; RUSSIAN; CHINESE; JAPANESE; KOREAN].

(** [LanguageCode(code)]: [None] stands for the [ValueError]. *)
Definition LanguageCode_of_value (code : string) : option LanguageCode :=
  List.find (fun l => bool_decide (LanguageCode_value l = code)) all_languages.

(** [ToneType] of [app/core/config.py]. *)
Inductive ToneType : Type := NEUTRAL | CONCISE | BULLET.

Definition ToneType_value (t : ToneType) : string :=
  match t with NEUTRAL => "neutral" | CONCISE => "concise" | BULLET => "bullet" end.

(** [SummaryRequest].  With [use_enum_values] the object stores the
    string values of [lang] and [tone]; [metadata] is a free-form
    dictionary, kept as an association list. *)
Record SummaryRequest : Type := mkRequest {
  text : string;
  lang : LanguageCode;
  max_tokens : Z;
  tone : ToneType;
  user_id : option string;
  request_id : option string;
  metadata : list (string * string)
}.

Inductive SummarySource : Type := LLM | FALLBACK_TEXTRANK | FALLBACK_TFIDF | CACHE.

Global Instance SummarySource_eq_dec : EqDecision SummarySource.
Proof. solve_decision. Defined.

Record TokenUsage : Type := mkUsage {
  prompt_tokens : Z;
  completion_tokens : Z;
  total_tokens : Z
}.

(** [SummaryResponse] (the optional [quality], [timestamp] and
    [metadata] fields play no role in the embedded code and are left
    out). *)
Record SummaryResponse : Type := mkResponse {
  summary : string;
  usage : TokenUsage;
  model : string;
  latency_ms : Q;
  source : SummarySource;
  resp_request_id : option string;
  cache_hit : bool
}.

End Entities.
Import Entities.

(** ** [SummaryRequest.get_cache_key] *)

Module CacheKey.
Section WithLibraries.

(** [json.dumps] of a [str] (the quoted, escaped literal) and
    [hashlib.sha256(s.encode()).hexdigest()] are library functions. *)
Variable json_string : string -> string.
Variable sha256_hexdigest : string -> string.

(** [json.dumps(content, sort_keys=True)] for the four-key dictionary
    built by [get_cache_key]; the keys come out in sorted order. *)
Definition content_str (text : string) (lang : string) (max_tokens : Z)
    (tone : string) : string :=
  "{" +:+ json_string "lang" +:+ ": " +:+ json_string lang +:+ ", "
      +:+ json_string "max_tokens" +:+ ": " +:+ pretty max_tokens +:+ ", "
      +:+ json_string "text" +:+ ": " +:+ json_string text +:+ ", "
      +:+ json_string "tone" +:+ ": " +:+ json_string tone +:+ "}".

Definition get_cache_key (r : SummaryRequest) : string :=
  "summary:" +:+
  String.substring 0 16
    (sha256_hexdigest
       (content_str (text r) (LanguageCode_value (lang r)) (max_tokens r)
                    (ToneType_value (tone r)))).

End WithLibraries.
End CacheKey.

(** ** [app/services/fallback/textrank_summarizer.py] *)

Module TextRank.

(** [l[:n]] for a Python [int] [n]. *)
Definition py_slice_to {A} (n : Z) (l : list A) : list A :=
  if 0 <=? n then firstn (Z.to_nat n) l
  else firstn (Z.to_nat (Z.of_nat (length l) + n)) l.

(** [sorted(indices)] on integers. *)
Definition sorted (l : list nat) : list nat := merge_sort Nat.le l.

(** [[sentences[i] for i in indices]]; [None] is the [IndexError]. *)
Fixpoint select {A} (sentences : list A) (indices : list nat) : option (list A) :=
  match indices with
  | [] => Some []
  | i :: rest =>
      match nth_error sentences i, select sentences rest with
      | Some x, Some xs => Some (x :: xs)
      | _, _ => None
      end
  end.

Section WithLibraries.

(** NLTK's sentence tokenizer. *)
Variable sent_tokenize : string -> list string.
(** Lines 128-142 of [extract_sentences]: preprocessing, the TF-IDF
    matrix, cosine similarity, thresholding and [_textrank_algorithm];
    numerical library code, which may raise. *)
Variable rank_scores : list string -> Result (list Q).
(** [numpy.argsort]. *)
Variable argsort : list Q -> list nat.

Definition _calculate_num_sentences (request : SummaryRequest) : Z :=
  let avg_tokens_per_sentence := 20 in
  let max_sentences := Z.max 1 (max_tokens request / avg_tokens_per_sentence) in
  let total_sentences := Z.of_nat (length (sent_tokenize (text request))) in
  let suggested_sentences := Z.max 1 (Z.min max_sentences (total_sentences / 3)) in
  Z.min suggested_sentences 10.

Definition extraction_failed (e : Exn) : Exn :=
  mkExn TextProcessingError ("Sentence extraction failed: " +:+ exc_str e).

Definition extract_sentences (text : string) (num_sentences : Z)
    : Result (list string) :=
  let sentences := sent_tokenize text in
  if Z.of_nat (length sentences) <=? num_sentences then Return sentences
  else
    match rank_scores sentences with
    | Raise e =>
        (* except Exception as e: raise TextProcessingError(...) *)
        if isinstance e PyException then Raise (extraction_failed e) else Raise e
    | Return scores =>
        let ranked_indices := py_slice_to num_sentences (rev (argsort scores)) in
        let ranked_indices := sorted ranked_indices in
        match select sentences ranked_indices with
        | Some chosen => Return chosen
        | None =>
            Raise (extraction_failed (mkExn IndexError "list index out of range"))
        end
    end.

End WithLibraries.
End TextRank.

(** ** [app/services/cache/memory_cache.py] *)

Module MemoryCache.

(** [datetime.timedelta], as its total number of microseconds. *)
Definition timedelta := Z.
Definition timedelta_of_seconds (s : Z) : timedelta := s * 1000000.
Definition total_seconds (td : timedelta) : Q := td # 1000000.

Record CacheEntry : Type := mkEntry {
  value : SummaryResponse;
  created_at : Time;
  expires_at : Time;
  access_count : Z;
  last_accessed : Time
}.

(** [CacheEntry.__init__]; [now] is its [time.time()]. *)
Definition CacheEntry__init__ (value : SummaryResponse) (ttl_seconds : Z)
    (now : Time) : CacheEntry :=
  {| value := value;
     created_at := now;
     expires_at := (now + inject_Z ttl_seconds)%Q;
     access_count := 0;
     last_accessed := now |}.

Definition is_expired (e : CacheEntry) (now : Time) : bool :=
  Qgtb now (expires_at e).

(** [CacheEntry.access]: the returned value and the mutated entry. *)
Definition access (e : CacheEntry) (now : Time) : SummaryResponse * CacheEntry :=
  (value e,
   {| value := value e; created_at := created_at e; expires_at := expires_at e;
      access_count := access_count e + 1; last_accessed := now |}).

(** *** The [OrderedDict]: an association list in dictionary order *)

Definition OrderedDict := list (string * CacheEntry).

Definition od_get (k : string) (d : OrderedDict) : option CacheEntry :=
  snd <$> List.find (fun p => bool_decide (fst p = k)) d.

Definition od_contains (k : string) (d : OrderedDict) : bool :=
  match od_get k d with Some _ => true | None => false end.

(** [del d[k]] *)
Definition od_del (k : string) (d : OrderedDict) : OrderedDict :=
  List.filter (fun p => negb (bool_decide (fst p = k))) d.

(** [d[k] = e]: an existing key keeps its position, a new key goes last. *)
Definition od_setitem (k : string) (e : CacheEntry) (d : OrderedDict) : OrderedDict :=
  if od_contains k d
  then List.map (fun p => if bool_decide (fst p = k) then (k, e) else p) d
  else d ++ [(k, e)].

(** [d.move_to_end(k)] (a missing key would be a [KeyError]; every call
    in the source is on a present key). *)
Definition od_move_to_end (k : string) (d : OrderedDict) : OrderedDict :=
  match od_get k d with
  | Some e => od_del k d ++ [(k, e)]
  | None => d
  end.

Record Stats : Type := mkStats {
  hits : Z; misses : Z; sets : Z; deletes : Z;
  evictions : Z; expired_cleanups : Z; total_operations : Z
}.

Record MemoryCacheService : Type := mkCache {
  max_size : Z;
  default_ttl : Z;
  _cache : OrderedDict;
  stats : Stats
}.

Definition MemoryCacheService__init__ (max_size default_ttl : Z) : MemoryCacheService :=
  mkCache max_size default_ttl [] (mkStats 0 0 0 0 0 0 0).

Definition with_cache (d : OrderedDict) (st : Stats) (svc : MemoryCacheService)
    : MemoryCacheService :=
  mkCache (max_size svc) (default_ttl svc) d st.

(** [get_summary].  [now] is the clock read by [is_expired], [now_access]
    the later one read by [entry.access()]. *)
Definition get_summary (svc : MemoryCacheService) (cache_key : string)
    (now now_access : Time) : option SummaryResponse * MemoryCacheService :=
  let st := stats svc in
  match od_get cache_key (_cache svc) with
  | None =>
      (None,
       with_cache (_cache svc)
         (mkStats (hits st) (misses st + 1) (sets st) (deletes st) (evictions st)
                  (expired_cleanups st) (total_operations st + 1)) svc)
  | Some entry =>
      if is_expired entry now then
        (None,
         with_cache (od_del cache_key (_cache svc))
           (mkStats (hits st) (misses st + 1) (sets st) (deletes st) (evictions st)
                    (expired_cleanups st + 1) (total_operations st + 1)) svc)
      else
        let d := od_move_to_end cache_key (_cache svc) in
        let '(response, entry') := access entry now_access in
        (Some response,
         with_cache (od_setitem cache_key entry' d)
           (mkStats (hits st + 1) (misses st) (sets st) (deletes st) (evictions st)
                    (expired_cleanups st) (total_operations st + 1)) svc)
  end.

(** [_evict_lru]: drop the first key of the dictionary. *)
Definition _evict_lru (svc : MemoryCacheService) : MemoryCacheService :=
  match _cache svc with
  | [] => svc
  | (evicted_key, _) :: _ =>
      let st := stats svc in
      with_cache (od_del evicted_key (_cache svc))
        (mkStats (hits st) (misses st) (sets st) (deletes st) (evictions st + 1)
                 (expired_cleanups st) (total_operations st)) svc
  end.

(** [int(ttl.total_seconds()) if ttl else self.default_ttl]: a zero
    [timedelta] is falsy. *)
Definition ttl_seconds_of (svc : MemoryCacheService) (ttl : option timedelta) : Z :=
  match ttl with
  | Some td => if td =? 0 then default_ttl svc else py_int (total_seconds td)
  | None => default_ttl svc
  end.

(** [set_summary]; [now] is the clock read by [CacheEntry.__init__].
    Nothing in the guarded block can raise here, so the method returns
    [True]. *)
Definition set_summary (svc : MemoryCacheService) (cache_key : string)
    (response : SummaryResponse) (ttl : option timedelta) (now : Time)
    : bool * MemoryCacheService :=
  let ttl_seconds := ttl_seconds_of svc ttl in
  let entry := CacheEntry__init__ response ttl_seconds now in
  let svc1 :=
    if negb (od_contains cache_key (_cache svc))
       && (Z.of_nat (length (_cache svc)) >=? max_size svc)
    then _evict_lru svc else svc in
  let d := od_move_to_end cache_key (od_setitem cache_key entry (_cache svc1)) in
  let st := stats svc1 in
  (true,
   with_cache d
     (mkStats (hits st) (misses st) (sets st + 1) (deletes st) (evictions st)
              (expired_cleanups st) (total_operations st + 1)) svc1).

(** A [get_summary] or [set_summary] call together with its clock
    readings. *)
Inductive Op : Type :=
| OpGet (cache_key : string) (now now_access : Time)
| OpSet (cache_key : string) (response : SummaryResponse)
      (ttl : option timedelta) (now : Time).

Definition step (svc : MemoryCacheService) (op : Op) : MemoryCacheService :=
  match op with
  | OpGet k now now_access => snd (get_summary svc k now now_access)
  | OpSet k v ttl now => snd (set_summary svc k v ttl now)
  end.

Definition run (svc : MemoryCacheService) (ops : list Op) : MemoryCacheService :=
  fold_left step ops svc.

(** The clock readings of a sequence of calls, in the order they are
    taken. *)
Definition clock_of (op : Op) : list Time :=
  match op with
  | OpGet _ now now_access => [now; now_access]
  | OpSet _ _ _ now => [now]
  end.

Definition clock (ops : list Op) : list Time := List.concat (List.map clock_of ops).

End MemoryCache.

(** ** Fallback services: [app/domain/interfaces/fallback_service.py]
    and the [generate_summary] wrappers of the two summarizers *)

Module Fallback.

Inductive FallbackAlgorithm : Type := TEXTRANK | TFIDF | FREQUENCY | LUHN | LSA.

(** The abstract [FallbackService], as it behaves during one request
    (the clock readings of its [generate_summary] are fixed in the
    value). *)
Record FallbackService : Type := mkFallback {
  generate_summary : SummaryRequest -> Result SummaryResponse;
  get_algorithm_name : FallbackAlgorithm;
  supports_language : string -> bool
}.

(** [lang_enum in supported_languages], [False] on the [ValueError]. *)
Definition language_in (supported : list LanguageCode) (language_code : string) : bool :=
  match LanguageCode_of_value language_code with
  | Some lang_enum => bool_decide (lang_enum ∈ supported)
  | None => false
  end.

Definition TextRank_supports_language : string -> bool :=
  language_in [AUTO; ENGLISH; SPANISH; FRENCH; GERMAN; ITALIAN; PORTUGUESE].

Definition TFIDF_supports_language : string -> bool :=
  language_in [AUTO; ENGLISH; SPANISH; FRENCH; GERMAN; ITALIAN; PORTUGUESE; RUSSIAN].

Section WithLibraries.

(** [str.strip]. *)
Variable strip : string -> string.
Variable sent_tokenize : string -> list string.
Variable rank_scores : list string -> Result (list Q).
Variable argsort : list Q -> list nat.
(** [TFIDFSummarizer.extract_sentences], not embedded further. *)
Variable tfidf_extract_sentences : string -> Z -> Result (list string).

(** Construction of a [SummaryResponse] with its validators
    ([validate_summary], then the bound on [latency_ms]). *)
Definition SummaryResponse__init__ (summary : string) (usage : TokenUsage)
    (model : string) (latency_ms : Q) (source : SummarySource)
    (request_id : option string) : Result SummaryResponse :=
  if bool_decide (summary = "") || bool_decide (strip summary = "") then
    Raise (mkExn ValidationError "Summary cannot be empty")
  else
    let cleaned_summary := strip summary in
    if Z.of_nat (py_len cleaned_summary) <? 5 then
      Raise (mkExn ValidationError "Summary is too short")
    else if Qgtb (0 # 1) latency_ms then
      Raise (mkExn ValidationError "Latency cannot be negative")
    else
      Return (mkResponse cleaned_summary usage model latency_ms source request_id false).

(** The body shared by [TextRankSummarizer.generate_summary] and
    [TFIDFSummarizer.generate_summary]: join the extracted sentences,
    build the response, log; an [Exception] becomes a [FallbackError],
    anything else escapes.
    [start_time] and [end_time] are the two clock readings. *)
Definition extractive_generate_summary (extracted : Result (list string))
    (model : string) (source : SummarySource) (failure : string)
    (start_time end_time : Time) (request : SummaryRequest)
    : Result SummaryResponse :=
  let body :=
    match extracted with
    | Raise e => Raise e
    | Return sentences =>
        let summary_text := String.concat " " sentences in
        let latency_ms := ((end_time - start_time) * (1000 # 1))%Q in
        let prompt_tokens := Z.of_nat (py_len (text request)) / 4 in
        let completion_tokens := Z.of_nat (py_len summary_text) / 4 in
        match SummaryResponse__init__ summary_text
                (mkUsage prompt_tokens completion_tokens
                         (prompt_tokens + completion_tokens))
                model latency_ms source (request_id request) with
        | Raise e => Raise e
        | Return response =>
            (* compression_ratio=len(summary_text) / len(request.text) *)
            if Z.of_nat (py_len (text request)) =? 0
            then Raise (mkExn ZeroDivisionError "division by zero")
            else Return response
        end
    end in
  match body with
  | Return response => Return response
  | Raise e =>
      (* except Exception as e: raise FallbackError(f"... failed: {e}") *)
      if isinstance e PyException
      then Raise (mkExn FallbackError (failure +:+ exc_str e))
      else Raise e
  end.

Definition TextRankSummarizer (start_time end_time : Time) : FallbackService :=
  {| generate_summary request :=
       extractive_generate_summary
         (TextRank.extract_sentences sent_tokenize rank_scores argsort
            (text request) (TextRank._calculate_num_sentences sent_tokenize request))
         "textrank" FALLBACK_TEXTRANK "TextRank summarization failed: "
         start_time end_time request;
     get_algorithm_name := TEXTRANK;
     supports_language := TextRank_supports_language |}.

(** [TFIDFSummarizer._calculate_num_sentences]. *)
Definition TFIDF_calculate_num_sentences (request : SummaryRequest) : Z :=
  let avg_tokens_per_sentence := 20 in
  let max_sentences := Z.max 1 (max_tokens request / avg_tokens_per_sentence) in
  let total_sentences := Z.of_nat (length (sent_tokenize (text request))) in
  let suggested_sentences := Z.max 1 (Z.min max_sentences (total_sentences / 4)) in
  Z.min suggested_sentences 8.

Definition TFIDFSummarizer (start_time end_time : Time) : FallbackService :=
  {| generate_summary request :=
       extractive_generate_summary
         (tfidf_extract_sentences (text request) (TFIDF_calculate_num_sentences request))
         "tfidf" FALLBACK_TFIDF "TF-IDF summarization failed: "
         start_time end_time request;
     get_algorithm_name := TFIDF;
     supports_language := TFIDF_supports_language |}.

End WithLibraries.
End Fallback.

(** ** [SummaryService] in [app/services/summary_service.py] *)

Module SummaryService.
Import Fallback.

Section WithCache.

(** The state of the cache backend. *)
Context {S : Type}.

(** The abstract [CacheService] (the two methods the orchestrator
    calls), as state-passing functions. *)
Record CacheService : Type := mkCacheService {
  cs_get_summary : S -> string -> Result (option SummaryResponse) * S;
  cs_set_summary : S -> string -> SummaryResponse -> option MemoryCache.timedelta
                   -> Result bool * S
}.

(** The attributes of a [SummaryService]; [llm_provider] is the outcome
    of [self.llm_provider.generate_summary(request)] under
    [asyncio.wait_for], an [asyncio.TimeoutError] included. *)
Record t : Type := mk {
  llm_provider : SummaryRequest -> Result SummaryResponse;
  fallback_services : list FallbackService;
  cache_service : option CacheService;
  circuit_breaker : CircuitBreaker.t
}.

(** Configuration and library functions read by the service. *)
Variable settings_redis_ttl : Z.
Variable get_cache_key : SummaryRequest -> string.

Definition mark_cache_hit (r : SummaryResponse) : SummaryResponse :=
  mkResponse (summary r) (usage r) (model r) (latency_ms r) CACHE
             (resp_request_id r) true.

Definition _try_cache_lookup (cache : CacheService) (st : S)
    (request : SummaryRequest) : Result (option SummaryResponse) * S :=
  let cache_key := get_cache_key request in
  match cs_get_summary cache st cache_key with
  | (Return (Some cached_response), st') =>
      (Return (Some (mark_cache_hit cached_response)), st')
  | (Return None, st') => (Return None, st')
  | (Raise e, st') =>
      if isinstance e CacheError then (Return None, st') else (Raise e, st')
  end.

Definition _try_cache_store (cache : CacheService) (st : S)
    (request : SummaryRequest) (response : SummaryResponse)
    (ttl_seconds : option Z) : Result unit * S :=
  let cache_key := get_cache_key request in
  let ttl_value := match ttl_seconds with Some v => v | None => settings_redis_ttl end in
  let ttl := MemoryCache.timedelta_of_seconds ttl_value in
  match cs_set_summary cache st cache_key response (Some ttl) with
  | (Return _, st') => (Return tt, st')
  | (Raise e, st') =>
      if isinstance e CacheError then (Return tt, st') else (Raise e, st')
  end.

Definition llm_timeout_error : Exn :=
  mkExn LLMProviderTimeoutError "LLM provider timed out".

(** [_try_llm_generation]: the provider call inside
    [async with self.circuit_breaker]. *)
Definition _try_llm_generation (svc : t) (request : SummaryRequest)
    (now_in now_out : Time) : CircuitBreaker.Guarded SummaryResponse :=
  CircuitBreaker.guarded_call (circuit_breaker svc) now_in
    (fun _ =>
       match llm_provider svc request with
       | Return response => Return response
       | Raise e =>
           if isinstance e AsyncioTimeoutError then Raise llm_timeout_error
           else Raise e
       end)
    now_out.

(** [str(last_error)] in the f-string. *)
Definition str_of_last_error (last_error : option Exn) : string :=
  match last_error with Some e => exc_str e | None => "None" end.

Definition all_fallbacks_failed (last_error : option Exn) : Exn :=
  mkExn FallbackError
    ("All fallback services failed. Last error: " +:+ str_of_last_error last_error).

(** The [for] loop of [_try_fallback_generation], from a given
    [last_error]. *)
Fixpoint fallback_loop (services : list FallbackService) (request : SummaryRequest)
    (last_error : option Exn) : Result SummaryResponse :=
  match services with
  | [] => Raise (all_fallbacks_failed last_error)
  | fallback_service :: rest =>
      if negb (supports_language fallback_service (LanguageCode_value (lang request)))
      then fallback_loop rest request last_error
      else
        match generate_summary fallback_service request with
        | Return response => Return response
        | Raise e =>
            if isinstance e FallbackError
            then fallback_loop rest request (Some e)
            else Raise e
        end
  end.

Definition _try_fallback_generation (svc : t) (request : SummaryRequest)
    : Result SummaryResponse :=
  fallback_loop (fallback_services svc) request None.

(** The exception classes of the [except] clause of step 2. *)
Definition provider_failures : list ExcClass :=
  [LLMProviderError; LLMProviderTimeoutError; LLMProviderUnavailableError].

(** The result of [generate_summary], the breaker and cache state it
    leaves, and whether the provider was called. *)
Record Outcome : Type := mkOutcome {
  result : Result SummaryResponse;
  provider_called : bool;
  breaker_after : CircuitBreaker.t;
  cache_after : S
}.

(** Storing a response when a cache is configured. *)
Definition store_if_cached (svc : t) (st : S) (request : SummaryRequest)
    (response : SummaryResponse) (ttl_seconds : option Z) : Result unit * S :=
  match cache_service svc with
  | Some cache => _try_cache_store cache st request response ttl_seconds
  | None => (Return tt, st)
  end.

(** Steps 2 and 3 of [generate_summary] (after a cache miss). *)
Definition generate_after_miss (svc : t) (st : S) (request : SummaryRequest)
    (now_in now_out : Time) : Outcome :=
  let g := _try_llm_generation svc request now_in now_out in
  let cb := CircuitBreaker.breaker g in
  let called := CircuitBreaker.invoked g in
  (* the [try] block: provider call, then caching of its response *)
  let '(attempt, st1) :=
    match CircuitBreaker.outcome g with
    | Return response =>
        match store_if_cached svc st request response None with
        | (Return _, st') => (Return response, st')
        | (Raise e, st') => (Raise e, st')
        end
    | Raise e => (Raise e, st)
    end in
  match attempt with
  | Return response => mkOutcome (Return response) called cb st1
  | Raise e =>
      if isinstance_any e provider_failures then
        match _try_fallback_generation svc request with
        | Return response =>
            match store_if_cached svc st1 request response (Some 300) with
            | (Return _, st') => mkOutcome (Return response) called cb st'
            | (Raise e', st') => mkOutcome (Raise e') called cb st'
            end
        | Raise e' => mkOutcome (Raise e') called cb st1
        end
      else mkOutcome (Raise e) called cb st1
  end.

(** [generate_summary]; the outer [except Exception] logs and re-raises
    the same exception. *)
Definition generate_summary (svc : t) (st : S) (request : SummaryRequest)
    (now_in now_out : Time) : Outcome :=
  match cache_service svc with
  | Some cache =>
      match _try_cache_lookup cache st request with
      | (Return (Some cached_response), st') =>
          mkOutcome (Return cached_response) false (circuit_breaker svc) st'
      | (Return None, st') => generate_after_miss svc st' request now_in now_out
      | (Raise e, st') => mkOutcome (Raise e) false (circuit_breaker svc) st'
      end
  | None => generate_after_miss svc st request now_in now_out
  end.

End WithCache.

Global Arguments CacheService : clear implicits.
Global Arguments t : clear implicits.
Global Arguments Outcome : clear implicits.

End SummaryService.

(** ** [memory_cache.py]: the remaining public operations *)

Module MemoryCacheOps.
Import MemoryCache.

(** [CacheEntry.get_ttl]. *)
Definition CacheEntry_get_ttl (e : CacheEntry) (now : Time) : Z :=
  let remaining := (expires_at e - now)%Q in
  Z.max 0 (py_int remaining).

Definition delete_summary (svc : MemoryCacheService) (cache_key : string)
    : bool * MemoryCacheService :=
  if od_contains cache_key (_cache svc) then
    let st := stats svc in
    (true,
     with_cache (od_del cache_key (_cache svc))
       (mkStats (hits st) (misses st) (sets st) (deletes st + 1) (evictions st)
                (expired_cleanups st) (total_operations st + 1)) svc)
  else (false, svc).

(** [exists]; the two branches each call [entry.is_expired()], at the
    clock readings [now1] and [now2]. *)
Definition exists_ (svc : MemoryCacheService) (cache_key : string)
    (now1 now2 : Time) : bool * MemoryCacheService :=
  match od_get cache_key (_cache svc) with
  | None => (false, svc)
  | Some entry =>
      if negb (is_expired entry now1) then (true, svc)
      else if is_expired entry now2 then
        let st := stats svc in
        (false,
         with_cache (od_del cache_key (_cache svc))
           (mkStats (hits st) (misses st) (sets st) (deletes st) (evictions st)
                    (expired_cleanups st + 1) (total_operations st)) svc)
      else (false, svc)
  end.

(** [MemoryCacheService.get_ttl]: [is_expired] reads [now1],
    [entry.get_ttl()] reads [now2]. *)
Definition get_ttl (svc : MemoryCacheService) (cache_key : string)
    (now1 now2 : Time) : option Z :=
  match od_get cache_key (_cache svc) with
  | Some entry =>
      if negb (is_expired entry now1) then Some (CacheEntry_get_ttl entry now2)
      else None
  | None => None
  end.

Definition clear_all (svc : MemoryCacheService) : Z * MemoryCacheService :=
  (Z.of_nat (length (_cache svc)), with_cache [] (stats svc) svc).

(** The first loop of a [_periodic_cleanup] sweep: the keys whose entry
    is expired, each entry being tested at its own clock reading
    ([clock i] for the entry at position [i], counted from [i0]). *)
Fixpoint expired_keys (clock : nat -> Time) (i0 : nat) (d : OrderedDict) : list string :=
  match d with
  | [] => []
  | (key, entry) :: rest =>
      if is_expired entry (clock i0) then key :: expired_keys clock (S i0) rest
      else expired_keys clock (S i0) rest
  end.

(** The second loop: [del self._cache[key]; expired_cleanups += 1]. *)
Definition remove_expired (svc : MemoryCacheService) (keys : list string)
    : MemoryCacheService :=
  fold_left
    (fun svc key =>
       let st := stats svc in
       with_cache (od_del key (_cache svc))
         (mkStats (hits st) (misses st) (sets st) (deletes st) (evictions st)
                  (expired_cleanups st + 1) (total_operations st)) svc)
    keys svc.

(** One sweep of [_periodic_cleanup] (the body of its [while] loop after
    the sleep). *)
Definition cleanup_sweep (svc : MemoryCacheService) (clock : nat -> Time)
    : MemoryCacheService :=
  remove_expired svc (expired_keys clock 0 (_cache svc)).

(** The dictionary returned by [health_check]. *)
Record Health : Type := mkHealth {
  h_status : string;
  h_cache_type : string;
  h_cache_size : Z;
  h_max_size : Z;
  h_test_operations : string
}.

Definition test_key : string := "health_check_test".

Definition test_response : SummaryResponse :=
  mkResponse "Health check test" (mkUsage 1 1 2) "test" (1 # 1)%Q LLM None false.

(** [health_check]: a set, a get and a delete of the test key; [t_set]
    is the clock of the set, [t_get] and [t_access] those of the get. *)
Definition health_check (svc : MemoryCacheService) (t_set t_get t_access : Time)
    : Health * MemoryCacheService :=
  let cache_size := Z.of_nat (length (_cache svc)) in
  let '(_, svc1) :=
    set_summary svc test_key test_response (Some (timedelta_of_seconds 1)) t_set in
  let '(result, svc2) := get_summary svc1 test_key t_get t_access in
  let '(_, svc3) := delete_summary svc2 test_key in
  ({| h_status := "healthy";
      h_cache_type := "memory";
      h_cache_size := cache_size;
      h_max_size := max_size svc;
      h_test_operations :=
        match result with Some _ => "passed" | None => "failed" end |},
   svc3).

(** Any public operation of the service, with its clock readings. *)
Inductive Call : Type :=
| CallGet (cache_key : string) (now now_access : Time)
| CallSet (cache_key : string) (response : SummaryResponse)
          (ttl : option timedelta) (now : Time)
| CallDelete (cache_key : string)
| CallExists (cache_key : string) (now1 now2 : Time)
| CallGetTtl (cache_key : string) (now1 now2 : Time)
| CallClearAll
| CallCleanup (clock : nat -> Time)
| CallHealthCheck (t_set t_get t_access : Time).

Definition apply_call (svc : MemoryCacheService) (c : Call) : MemoryCacheService :=
  match c with
  | CallGet k now now_access => snd (get_summary svc k now now_access)
  | CallSet k v ttl now => snd (set_summary svc k v ttl now)
  | CallDelete k => snd (delete_summary svc k)
  | CallExists k now1 now2 => snd (exists_ svc k now1 now2)
  | CallGetTtl _ _ _ => svc
  | CallClearAll => snd (clear_all svc)
  | CallCleanup clock => cleanup_sweep svc clock
  | CallHealthCheck t_set t_get t_access => snd (health_check svc t_set t_get t_access)
  end.

Definition apply_calls (svc : MemoryCacheService) (calls : list Call)
    : MemoryCacheService :=
  fold_left apply_call calls svc.

End MemoryCacheOps.

(** ** [rate_limit.py]: statistics, cleanup and the middleware *)

Module RateLimitOps.
Import RateLimit.

Record UsageStats : Type := mkUsageStats {
  requests_last_minute : Z;
  requests_last_hour : Z;
  total_requests : Z
}.

(** [sum(1 for t in history if current_time - t <= span)] *)
Definition count_recent (current_time : Time) (span : Z) (history : list Time) : Z :=
  Z.of_nat (length (List.filter (fun t => Qleb (current_time - t)%Q (inject_Z span))
                                history)).

(** [get_usage_stats]; reading [request_history[identifier]] stores an
    empty deque for an identifier that has none. *)
Definition get_usage_stats (request_history : gmap string (list Time))
    (identifier : string) (current_time : Time)
    : UsageStats * gmap string (list Time) :=
  let history := default [] (request_history !! identifier) in
  ({| requests_last_minute := count_recent current_time 60 history;
      requests_last_hour := count_recent current_time 3600 history;
      total_requests := Z.of_nat (length history) |},
   <[identifier := history]> request_history).

(** [cleanup_old_entries]: every history is pruned from the left and
    dropped when nothing is left of it. *)
Definition cleanup_old_entries (request_history : gmap string (list Time))
    (max_age_seconds : Z) (current_time : Time) : gmap string (list Time) :=
  let cutoff_time := (current_time - inject_Z max_age_seconds)%Q in
  omap (fun history =>
          match popleft_while cutoff_time history with
          | [] => None
          | t0 :: rest => Some (t0 :: rest)
          end) request_history.

(** [UserRole] and the parts of [AuthUser] that the middleware reads
    ([tier] is [user.metadata.get('tier')]). *)
Inductive UserRole : Type := ADMIN | USER | READONLY.

Record AuthUser : Type := mkUser {
  user_id : string;
  role : UserRole;
  tier : option string
}.

(** The parts of the request that the middleware reads. *)
Record HttpRequest : Type := mkHttpRequest {
  path : string;
  method : string;
  user : option AuthUser;          (* request.state.user *)
  client_host : option string      (* request.client.host *)
}.

Definition default_limits : Limits := mkLimits 60 1000.

Definition exempt_paths : list string :=
  ["/"; "/docs"; "/redoc"; "/openapi.json"; "/v1/healthz"].

Definition _get_rate_limit_config (request : HttpRequest) : string * Limits :=
  match user request with
  | Some u =>
      let identifier := "user:" +:+ user_id u in
      let limits :=
        match role u with
        | ADMIN => mkLimits 300 10000
        | _ =>
            if bool_decide (tier u = Some "premium") then mkLimits 120 5000
            else default_limits
        end in
      (identifier, limits)
  | None =>
      let client_ip := match client_host request with Some h => h | None => "unknown" end in
      ("ip:" +:+ client_ip, mkLimits 20 100)
  end.

Section Middleware.

(** The responses of the downstream application. *)
Context {R : Type}.

(** The [X-RateLimit-*] headers set on a forwarded response. *)
Record RateHeaders : Type := mkRateHeaders {
  x_limit : string;
  x_remaining : string;
  x_reset : string
}.

(** What the middleware returns: the downstream response, with or
    without rate-limit headers, or the 429 response with its headers. *)
Inductive Served : Type :=
| Forwarded (response : R) (rate_headers : option RateHeaders)
| TooManyRequests (rate_headers : RateHeaders) (retry_after_header : string).

Record MiddlewareOutcome : Type := mkMiddlewareOutcome {
  served : Result Served;
  downstream_calls : nat;
  limiter : gmap string (list Time)
}.

(** [RateLimitMiddleware.__call__].  [call_next i] is the outcome of the
    [i]-th invocation of the downstream application for this request;
    [t_minute] and [t_hour] are the clock readings of the two checks. *)
Definition RateLimitMiddleware__call__ (enable_rate_limit : bool)
    (request_history : gmap string (list Time)) (request : HttpRequest)
    (call_next : nat -> Result R) (t_minute t_hour : Time) : MiddlewareOutcome :=
  let pass_through :=
    mkMiddlewareOutcome
      (match call_next 0%nat with
       | Return response => Return (Forwarded response None)
       | Raise e => Raise e
       end) 1 request_history in
  if negb enable_rate_limit then pass_through
  else if bool_decide (path request ∈ exempt_paths) then pass_through
  else if bool_decide (method request = "OPTIONS") then pass_through
  else
    let '(identifier, limits) := _get_rate_limit_config request in
    let '(rate_limit_result, rh) :=
      _check_rate_limits request_history identifier limits t_minute t_hour in
    if negb (allowed rate_limit_result) then
      mkMiddlewareOutcome
        (Return (TooManyRequests
                   (mkRateHeaders (pretty (r_limit rate_limit_result)) "0"
                                  (pretty (r_reset rate_limit_result)))
                   (pretty (r_retry_after rate_limit_result))))
        0 rh
    else
      match call_next 0%nat with
      | Return response =>
          mkMiddlewareOutcome
            (Return (Forwarded response
                       (Some (mkRateHeaders (pretty (r_limit rate_limit_result))
                                            (pretty (r_remaining rate_limit_result))
                                            (pretty (r_reset rate_limit_result))))))
            1 rh
      | Raise e =>
          if isinstance e PyException then
            (* except Exception: return await call_next(request) *)
            mkMiddlewareOutcome
              (match call_next 1%nat with
               | Return response => Return (Forwarded response None)
               | Raise e' => Raise e'
               end) 2 rh
          else mkMiddlewareOutcome (Raise e) 1 rh
      end.

End Middleware.

Global Arguments Served : clear implicits.
Global Arguments MiddlewareOutcome : clear implicits.

End RateLimitOps.

(** ** [summary_service.py]: successive requests, the memory cache as
    cache service, and [health_check] *)

Module SummaryServiceOps.
Import Fallback SummaryService.

(** A closed run of guarded calls: each call has its clock readings and
    the outcome of its body ([None]: the body returned). *)
Record GuardedCall : Type := mkGuardedCall {
  entered_at : Time;
  body_raises : option Exn;
  left_at : Time
}.

Definition breaker_after_call (cb : CircuitBreaker.t) (c : GuardedCall)
    : CircuitBreaker.t :=
  CircuitBreaker.breaker
    (CircuitBreaker.guarded_call cb (entered_at c)
       (fun _ => match body_raises c with Some e => Raise e | None => Return tt end)
       (left_at c)).

Definition breaker_after_calls (cb : CircuitBreaker.t) (calls : list GuardedCall)
    : CircuitBreaker.t :=
  fold_left breaker_after_call calls cb.

Section WithCache.

Context {S : Type}.
Variable settings_redis_ttl : Z.
Variable get_cache_key : SummaryRequest -> string.

(** The service object after a request: only its breaker has changed. *)
Definition with_breaker (svc : SummaryService.t S) (cb : CircuitBreaker.t)
    : SummaryService.t S :=
  SummaryService.mk (llm_provider svc) (fallback_services svc) (cache_service svc) cb.

(** Successive [generate_summary] calls on one service; each request
    comes with the clock readings of its guarded provider call. *)
Fixpoint handle_requests (svc : SummaryService.t S) (st : S)
    (requests : list (SummaryRequest * (Time * Time))) : list (Outcome S) :=
  match requests with
  | [] => []
  | (request, (now_in, now_out)) :: rest =>
      let out := SummaryService.generate_summary settings_redis_ttl get_cache_key
                   svc st request now_in now_out in
      out :: handle_requests (with_breaker svc (breaker_after out)) (cache_after out) rest
  end.

End WithCache.

(** The response [get_summary] hands out on a hit is the object held by
    the entry, and [_try_cache_lookup] sets [cache_hit] and [source] on
    that object: from then on the entry holds the marked response. *)
Definition mark_stored (cache_key : string) (d : MemoryCache.OrderedDict)
    : MemoryCache.OrderedDict :=
  List.map
    (fun p =>
       if bool_decide (fst p = cache_key)
       then (fst p,
             MemoryCache.mkEntry (mark_cache_hit (MemoryCache.value (snd p)))
               (MemoryCache.created_at (snd p)) (MemoryCache.expires_at (snd p))
               (MemoryCache.access_count (snd p)) (MemoryCache.last_accessed (snd p)))
       else p)
    d.

(** [MemoryCacheService] as the orchestrator's [cache_service], for
    calls made at the given clock readings; neither method raises. *)
Definition memory_cache_service (t_get t_access t_set : Time)
    : CacheService MemoryCache.MemoryCacheService :=
  {| cs_get_summary st key :=
       match MemoryCache.get_summary st key t_get t_access with
       | (Some response, st') =>
           (Return (Some response),
            MemoryCache.with_cache (mark_stored key (MemoryCache._cache st'))
              (MemoryCache.stats st') st')
       | (None, st') => (Return None, st')
       end;
     cs_set_summary st key response ttl :=
       let '(b, st') := MemoryCache.set_summary st key response ttl t_set in
       (Return b, st') |}.

(** *** [SummaryService.health_check] *)

Section Health.

(** The dictionaries returned by the components' own health checks. *)
Context {H : Type}.

Inductive ComponentHealth : Type :=
| Reported (health : H)
| Unhealthy (algorithm : option FallbackAlgorithm) (error : string).

Record HealthStatus : Type := mkHealthStatus {
  status : string;
  llm_provider_health : ComponentHealth;
  fallback_services_health : list ComponentHealth;
  cache_service_health : option ComponentHealth;
  circuit_breaker_status : string;
  circuit_breaker_failure_count : Z
}.

(** [try: health = await component.health_check()] with its
    [except Exception] handler; any other exception escapes. *)
Definition probe (algorithm : option FallbackAlgorithm) (r : Result H)
    : Result ComponentHealth :=
  match r with
  | Return health => Return (Reported health)
  | Raise e =>
      if isinstance e PyException then Return (Unhealthy algorithm (exc_str e))
      else Raise e
  end.

(** The loop over [self.fallback_services]. *)
Fixpoint probe_fallbacks (fallbacks : list (FallbackAlgorithm * Result H))
    : Result (list ComponentHealth) :=
  match fallbacks with
  | [] => Return []
  | (name, r) :: rest =>
      match probe (Some name) r with
      | Raise e => Raise e
      | Return h =>
          match probe_fallbacks rest with
          | Return hs => Return (h :: hs)
          | Raise e => Raise e
          end
      end
  end.

(** [health_check]: [llm], [fallbacks] (one per fallback service, with
    its algorithm name) and [cache] are the outcomes of the components'
    own health checks. *)
Definition health_check (cb : CircuitBreaker.t) (llm : Result H)
    (fallbacks : list (FallbackAlgorithm * Result H)) (cache : option (Result H))
    : Result HealthStatus :=
  match probe None llm with
  | Raise e => Raise e
  | Return llm_health =>
      let status := match llm with Return _ => "healthy" | Raise _ => "degraded" end in
      match probe_fallbacks fallbacks with
      | Raise e => Raise e
      | Return fallback_health =>
          let finish cache_health :=
            Return (mkHealthStatus status llm_health fallback_health cache_health
                      (if CircuitBreaker.is_open cb then "open" else "closed")
                      (CircuitBreaker.failure_count cb)) in
          match cache with
          | None => finish None
          | Some r =>
              match probe None r with
              | Raise e => Raise e
              | Return h => finish (Some h)
              end
          end
      end
  end.

End Health.

Global Arguments ComponentHealth : clear implicits.
Global Arguments HealthStatus : clear implicits.

End SummaryServiceOps.

(** ** [HybridCacheService] in [app/services/cache/cache_factory.py] *)

Module HybridCache.
Import MemoryCache.

Section WithRedis.

(** The state of the Redis side and the three calls made on it; each
    may raise.  [redis_probe] is the [connect()] or [ping()] of
    [_check_redis_availability]. *)
Context {R : Type}.

Record RedisCacheService : Type := mkRedis {
  redis_probe : R -> Result unit * R;
  redis_get_summary : R -> string -> Result (option SummaryResponse) * R;
  redis_set_summary : R -> string -> SummaryResponse -> timedelta -> Result bool * R
}.

Variable redis_ops : RedisCacheService.

(** The attributes of a [HybridCacheService]; [redis_cache] is [None]
    when no Redis URL is configured. *)
Record t : Type := mk {
  redis_cache : option R;
  memory_cache : MemoryCacheService;
  default_ttl : Z;
  redis_available : bool;
  last_redis_check : Time
}.

Definition redis_check_interval : Z := 30.

Definition with_redis (r : option R) (available : bool) (h : t) : t :=
  mk r (memory_cache h) (default_ttl h) available (last_redis_check h).
Definition with_memory (m : MemoryCacheService) (h : t) : t :=
  mk (redis_cache h) m (default_ttl h) (redis_available h) (last_redis_check h).
Definition with_last_check (now : Time) (h : t) : t :=
  mk (redis_cache h) (memory_cache h) (default_ttl h) (redis_available h) now.

(** [_check_redis_availability]; [current_time] is its [time.time()].
    An exception of the probe that is not an [Exception] escapes. *)
Definition _check_redis_availability (h : t) (current_time : Time) : Result bool * t :=
  if negb (Qleb (inject_Z redis_check_interval) (current_time - last_redis_check h))
  then (Return (redis_available h), h)
  else
    let h1 := with_last_check current_time h in
    match redis_cache h1 with
    | None => (Return false, h1)
    | Some r =>
        match redis_probe redis_ops r with
        | (Return _, r') => (Return true, with_redis (Some r') true h1)
        | (Raise e, r') =>
            if isinstance e PyException
            then (Return false, with_redis (Some r') false h1)
            else (Raise e, with_redis (Some r') (redis_available h1) h1)
        end
    end.

(** A method call on [self.redis_cache] when it is [None]: an
    [AttributeError], which is an [Exception] and no [CacheError]. *)
Definition no_redis_cache : Exn :=
  mkExn PyException "NoneType object has no attribute".

(** [get_summary].  [now_check] is the clock of the availability check,
    [t_set] that of the write into the memory cache after a Redis hit,
    [t_get] and [t_access] those of the memory lookup. *)
Definition get_summary (h : t) (cache_key : string)
    (now_check t_set t_get t_access : Time) : Result (option SummaryResponse) * t :=
  let from_memory (h0 : t) :=
    let '(r, m) := MemoryCache.get_summary (memory_cache h0) cache_key t_get t_access in
    (Return r, with_memory m h0) in
  match _check_redis_availability h now_check with
  | (Raise e, h1) => (Raise e, h1)
  | (Return false, h1) => from_memory h1
  | (Return true, h1) =>
      match redis_cache h1 with
      | None => (Raise no_redis_cache, h1)
      | Some r =>
          match redis_get_summary redis_ops r cache_key with
          | (Return (Some result), r') =>
              let h2 := with_redis (Some r') (redis_available h1) h1 in
              let '(_, m) := MemoryCache.set_summary (memory_cache h2) cache_key result
                               (Some (timedelta_of_seconds 300)) t_set in
              (Return (Some result), with_memory m h2)
          | (Return None, r') =>
              (Return None, with_redis (Some r') (redis_available h1) h1)
          | (Raise e, r') =>
              if isinstance e CacheError
              then from_memory (with_redis (Some r') false h1)
              else (Raise e, with_redis (Some r') (redis_available h1) h1)
          end
      end
  end.

(** [ttl or timedelta(seconds=self.default_ttl)]: a zero [timedelta] is
    falsy. *)
Definition ttl_or_default (h : t) (ttl : option timedelta) : timedelta :=
  match ttl with
  | Some td => if td =? 0 then timedelta_of_seconds (default_ttl h) else td
  | None => timedelta_of_seconds (default_ttl h)
  end.

(** [set_summary]; [t_set] is the clock of the memory write. *)
Definition set_summary (h : t) (cache_key : string) (response : SummaryResponse)
    (ttl : option timedelta) (now_check t_set : Time) : Result bool * t :=
  let ttl := ttl_or_default h ttl in
  let to_memory (success : bool) (h0 : t) :=
    let memory_ttl := Z.min ttl (timedelta_of_seconds 1800) in
    let '(memory_success, m) :=
      MemoryCache.set_summary (memory_cache h0) cache_key response (Some memory_ttl)
        t_set in
    (Return (success || memory_success), with_memory m h0) in
  match _check_redis_availability h now_check with
  | (Raise e, h1) => (Raise e, h1)
  | (Return false, h1) => to_memory false h1
  | (Return true, h1) =>
      match redis_cache h1 with
      | None => (Raise no_redis_cache, h1)
      | Some r =>
          match redis_set_summary redis_ops r cache_key response ttl with
          | (Return success, r') =>
              to_memory success (with_redis (Some r') (redis_available h1) h1)
          | (Raise e, r') =>
              if isinstance e CacheError
              then to_memory false (with_redis (Some r') false h1)
              else (Raise e, with_redis (Some r') (redis_available h1) h1)
          end
      end
  end.

End WithRedis.

Global Arguments RedisCacheService : clear implicits.
Global Arguments t : clear implicits.

End HybridCache.

(** ** Methods of [SummaryResponse] in [app/domain/entities/summary_response.py] *)

Module ResponseOps.

Definition is_fast_response (r : SummaryResponse) (threshold_ms : Q) : bool :=
  Qleb (latency_ms r) threshold_ms.

Definition is_from_cache (r : SummaryResponse) : bool :=
  cache_hit r || bool_decide (source r = CACHE).

Definition is_fallback_response (r : SummaryResponse) : bool :=
  bool_decide (source r ∈ [FALLBACK_TEXTRANK; FALLBACK_TFIDF]).

Definition get_performance_category (r : SummaryResponse) : string :=
  if is_from_cache r then "excellent"
  else if is_fast_response r (1000 # 1) then "good"
  else if is_fast_response r (3000 # 1) then "acceptable"
  else if is_fallback_response r then "degraded"
  else "poor".

End ResponseOps.

(** ** [TFIDFSummarizer.extract_sentences] in [app/services/fallback/tfidf_summarizer.py] *)

Module TFIDF.

(** [list.sort(key=lambda x: x[1], reverse=True)]: a stable sort by
    decreasing score.  [insert_desc x l] puts [x], which precedes the
    elements of [l] in the original list, in front of the first element
    whose score is not greater. *)
Fixpoint insert_desc (x : string * Q) (l : list (string * Q)) : list (string * Q) :=
  match l with
  | [] => [x]
  | y :: rest =>
      if Qgtb (snd y) (snd x) then y :: insert_desc x rest else x :: y :: rest
  end.

Definition sort_desc (l : list (string * Q)) : list (string * Q) :=
  List.fold_right insert_desc [] l.

Section WithLibraries.

Variable strip : string -> string.
Variable sent_tokenize : string -> list string.
(** [get_sentence_scores]: scikit-learn's TF-IDF weights, one per
    sentence, as a dictionary. *)
Variable get_sentence_scores : string -> Result (gmap string Q).

(** [self.min_sentence_length]. *)
Variable self_min_sentence_length : Z.

Definition extraction_failed (e : Exn) : Exn :=
  mkExn TextProcessingError ("Sentence extraction failed: " +:+ exc_str e).

(** [scores.get(s, 0.0)] *)
Definition score_of (scores : gmap string Q) (s : string) : Q :=
  match scores !! s with Some v => v | None => 0 # 1 end.

Definition extract_sentences (text : string) (num_sentences : Z)
    (min_sentence_length : option Z) : Result (list string) :=
  let min_length :=
    match min_sentence_length with
    | Some v => if v =? 0 then self_min_sentence_length else v
    | None => self_min_sentence_length
    end in
  let sentences := sent_tokenize text in
  let valid_sentences :=
    List.filter (fun s => Z.of_nat (py_len (strip s)) >=? min_length) sentences in
  if Z.of_nat (length valid_sentences) <=? num_sentences then Return valid_sentences
  else
    match get_sentence_scores text with
    | Raise e => if isinstance e PyException then Raise (extraction_failed e) else Raise e
    | Return scores =>
        let scored_sentences :=
          List.map (fun s => (s, score_of scores s)) valid_sentences in
        let scored_sentences := sort_desc scored_sentences in
        let top_sentences :=
          List.map fst (TextRank.py_slice_to num_sentences scored_sentences) in
        Return (List.filter (fun sentence => bool_decide (sentence ∈ top_sentences))
                            sentences)
    end.

End WithLibraries.
End TFIDF.

(** ** [RateLimitDependency] in [app/api/middleware/rate_limit.py] *)

Module RateLimitDependency.
Import RateLimit RateLimitOps.

(** The [HTTPException] with status 429 raised by [__call__]: the
    [retry_after] of its detail and its four headers. *)
Record TooManyRequests : Type := mk429 {
  detail_retry_after : Z;
  header_limit : string;
  header_remaining : string;
  header_reset : string;
  header_retry_after : string
}.

(** [__call__] returns [None] or raises the 429. *)
Inductive Verdict : Type :=
| Passed
| Rejected (error : TooManyRequests).

(** The attributes set in [__init__]; the dependency has a rate limiter
    of its own. *)
Record t : Type := mk {
  requests_per_minute : Z;
  requests_per_hour : Z;
  rate_limiter : gmap string (list Time)
}.

Definition __init__ (requests_per_minute requests_per_hour : Z) : t :=
  mk requests_per_minute requests_per_hour ∅.

Definition endpoint_identifier (request : HttpRequest) : string :=
  match user request with
  | Some u => "user:" +:+ user_id u +:+ ":endpoint:" +:+ path request
  | None =>
      let client_ip := match client_host request with Some h => h | None => "unknown" end in
      "ip:" +:+ client_ip +:+ ":endpoint:" +:+ path request
  end.

(** [__call__]; [now] is the clock read by [is_allowed]. *)
Definition __call__ (enable_rate_limit : bool) (self : t) (request : HttpRequest)
    (now : Time) : Verdict * t :=
  if negb enable_rate_limit then (Passed, self)
  else
    let identifier := endpoint_identifier request in
    let '((minute_allowed, minute_info), rh) :=
      is_allowed (rate_limiter self) (identifier +:+ ":minute")
        (requests_per_minute self) 60 now in
    let self' := mk (requests_per_minute self) (requests_per_hour self) rh in
    if negb minute_allowed then
      (Rejected (mk429 (retry_after minute_info) (pretty (limit minute_info))
                   (pretty (remaining minute_info)) (pretty (reset minute_info))
                   (pretty (retry_after minute_info))),
       self')
    else (Passed, self').

(** The same request checked once per clock reading. *)
Fixpoint calls (enable_rate_limit : bool) (self : t) (request : HttpRequest)
    (times : list Time) : list Verdict * t :=
  match times with
  | [] => ([], self)
  | now :: rest =>
      let '(v, self1) := __call__ enable_rate_limit self request now in
      let '(vs, self2) := calls enable_rate_limit self1 request rest in
      (v :: vs, self2)
  end.

Definition passed (v : Verdict) : bool :=
  match v with Passed => true | Rejected _ => false end.

End RateLimitDependency.

(** * Verified properties *)

Lemma Qleb_true (a b : Q) : Qleb a b = true <-> (a <= b)%Q.
Proof. apply Qle_bool_iff. Qed.

Lemma Qleb_false (a b : Q) : Qleb a b = false <-> (b < a)%Q.
Proof.
  unfold Qleb. split; intros H.
  - apply Qnot_le_lt. intros Hle. apply Qle_bool_iff in Hle. congruence.
  - destruct (Qle_bool a b) eqn:E; [|reflexivity].
    apply Qle_bool_iff in E. exfalso. exact (Qlt_not_le _ _ H E).
Qed.

(** Sortedness of a literal list of clock readings. *)
Ltac sorted_times :=
  repeat first [ apply SSorted_nil | apply SSorted_cons | apply List.Forall_nil
               | apply List.Forall_cons | (unfold Qle; cbn; lia) ].

Module CircuitBreakerSpec.
Import CircuitBreaker.

Section Calls.
Context {A : Type}.

Lemma enter_closed (cb : t) now :
  is_open cb = false -> __aenter__ cb now = (Return tt, cb).
Proof. unfold __aenter__. intros ->. reflexivity. Qed.

Lemma enter_elapsed (cb : t) tf now :
  is_open cb = true -> last_failure_time cb = Some tf ->
  (inject_Z (recovery_timeout cb) <= now - tf)%Q ->
  __aenter__ cb now = (Return tt, set_failure_count 0 (set_is_open false cb)).
Proof.
  intros Ho Hl He. unfold __aenter__, _should_attempt_reset.
  rewrite Ho, Hl. apply Qleb_true in He. rewrite He. reflexivity.
Qed.

Lemma enter_too_early (cb : t) tf now :
  is_open cb = true -> last_failure_time cb = Some tf ->
  (now - tf < inject_Z (recovery_timeout cb))%Q ->
  __aenter__ cb now = (Raise breaker_open_error, cb).
Proof.
  intros Ho Hl He. unfold __aenter__, _should_attempt_reset.
  rewrite Ho, Hl. apply Qleb_false in He. rewrite He. reflexivity.
Qed.

(** One failing call on a closed breaker: the count goes up by one and
    the breaker opens exactly when the threshold is reached. *)
Lemma failing_call_closed (cb : t) e t_in t_out :
  is_open cb = false ->
  isinstance e (expected_exception cb) = true ->
  let cb' := breaker (guarded_call (A:=A) cb t_in (fun _ => Raise e) t_out) in
  failure_count cb' = failure_count cb + 1
  /\ failure_threshold cb' = failure_threshold cb
  /\ expected_exception cb' = expected_exception cb
  /\ last_failure_time cb' = Some t_out
  /\ is_open cb' = (failure_count cb + 1 >=? failure_threshold cb).
Proof.
  intros Hc He. unfold guarded_call. rewrite (enter_closed _ _ Hc).
  cbn [raised breaker __aexit__]. rewrite He. cbn.
  destruct (failure_count cb + 1 >=? failure_threshold cb); cbn; auto.
Qed.

(** The exceptions of a run all belong to the class the breaker counts. *)
Definition all_qualifying (cb : t) (calls : list FailedCall) : Prop :=
  List.Forall (fun c => isinstance (error c) (expected_exception cb) = true) calls.

Lemma failing_calls_below_threshold (calls : list FailedCall) :
  forall cb : t,
    is_open cb = false ->
    all_qualifying cb calls ->
    failure_count cb + Z.of_nat (length calls) < failure_threshold cb ->
    let cb' := failing_calls (A:=A) cb calls in
    is_open cb' = false
    /\ failure_count cb' = failure_count cb + Z.of_nat (length calls)
    /\ failure_threshold cb' = failure_threshold cb
    /\ expected_exception cb' = expected_exception cb.
Proof.
  induction calls as [|c rest IH]; intros cb Hc He Hlt.
  - cbn. repeat split; try assumption; lia.
  - cbn [failing_calls]. unfold all_qualifying in He.
    inversion He as [|? ? Hec Her]; subst.
    destruct (failing_call_closed cb (error c) (at_entry c) (at_exit c) Hc Hec)
      as (Hn & Ht & Hx & _ & Ho).
    cbn [length] in Hlt.
    specialize (IH (breaker (guarded_call (A:=A) cb (at_entry c)
                               (fun _ => Raise (error c)) (at_exit c)))).
    cbn zeta in IH. unfold all_qualifying in IH. rewrite Hn, Ht, Hx in IH.
    destruct IH as (I1 & I2 & I3 & I4).
    + rewrite Ho, Z.geb_leb. apply Z.leb_gt. lia.
    + exact Her.
    + lia.
    + cbn zeta. rewrite I2, I3, I4. cbn [length]. repeat split; try assumption; lia.
Qed.

Lemma failing_calls_app (c1 c2 : list FailedCall) :
  forall cb : t,
    failing_calls (A:=A) cb (c1 ++ c2)
    = failing_calls (A:=A) (failing_calls (A:=A) cb c1) c2.
Proof.
  induction c1 as [|c c1 IH]; intros cb; cbn; [reflexivity|apply IH].
Qed.

(** Entering and leaving never touch the settings. *)
Lemma guarded_call_settings (cb : t) (t_in t_out : Time) (body : unit -> Result A) :
  let cb' := breaker (guarded_call cb t_in body t_out) in
  failure_threshold cb' = failure_threshold cb
  /\ recovery_timeout cb' = recovery_timeout cb
  /\ expected_exception cb' = expected_exception cb.
Proof.
  cbv zeta. unfold guarded_call, __aenter__, __aexit__.
  destruct (is_open cb); [destruct (_should_attempt_reset cb t_in)|];
    cbn [breaker]; auto;
    destruct (body tt) as [v|e]; cbn [raised]; auto;
    match goal with |- context [isinstance ?x ?c] => destruct (isinstance x c) end; auto;
    match goal with |- context [?a >=? ?b] => destruct (a >=? b) end; auto.
Qed.

Lemma failing_calls_settings (calls : list FailedCall) :
  forall cb : t,
    failure_threshold (failing_calls (A:=A) cb calls) = failure_threshold cb
    /\ recovery_timeout (failing_calls (A:=A) cb calls) = recovery_timeout cb
    /\ expected_exception (failing_calls (A:=A) cb calls) = expected_exception cb.
Proof.
  induction calls as [|c rest IH]; intros cb; cbn [failing_calls]; [auto|].
  destruct (IH (breaker (guarded_call (A:=A) cb (at_entry c)
                           (fun _ => Raise (error c)) (at_exit c)))) as (I1 & I2 & I3).
  destruct (guarded_call_settings cb (at_entry c) (at_exit c) (fun _ => Raise (error c)))
    as (S1 & S2 & S3).
  rewrite I1, I2, I3. auto.
Qed.

(** A run of qualifying failures that brings the count of a closed
    breaker exactly to the threshold: the last failure opens it. *)
Lemma failing_calls_reach_threshold (calls : list FailedCall) (closing : FailedCall)
    (cb : t) :
  is_open cb = false ->
  all_qualifying cb (calls ++ [closing]) ->
  failure_count cb + Z.of_nat (length (calls ++ [closing])) = failure_threshold cb ->
  is_open (failing_calls (A:=A) cb calls) = false
  /\ is_open (failing_calls (A:=A) cb (calls ++ [closing])) = true
  /\ failure_count (failing_calls (A:=A) cb (calls ++ [closing])) = failure_threshold cb
  /\ last_failure_time (failing_calls (A:=A) cb (calls ++ [closing]))
     = Some (at_exit closing).
Proof.
  intros Hc He Hlen. rewrite length_app in Hlen. cbn [length] in Hlen.
  unfold all_qualifying in He. apply List.Forall_app in He. destruct He as [He' Hec].
  inversion Hec as [|? ? Hec' _]; subst.
  destruct (failing_calls_below_threshold calls cb Hc He') as (I1 & I2 & I3 & I4); [lia|].
  rewrite failing_calls_app. cbn [failing_calls].
  destruct (failing_call_closed (failing_calls (A:=A) cb calls)
              (error closing) (at_entry closing) (at_exit closing))
    as (Hn & _ & _ & Hl & Ho); [exact I1 | rewrite I4; exact Hec' |].
  split; [exact I1|]. split; [|split; [|exact Hl]].
  - rewrite Ho, I2, I3, Z.geb_leb. apply Z.leb_le. lia.
  - rewrite Hn, I2. lia.
Qed.

(** While the count stays within the threshold, every call of a failing
    run on a closed breaker reaches its body. *)
Lemma failing_calls_all_invoked (calls : list FailedCall) :
  forall cb : t,
    is_open cb = false ->
    all_qualifying cb calls ->
    failure_count cb + Z.of_nat (length calls) <= failure_threshold cb ->
    failing_calls_invoked (A:=A) cb calls = List.map (fun _ => true) calls.
Proof.
  induction calls as [|c rest IH]; intros cb Hc He Hle; [reflexivity|].
  cbn [failing_calls_invoked List.map]. unfold all_qualifying in He.
  inversion He as [|? ? Hec Her]; subst.
  destruct (failing_call_closed cb (error c) (at_entry c) (at_exit c) Hc Hec)
    as (Hn & Ht & Hx & _ & Ho).
  assert (Hinv : invoked (guarded_call (A:=A) cb (at_entry c)
                            (fun _ => Raise (error c)) (at_exit c)) = true).
  { unfold guarded_call. rewrite (enter_closed cb (at_entry c) Hc). reflexivity. }
  rewrite Hinv. f_equal.
  destruct rest as [|c' rest']; [reflexivity|].
  cbn [length] in Hle. apply IH.
  - rewrite Ho, Z.geb_leb. apply Z.leb_gt. lia.
  - unfold all_qualifying. rewrite Hx. exact Her.
  - rewrite Hn, Ht. cbn [length]. lia.
Qed.

(** A call that finds the breaker open after its timeout goes on as a
    call on the breaker closed and reset. *)
Lemma trial_call_as_closed (cb : t) (tf t_in t_out : Time) (body : unit -> Result A) :
  is_open cb = true -> last_failure_time cb = Some tf ->
  (inject_Z (recovery_timeout cb) <= t_in - tf)%Q ->
  guarded_call cb t_in body t_out
  = guarded_call (set_failure_count 0 (set_is_open false cb)) t_in body t_out.
Proof.
  intros Ho Hl Hel. unfold guarded_call.
  rewrite (enter_elapsed _ _ _ Ho Hl Hel), enter_closed; reflexivity.
Qed.

End Calls.

(** **** Claim C2.  Take a closed breaker and a run of guarded calls that
    all fail with a qualifying exception and bring its failure count
    exactly to [failure_threshold] (from a fresh breaker: a run of
    [failure_threshold] calls).
    (a) The breaker is still closed before the last call of the run; the
    last failure opens it, with [failure_count = failure_threshold] and
    [last_failure_time] the exit time of that call.
    (b) On the breaker so opened, a guarded call entered while
    [now - last_failure_time < recovery_timeout] raises
    [LLMProviderUnavailableError("Circuit breaker is open")] without
    running the downstream call and leaves the breaker as it is, so every
    further entry in that period fails fast as well.
    (c) A guarded call entered once [recovery_timeout] has elapsed since
    that last failure runs the downstream call, and when the call
    succeeds [failure_count] is 0 and the breaker is closed.
    (d) A success on a closed breaker also resets [failure_count] to 0
    and leaves it closed. *)
Theorem breaker_opens_fails_fast_and_recovers {A : Type} (cb : t)
    (calls : list FailedCall) (closing : FailedCall) :
  is_open cb = false ->
  all_qualifying cb (calls ++ [closing]) ->
  failure_count cb + Z.of_nat (length (calls ++ [closing])) = failure_threshold cb ->
  let opened := failing_calls (A:=A) cb (calls ++ [closing]) in
  (is_open (failing_calls (A:=A) cb calls) = false
   /\ failing_calls_invoked (A:=A) cb (calls ++ [closing])
      = List.map (fun _ => true) (calls ++ [closing])
   /\ is_open opened = true
   /\ failure_count opened = failure_threshold cb
   /\ last_failure_time opened = Some (at_exit closing))
  /\ (forall (now_in now_out : Time) (body : unit -> Result A),
        (now_in - at_exit closing < inject_Z (recovery_timeout cb))%Q ->
        guarded_call opened now_in body now_out
        = mkGuarded
            (Raise (mkExn LLMProviderUnavailableError "Circuit breaker is open"))
            false opened)
  /\ (forall (now_in now_out : Time) (body : unit -> Result A),
        (inject_Z (recovery_timeout cb) <= now_in - at_exit closing)%Q ->
        let g := guarded_call opened now_in body now_out in
        invoked g = true
        /\ outcome g = body tt
        /\ forall v, body tt = Return v ->
             failure_count (breaker g) = 0 /\ is_open (breaker g) = false)
  /\ (forall (now_in now_out : Time) (body : unit -> Result A) (v : A),
        body tt = Return v ->
        let g := guarded_call cb now_in body now_out in
        invoked g = true /\ outcome g = Return v
        /\ failure_count (breaker g) = 0 /\ is_open (breaker g) = false).
Proof.
  intros Hc He Hlen. cbv zeta.
  destruct (failing_calls_reach_threshold (A:=A) calls closing cb Hc He Hlen)
    as (Hbefore & Ho & Hn & Hl).
  destruct (failing_calls_settings (A:=A) (calls ++ [closing]) cb) as (_ & Hr & _).
  split; [|split; [|split]].
  - split; [exact Hbefore|]. split; [|auto].
    apply failing_calls_all_invoked; [exact Hc|exact He|lia].
  - intros now_in now_out body Hearly. unfold guarded_call.
    rewrite (enter_too_early _ (at_exit closing) now_in Ho Hl);
      [reflexivity|rewrite Hr; exact Hearly].
  - intros now_in now_out body Hel. unfold guarded_call.
    rewrite (enter_elapsed _ (at_exit closing) now_in Ho Hl);
      [|rewrite Hr; exact Hel].
    cbn [invoked outcome breaker]. split; [reflexivity|split; [reflexivity|]].
    intros v Hv. rewrite Hv. cbn. auto.
  - intros now_in now_out body v Hv. unfold guarded_call.
    rewrite (enter_closed _ _ Hc), Hv. cbn. auto.
Qed.

(** The orchestrator's breaker ([failure_threshold=3],
    [recovery_timeout=60], [expected_exception=LLMProviderError]) after
    it has opened at time 10. *)
Definition opened_at_10 : t :=
  mk 3 60 LLMProviderError 3 (Some (10 # 1)%Q) true.

Definition timeout_error : Exn := mkExn LLMProviderTimeoutError "LLM provider timed out".
Definition quota_error : Exn := mkExn LLMProviderQuotaError "quota exceeded".
Definition unavailable_error : Exn := mkExn LLMProviderUnavailableError "provider down".

(** Three failing calls on the orchestrator's breaker, the last one
    leaving at time 6. *)
Definition two_failures : list FailedCall :=
  [mkFailed (1#1) timeout_error (2#1); mkFailed (3#1) quota_error (4#1)]%Q.

Definition third_failure : FailedCall := mkFailed (5#1)%Q unavailable_error (6#1)%Q.

Lemma breaker_opens_fails_fast_and_recovers_witness :
  let opened := failing_calls (A:=string) (__init__ 3 60 LLMProviderError)
                  (two_failures ++ [third_failure]) in
  (is_open opened = true /\ last_failure_time opened = Some (6#1)%Q)
  /\ guarded_call opened (65#1)%Q (fun _ => Return "ok") (65#1)%Q
     = mkGuarded (Raise (mkExn LLMProviderUnavailableError "Circuit breaker is open"))
         false opened
  /\ (let g := guarded_call opened (66#1)%Q (fun _ => Return "ok") (67#1)%Q in
      invoked g = true /\ failure_count (breaker g) = 0 /\ is_open (breaker g) = false)
  /\ (let g := guarded_call (__init__ 3 60 LLMProviderError) (1#1)%Q
                 (fun _ => Return "ok") (2#1)%Q in
      failure_count (breaker g) = 0 /\ is_open (breaker g) = false).
Proof.
  cbv zeta.
  destruct (breaker_opens_fails_fast_and_recovers (A:=string)
              (__init__ 3 60 LLMProviderError) two_failures third_failure)
    as ((_ & _ & Ho & _ & Hl) & Hfast & Hrecover & Hsuccess).
  - reflexivity.
  - repeat constructor.
  - reflexivity.
  - split; [split; [exact Ho|exact Hl]|]. split; [|split].
    + apply Hfast. reflexivity.
    + destruct (Hrecover (66#1)%Q (67#1)%Q (fun _ => Return "ok")) as (Hi & _ & Hs).
      * vm_compute. discriminate.
      * split; [exact Hi|exact (Hs "ok" eq_refl)].
    + destruct (Hsuccess (1#1)%Q (2#1)%Q (fun _ => Return "ok") "ok" eq_refl)
        as (_ & _ & H). exact H.
Defined.

(** **** Claim C3, as stated, fails.  With the orchestrator's settings
    (threshold 3) an opened breaker whose timeout has elapsed lets the
    call through, and a qualifying failure of that call leaves it
    closed; a second call right after is let through as well. *)
Lemma half_open_trial_counterexample :
  let cb := opened_at_10 in
  let g1 := guarded_call (A:=string) cb (70#1)%Q (fun _ => Raise timeout_error) (71#1)%Q in
  let g2 := guarded_call (A:=string) (breaker g1) (71#1)%Q
              (fun _ => Raise timeout_error) (72#1)%Q in
  is_open cb = true
  /\ isinstance timeout_error (expected_exception cb) = true
  /\ invoked g1 = true /\ is_open (breaker g1) = false
  /\ invoked g2 = true.
Proof. vm_compute. repeat split; reflexivity. Qed.

(** **** Claim C3, amended.  Let the breaker be open, let
    [recovery_timeout] have elapsed when a guarded call is entered, and
    let that call and the calls after it all fail with a qualifying
    exception.  Entering the first call closes the breaker and sets
    [failure_count] to 0, so the call runs; its failure sets
    [failure_count] to 1, records the failure time, and reopens the
    breaker only if [failure_threshold <= 1].  As long as the run is not
    longer than [failure_threshold], every call of it is let through,
    [failure_count] is the number of failures since the reset, and the
    breaker is open exactly when that number has reached
    [failure_threshold]: it stays closed until [failure_threshold]
    consecutive qualifying failures have accumulated. *)
Theorem reset_then_failure_counts_from_one {A : Type}
    (cb : t) (first : FailedCall) (rest : list FailedCall) (tf : Time) :
  is_open cb = true -> last_failure_time cb = Some tf ->
  (inject_Z (recovery_timeout cb) <= at_entry first - tf)%Q ->
  all_qualifying cb (first :: rest) ->
  let entered := snd (__aenter__ cb (at_entry first)) in
  let g := guarded_call (A:=A) cb (at_entry first) (fun _ => Raise (error first))
             (at_exit first) in
  let run := first :: rest in
  (fst (__aenter__ cb (at_entry first)) = Return tt
   /\ is_open entered = false /\ failure_count entered = 0)
  /\ (invoked g = true
      /\ failure_count (breaker g) = 1
      /\ last_failure_time (breaker g) = Some (at_exit first)
      /\ is_open (breaker g) = (failure_threshold cb <=? 1))
  /\ (1 < failure_threshold cb ->
      forall (now_in' now_out' : Time) (body : unit -> Result A),
        invoked (guarded_call (breaker g) now_in' body now_out') = true)
  /\ (Z.of_nat (length run) <= failure_threshold cb ->
      failing_calls_invoked (A:=A) cb run = List.map (fun _ => true) run
      /\ failure_count (failing_calls (A:=A) cb run) = Z.of_nat (length run)
      /\ is_open (failing_calls (A:=A) cb run)
         = (failure_threshold cb <=? Z.of_nat (length run))).
Proof.
  intros Ho Hl Hel He. cbv zeta.
  set (cb0 := set_failure_count 0 (set_is_open false cb)).
  assert (Henter : __aenter__ cb (at_entry first) = (Return tt, cb0))
    by exact (enter_elapsed cb tf (at_entry first) Ho Hl Hel).
  assert (Hc0 : is_open cb0 = false) by reflexivity.
  assert (He0 : all_qualifying cb0 (first :: rest)) by exact He.
  assert (Hfirst : forall body : unit -> Result A,
            guarded_call cb (at_entry first) body (at_exit first)
            = guarded_call cb0 (at_entry first) body (at_exit first))
    by (intros body; exact (trial_call_as_closed cb tf _ _ body Ho Hl Hel)).
  inversion He0 as [|? ? Hef Her]; subst.
  destruct (failing_call_closed (A:=A) cb0 (error first) (at_entry first) (at_exit first)
              Hc0 Hef) as (Hn & Ht & Hx & Hlast & Hopen).
  rewrite Henter, Hfirst. cbn [fst snd].
  split; [auto|]. split; [|split].
  - split; [|split; [|split]].
    + unfold guarded_call. rewrite (enter_closed cb0 _ Hc0). reflexivity.
    + rewrite Hn. reflexivity.
    + exact Hlast.
    + rewrite Hopen. cbn [failure_count cb0 set_failure_count failure_threshold
                         set_is_open]. rewrite Z.geb_leb. reflexivity.
  - intros Hlt now_in' now_out' body. unfold guarded_call at 1.
    rewrite enter_closed; [reflexivity|].
    rewrite Hopen, Z.geb_leb. apply Z.leb_gt.
    cbn [failure_count cb0 set_failure_count failure_threshold set_is_open]. lia.
  - intros Hlen.
    assert (Hrun : failing_calls (A:=A) cb (first :: rest)
                   = failing_calls (A:=A) cb0 (first :: rest)).
    { cbn [failing_calls]. rewrite Hfirst. reflexivity. }
    assert (Htrace : failing_calls_invoked (A:=A) cb (first :: rest)
                     = failing_calls_invoked (A:=A) cb0 (first :: rest)).
    { cbn [failing_calls_invoked]. rewrite Hfirst. reflexivity. }
    rewrite Hrun, Htrace.
    split; [apply failing_calls_all_invoked; [exact Hc0|exact He0|exact Hlen]|].
    destruct (Z.eq_dec (Z.of_nat (length (first :: rest))) (failure_threshold cb))
      as [Heq|Hne].
    + assert (Hsplit : exists calls closing, first :: rest = calls ++ [closing]).
      { destruct (exists_last (l := first :: rest)) as (calls & closing & E);
          [discriminate|]. eauto. }
      destruct Hsplit as (calls & closing & Hsplit). rewrite Hsplit in *.
      destruct (failing_calls_reach_threshold (A:=A) calls closing cb0 Hc0 He0)
        as (_ & Hop & Hcount & _); [exact Heq|].
      rewrite Hop, Hcount. split; [symmetry; exact Heq|].
      symmetry. apply Z.leb_le.
      change (failure_threshold cb0) with (failure_threshold cb) in Heq. lia.
    + destruct (failing_calls_below_threshold (A:=A) (first :: rest) cb0 Hc0 He0)
        as (Hcl & Hcount & _ & _).
      { change (failure_threshold cb0) with (failure_threshold cb).
        change (failure_count cb0) with 0. lia. }
      rewrite Hcl, Hcount. split; [reflexivity|].
      symmetry. apply Z.leb_gt. lia.
Qed.

Lemma reset_then_failure_counts_from_one_witness :
  let first := mkFailed (70#1)%Q timeout_error (71#1)%Q in
  let second := mkFailed (72#1)%Q quota_error (73#1)%Q in
  let third := mkFailed (74#1)%Q unavailable_error (75#1)%Q in
  let g := guarded_call (A:=string) opened_at_10 (70#1)%Q
             (fun _ => Raise timeout_error) (71#1)%Q in
  (invoked g = true /\ failure_count (breaker g) = 1 /\ is_open (breaker g) = false)
  /\ (failing_calls_invoked (A:=string) opened_at_10 [first; second] = [true; true]
      /\ failure_count (failing_calls (A:=string) opened_at_10 [first; second]) = 2
      /\ is_open (failing_calls (A:=string) opened_at_10 [first; second]) = false)
  /\ (failing_calls_invoked (A:=string) opened_at_10 [first; second; third]
      = [true; true; true]
      /\ failure_count (failing_calls (A:=string) opened_at_10 [first; second; third]) = 3
      /\ is_open (failing_calls (A:=string) opened_at_10 [first; second; third]) = true).
Proof.
  cbv zeta.
  destruct (reset_then_failure_counts_from_one (A:=string) opened_at_10
              (mkFailed (70#1)%Q timeout_error (71#1)%Q)
              [mkFailed (72#1)%Q quota_error (73#1)%Q] (10#1)%Q)
    as (_ & (Hi & Hn & _ & Ho) & _ & Htwo);
    [reflexivity | reflexivity | vm_compute; discriminate | repeat constructor |].
  destruct (reset_then_failure_counts_from_one (A:=string) opened_at_10
              (mkFailed (70#1)%Q timeout_error (71#1)%Q)
              [mkFailed (72#1)%Q quota_error (73#1)%Q;
               mkFailed (74#1)%Q unavailable_error (75#1)%Q] (10#1)%Q)
    as (_ & _ & _ & Hthree);
    [reflexivity | reflexivity | vm_compute; discriminate | repeat constructor |].
  split; [split; [exact Hi|split; [exact Hn|exact Ho]]|].
  split; [apply Htwo; vm_compute; discriminate|apply Hthree; vm_compute; discriminate].
Defined.

End CircuitBreakerSpec.

Module RateLimitSpec.
Import RateLimit.

(** [newer c t]: the timestamp [t] is strictly later than [c]. *)
Definition newer (c t : Time) : bool := negb (Qleb t c).

Lemma newer_true c t : newer c t = true <-> (c < t)%Q.
Proof. unfold newer. rewrite negb_true_iff. apply Qleb_false. Qed.

Lemma newer_false c t : newer c t = false <-> (t <= c)%Q.
Proof. unfold newer. rewrite negb_false_iff. apply Qleb_true. Qed.

(** On a deque in clock order, popping from the left while the head is
    at or before the cutoff removes every timestamp at or before the
    cutoff and nothing else. *)
Lemma popleft_while_filter c (h : list Time) :
  StronglySorted Qle h -> popleft_while c h = List.filter (newer c) h.
Proof.
  induction 1 as [|t0 rest Hs IH Hall]; cbn; [reflexivity|].
  unfold newer at 1. destruct (Qleb t0 c) eqn:E; cbn.
  - exact IH.
  - f_equal. symmetry. apply forallb_filter_id, forallb_forall.
    intros t Hin. apply newer_true.
    rewrite List.Forall_forall in Hall. specialize (Hall t Hin).
    apply Qleb_false in E. lra.
Qed.

Lemma filter_newer_sorted c (h : list Time) :
  StronglySorted Qle h -> StronglySorted Qle (List.filter (newer c) h).
Proof.
  induction 1 as [|t0 rest Hs IH Hall]; cbn; [constructor|].
  destruct (newer c t0); [|exact IH].
  constructor; [exact IH|].
  rewrite List.Forall_forall in *. intros t Hin.
  apply List.filter_In in Hin. apply Hall, Hin.
Qed.

Lemma filter_newer_Forall (P : Time -> Prop) c (h : list Time) :
  List.Forall P h -> List.Forall P (List.filter (newer c) h).
Proof.
  rewrite !List.Forall_forall. intros H t Hin.
  apply List.filter_In in Hin. apply H, Hin.
Qed.

Lemma filter_newer_newer c c' (l : list Time) :
  (c <= c')%Q ->
  List.filter (newer c') (List.filter (newer c) l) = List.filter (newer c') l.
Proof.
  intros Hc. induction l as [|t l IH]; cbn; [reflexivity|].
  destruct (newer c t) eqn:E; cbn; rewrite IH; [reflexivity|].
  destruct (newer c' t) eqn:E'; [|reflexivity].
  apply newer_true in E'. apply newer_false in E. lra.
Qed.

Lemma sorted_snoc (l : list Time) now :
  StronglySorted Qle l -> List.Forall (fun t => t <= now)%Q l ->
  StronglySorted Qle (l ++ [now]).
Proof.
  induction 1 as [|t0 rest Hs IH Hall]; intros Hb; cbn.
  - constructor; constructor.
  - inversion Hb; subst. constructor; [apply IH; assumption|].
    apply List.Forall_app. split; [assumption|]. constructor; [assumption|constructor].
Qed.

(** What the deque [h] of one identifier knows about the admitted
    requests [adm], when no later clock reading is below [bound]: for
    every cutoff a later call can compute, the deque and the full list
    of admitted requests retain the same timestamps. *)
Definition tracks (W : Z) (bound : Time) (h adm : list Time) : Prop :=
  StronglySorted Qle h
  /\ List.Forall (fun t => t <= bound)%Q h
  /\ List.Forall (fun t => t <= bound)%Q adm
  /\ forall c : Time, (bound - inject_Z W <= c)%Q ->
       List.filter (newer c) h = List.filter (newer c) adm.

Lemma tracks_nil W bound : tracks W bound [] [].
Proof. repeat split; constructor. Qed.

Lemma Forall_le_weaken (l : list Time) (a b : Time) :
  (a <= b)%Q -> List.Forall (fun t => t <= a)%Q l -> List.Forall (fun t => t <= b)%Q l.
Proof.
  intros Hab. apply List.Forall_impl. intros t Ht. lra.
Qed.

(** One call: the pruned deque is the list of admitted timestamps newer
    than the cutoff, and the updated deque tracks the updated list. *)
Lemma tracks_step W bound now (h adm : list Time) (ok : bool) :
  tracks W bound h adm -> (bound <= now)%Q ->
  let pruned := popleft_while (now - inject_Z W)%Q h in
  pruned = List.filter (newer (now - inject_Z W)%Q) adm
  /\ tracks W now (if ok then pruned ++ [now] else pruned)
                  (if ok then adm ++ [now] else adm).
Proof.
  intros (Hs & Hh & Ha & Hf) Hb. cbn zeta.
  assert (Hc : (bound - inject_Z W <= now - inject_Z W)%Q) by lra.
  rewrite (popleft_while_filter _ _ Hs).
  split; [apply Hf; exact Hc|].
  pose proof (filter_newer_sorted (now - inject_Z W)%Q h Hs) as Hps.
  pose proof (filter_newer_Forall _ (now - inject_Z W)%Q h
                (Forall_le_weaken _ _ _ Hb Hh)) as Hpb.
  pose proof (Forall_le_weaken _ _ _ Hb Ha) as Hab.
  assert (Hff : forall c : Time, (now - inject_Z W <= c)%Q ->
            List.filter (newer c) (List.filter (newer (now - inject_Z W)%Q) h)
            = List.filter (newer c) adm).
  { intros c Hle. rewrite (filter_newer_newer _ _ _ Hle). apply Hf. lra. }
  destruct ok.
  - repeat split.
    + apply sorted_snoc; assumption.
    + apply List.Forall_app. split; [assumption|]. constructor; [lra|constructor].
    + apply List.Forall_app. split; [assumption|]. constructor; [lra|constructor].
    + intros c Hle. rewrite !List.filter_app, (Hff c Hle). reflexivity.
  - repeat split; assumption.
Qed.

Lemma tracks_mono W b b' (h adm : list Time) :
  (b <= b')%Q -> tracks W b h adm -> tracks W b' h adm.
Proof.
  intros Hb (Hs & Hh & Ha & Hf). repeat split.
  - exact Hs.
  - exact (Forall_le_weaken _ _ _ Hb Hh).
  - exact (Forall_le_weaken _ _ _ Hb Ha).
  - intros c Hc. apply Hf. lra.
Qed.

(** Any interval shorter than the window holds at most [limit]
    admitted requests. *)
Definition window_ok (L W : Z) (adm : list Time) : Prop :=
  forall lo hi : Time, (hi - lo < inject_Z W)%Q ->
    Z.of_nat (count_within lo hi adm) <= Z.max 0 L.

Lemma filter_length_le_implies (f g : Time -> bool) (l : list Time) :
  (forall t, f t = true -> g t = true) ->
  (length (List.filter f l) <= length (List.filter g l))%nat.
Proof.
  intros Himp. induction l as [|t l IH]; cbn; [lia|].
  destruct (f t) eqn:E.
  - rewrite (Himp t E). cbn. lia.
  - destruct (g t); cbn; lia.
Qed.

Lemma window_ok_snoc L W now (adm : list Time) :
  window_ok L W adm ->
  Z.of_nat (length (List.filter (newer (now - inject_Z W)%Q) adm)) < L ->
  window_ok L W (adm ++ [now]).
Proof.
  intros Hw Hlt lo hi Hlen. unfold count_within.
  rewrite List.filter_app, length_app. cbn [List.filter].
  destruct (Qleb lo now && Qleb now hi) eqn:E; cbn [length].
  - apply andb_true_iff in E. destruct E as [E1 E2].
    apply Qleb_true in E1, E2.
    pose proof (filter_length_le_implies
                  (fun t => Qleb lo t && Qleb t hi)
                  (newer (now - inject_Z W)%Q) adm) as Hle.
    assert (Himp : forall t : Time, Qleb lo t && Qleb t hi = true ->
                     newer (now - inject_Z W)%Q t = true).
    { intros t Ht. apply andb_true_iff in Ht. destruct Ht as [Ht1 _].
      apply Qleb_true in Ht1. apply newer_true. lra. }
    specialize (Hle Himp). unfold Time in *. lia.
  - specialize (Hw lo hi Hlen). unfold count_within in Hw. unfold Time in *. lia.
Qed.

Lemma is_allowed_verdict rh id L W now :
  let pruned := popleft_while (now - inject_Z W)%Q (default [] (rh !! id)) in
  let ok := Z.of_nat (length pruned) <? L in
  fst (fst (is_allowed rh id L W now)) = ok
  /\ snd (is_allowed rh id L W now)
     = <[id := if ok then pruned ++ [now] else pruned]> rh.
Proof. split; reflexivity. Qed.

Lemma serve_cons rh id L W now rest :
  let pruned := popleft_while (now - inject_Z W)%Q (default [] (rh !! id)) in
  let ok := Z.of_nat (length pruned) <? L in
  let r := serve (<[id := if ok then pruned ++ [now] else pruned]> rh) id L W rest in
  serve rh id L W (now :: rest) = (ok :: fst r, snd r).
Proof.
  cbv zeta. cbn [serve]. unfold is_allowed. cbv zeta.
  destruct (serve _ id L W rest) as [oks rh2]. reflexivity.
Qed.

(** A whole run: the admitted requests keep the window property and
    the final deque still tracks them. *)
Lemma serve_tracks L W id (times : list Time) :
  forall (rh : gmap string (list Time)) (bound : Time) (adm : list Time),
    tracks W bound (default [] (rh !! id)) adm ->
    StronglySorted Qle times ->
    List.Forall (fun now => bound <= now)%Q times ->
    window_ok L W adm ->
    let r := serve rh id L W times in
    let adm' := adm ++ admitted times (fst r) in
    window_ok L W adm'
    /\ forall b' : Time, (bound <= b')%Q ->
         List.Forall (fun now => now <= b')%Q times ->
         tracks W b' (default [] (snd r !! id)) adm'.
Proof.
  induction times as [|now rest IH]; intros rh bound adm Ht Hs Hb Hw.
  - cbn. rewrite app_nil_r. split; [exact Hw|].
    intros b' Hb' _. exact (tracks_mono _ _ _ _ _ Hb' Ht).
  - cbn zeta. rewrite serve_cons. cbn [fst snd admitted].
    apply StronglySorted_inv in Hs. destruct Hs as [Hs Hall].
    inversion Hb as [|? ? Hbn Hbr]; subst.
    set (pruned := popleft_while (now - inject_Z W)%Q (default [] (rh !! id))).
    set (ok := Z.of_nat (length pruned) <? L).
    destruct (tracks_step W bound now _ adm ok Ht Hbn) as [Hp Ht1].
    fold pruned in Hp, Ht1.
    set (h1 := if ok then pruned ++ [now] else pruned) in *.
    set (adm1 := if ok then adm ++ [now] else adm) in *.
    assert (Hw1 : window_ok L W adm1).
    { subst adm1. destruct ok eqn:Eok; [|exact Hw].
      apply window_ok_snoc; [exact Hw|].
      rewrite <- Hp. subst ok. apply Z.ltb_lt in Eok. exact Eok. }
    specialize (IH (<[id := h1]> rh) now adm1).
    rewrite lookup_insert_eq in IH. cbn [default] in IH.
    specialize (IH Ht1 Hs Hall Hw1). cbn zeta in IH.
    destruct IH as [IHw IHt].
    assert (Heq : adm ++ (if ok then now :: admitted rest (fst (serve (<[id:=h1]> rh) id L W rest))
                          else admitted rest (fst (serve (<[id:=h1]> rh) id L W rest)))
                  = adm1 ++ admitted rest (fst (serve (<[id:=h1]> rh) id L W rest))).
    { subst adm1. destruct ok; [rewrite <- app_assoc|]; reflexivity. }
    change (if ok then pruned ++ [now] else pruned) with h1.
    rewrite Heq. split; [exact IHw|].
    intros b' Hb' Hall'. inversion Hall'; subst. apply IHt; assumption.
Qed.

(** **** Claim C4, as stated, fails on the window boundary.  A stored
    timestamp that is exactly [window] old is not older than
    [now - window], yet the code pops it ([history[0] <= cutoff_time]):
    with limit 1 and window 60 a request at time 0 and one at time 60
    are both admitted, although the first is still counted by the
    claim's pruning rule and both lie in the 60-second interval
    [[0, 60]]. *)
Lemma is_allowed_boundary_counterexample :
  (let rh : gmap string (list Time) := {[ "u" := [0 # 1]%Q ]} in
   let r := is_allowed rh "u" 1 60 (60 # 1)%Q in
   Qleb ((60 # 1) - inject_Z 60)%Q (0 # 1)%Q = true
   /\ fst (fst r) = true
   /\ snd r !! "u" = Some [60 # 1]%Q)
  /\ (let run := serve ∅ "u" 1 60 [0 # 1; 60 # 1]%Q in
      fst run = [true; true]
      /\ count_within (0 # 1)%Q (60 # 1)%Q (admitted [0 # 1; 60 # 1]%Q (fst run)) = 2%nat)
  /\ ~ (forall (rh : gmap string (list Time)) (id : string) (L W : Z) (now : Time),
          fst (fst (is_allowed rh id L W now)) = true
          <-> Z.of_nat (length (List.filter
                                  (fun t => Qleb (now - inject_Z W)%Q t)
                                  (default [] (rh !! id)))) < L).
Proof.
  split; [|split].
  - vm_compute. repeat split; reflexivity.
  - vm_compute. repeat split; reflexivity.
  - intros H.
    specialize (H {[ "u" := [0 # 1]%Q ]} "u" 1 60 (60 # 1)%Q).
    destruct H as [H _]. specialize (H eq_refl). vm_compute in H. discriminate H.
Qed.

(** **** Claim C4, amended.  For every call
    [is_allowed(identifier, limit, window)]:
    the deque is pruned from the left while its head is at or before
    [now - window], which on a deque in clock order removes exactly the
    timestamps [t <= now - window]; the request is allowed iff the
    retained count is strictly below [limit]; when allowed, [now] is
    appended and [remaining = limit - count - 1]; when denied, the deque
    is the pruned one and [retry_after] is
    [max(1, int(window - (now - oldest)))], where [oldest] is the head of
    the pruned deque (it exists when [limit > 0]); [retry_after >= 1] in
    every case.
    Consequently, for a fresh identifier served at non-decreasing clock
    readings with a fixed limit and window: every interval shorter than
    [window] holds at most [limit] admitted requests, and a request is
    admitted iff fewer than [limit] earlier admitted requests are newer
    than [now - window] (so the request after [limit] admitted ones within
    the window is denied). *)
Theorem sliding_window_admission
    (rh : gmap string (list Time)) (id : string) (L W : Z) :
  (forall now : Time,
      let h := default [] (rh !! id) in
      let pruned := popleft_while (now - inject_Z W)%Q h in
      let r := is_allowed rh id L W now in
      let info := snd (fst r) in
      (StronglySorted Qle h ->
         pruned = List.filter (fun t => negb (Qleb t (now - inject_Z W)%Q)) h)
      /\ (fst (fst r) = true <-> Z.of_nat (length pruned) < L)
      /\ (fst (fst r) = true ->
            snd r !! id = Some (pruned ++ [now])
            /\ remaining info = L - Z.of_nat (length pruned) - 1)
      /\ (fst (fst r) = false ->
            snd r !! id = Some pruned
            /\ retry_after info
               = Z.max 1 (py_int (inject_Z W - (now - hd now pruned))%Q)
            /\ (0 < L -> exists oldest rest, pruned = oldest :: rest))
      /\ 1 <= retry_after info)
  /\ (forall times : list Time,
        default [] (rh !! id) = [] ->
        StronglySorted Qle times ->
        forall lo hi : Time, (hi - lo < inject_Z W)%Q ->
          Z.of_nat (count_within lo hi (admitted times (fst (serve rh id L W times))))
          <= Z.max 0 L)
  /\ (forall (times : list Time) (now : Time),
        default [] (rh !! id) = [] ->
        StronglySorted Qle (times ++ [now]) ->
        let run := serve rh id L W times in
        fst (fst (is_allowed (snd run) id L W now))
        = (Z.of_nat (length (List.filter
                               (fun t => negb (Qleb t (now - inject_Z W)%Q))
                               (admitted times (fst run)))) <? L)).
Proof.
  split; [|split].
  - intros now. cbn zeta.
    set (pruned := popleft_while (now - inject_Z W)%Q (default [] (rh !! id))).
    destruct (is_allowed_verdict rh id L W now) as [Hv Hs].
    fold pruned in Hv, Hs. rewrite Hv, Hs.
    split; [intros Hsorted; apply popleft_while_filter; exact Hsorted|].
    split; [apply Z.ltb_lt|].
    split; [|split].
    + intros Hok. rewrite Hok, lookup_insert_eq. split; [reflexivity|].
      unfold is_allowed. cbn [fst snd remaining]. fold pruned. rewrite Hok.
      apply Z.ltb_lt in Hok. lia.
    + intros Hok. rewrite Hok, lookup_insert_eq. split; [reflexivity|].
      unfold is_allowed. cbn [fst snd retry_after]. fold pruned. rewrite Hok.
      split; [reflexivity|].
      intros HL. apply Z.ltb_ge in Hok.
      destruct pruned as [|oldest rest]; [cbn in Hok; lia|eauto].
    + unfold is_allowed. cbn [fst snd retry_after]. lia.
  - intros times Hempty Hsorted lo hi Hlen.
    destruct (serve_tracks L W id times rh
                (hd (0 # 1)%Q times) [])
      as [Hw _].
    + rewrite Hempty. apply tracks_nil.
    + exact Hsorted.
    + destruct Hsorted as [|t0 rest Hs Hall]; [constructor|].
      cbn [hd]. constructor; [lra|].
      revert Hall. apply List.Forall_impl. auto.
    + intros lo' hi' _. cbn. lia.
    + apply Hw. exact Hlen.
  - intros times now Hempty Hsorted. cbn zeta.
    apply StronglySorted_app in Hsorted.
    destruct Hsorted as (Hlast & Hs & _).
    assert (Hle : List.Forall (fun t => t <= now)%Q times).
    { apply List.Forall_forall. intros t Hin. apply Hlast; [|left].
      apply list_elem_of_In. exact Hin. }
    destruct (serve_tracks L W id times rh
                (hd now times) [])
      as [_ Ht].
    + rewrite Hempty. apply tracks_nil.
    + exact Hs.
    + destruct Hs as [|t0 rest Hs' Hall]; [constructor|].
      cbn [hd]. constructor; [lra|].
      revert Hall. apply List.Forall_impl. auto.
    + intros lo' hi' _. cbn. lia.
    + cbn zeta in Ht. specialize (Ht now).
      assert (Hb : (hd now times <= now)%Q).
      { destruct times as [|t0 rest]; cbn [hd]; [lra|]. inversion Hle; subst. assumption. }
      specialize (Ht Hb Hle). cbn [app] in Ht.
      destruct (tracks_step W now now _ _ true Ht) as [Hp _]; [lra|].
      rewrite (proj1 (is_allowed_verdict _ id L W now)), Hp. reflexivity.
Qed.

Lemma sliding_window_admission_witness :
  (let r := is_allowed {[ "u" := [0 # 1; 10 # 1]%Q ]} "u" 2 60 (30 # 1)%Q in
   fst (fst r) = false
   /\ snd r !! "u" = Some [0 # 1; 10 # 1]%Q
   /\ retry_after (snd (fst r)) = 30)
  /\ Z.of_nat (count_within (2 # 1)%Q (61 # 1)%Q
                 (admitted [0 # 1; 10 # 1; 20 # 1; 61 # 1]%Q
                    (fst (serve ∅ "u" 2 60 [0 # 1; 10 # 1; 20 # 1; 61 # 1]%Q))))
     <= Z.max 0 2
  /\ fst (fst (is_allowed (snd (serve ∅ "u" 2 60 [0 # 1; 10 # 1]%Q)) "u" 2 60 (30 # 1)%Q))
     = false.
Proof.
  split; [|split].
  - destruct (sliding_window_admission {[ "u" := [0 # 1; 10 # 1]%Q ]} "u" 2 60)
      as (HA & _ & _).
    destruct (HA (30 # 1)%Q) as (_ & _ & _ & Hdenied & _).
    destruct (Hdenied eq_refl) as (Hh & Hr & _).
    split; [reflexivity|]. split; [exact Hh | rewrite Hr; reflexivity].
  - apply (proj1 (proj2 (sliding_window_admission ∅ "u" 2 60))).
    + reflexivity.
    + sorted_times.
    + unfold Qlt; cbn; lia.
  - rewrite (proj2 (proj2 (sliding_window_admission ∅ "u" 2 60))
               [0 # 1; 10 # 1]%Q (30 # 1)%Q).
    + reflexivity.
    + reflexivity.
    + sorted_times.
Defined.

(** The two windows of one identifier use different keys. *)
Lemma minute_hour_keys_differ (id : string) : id +:+ ":minute" <> id +:+ ":hour".
Proof. intros H. apply (inj (String.app id)) in H. discriminate H. Qed.

Lemma check_rate_limits_unfold rh id limits t_minute t_hour :
  let m := is_allowed rh (id +:+ ":minute") (requests_per_minute limits) 60 t_minute in
  let h := is_allowed (snd m) (id +:+ ":hour") (requests_per_hour limits) 3600 t_hour in
  let info := if negb (fst (fst m)) then snd (fst m)
              else if negb (fst (fst h)) then snd (fst h) else snd (fst m) in
  let w := if negb (fst (fst m)) then "minute"
           else if negb (fst (fst h)) then "hour" else "minute" in
  _check_rate_limits rh id limits t_minute t_hour
  = ({| allowed := fst (fst m) && fst (fst h);
        r_limit := limit info; r_remaining := remaining info;
        r_reset := reset info; r_retry_after := retry_after info;
        r_window := w |}, snd h).
Proof.
  cbv zeta. unfold _check_rate_limits.
  destruct (is_allowed rh (id +:+ ":minute") (requests_per_minute limits) 60 t_minute)
    as [[okm im] rh1]. cbn [fst snd].
  destruct (is_allowed rh1 (id +:+ ":hour") (requests_per_hour limits) 3600 t_hour)
    as [[okh ih] rh2]. cbn [fst snd].
  destruct okm, okh; reflexivity.
Qed.



(** **** Claim C10.  Each window's deque is updated by its own verdict,
    whatever the overall verdict: a request that the hour window denies
    and the minute window allows is denied overall and still appended to
    the minute deque, and symmetrically a request that the minute window
    denies and the hour window allows is appended to the hour deque. *)
Theorem denied_request_recorded_in_other_window
    (rh : gmap string (list Time)) (id : string) (limits : Limits)
    (t_minute t_hour : Time) :
  let kM := id +:+ ":minute" in
  let kH := id +:+ ":hour" in
  let prunedM := popleft_while (t_minute - inject_Z 60)%Q (default [] (rh !! kM)) in
  let prunedH := popleft_while (t_hour - inject_Z 3600)%Q (default [] (rh !! kH)) in
  let okM := fst (fst (is_allowed rh kM (requests_per_minute limits) 60 t_minute)) in
  let okH := fst (fst (is_allowed rh kH (requests_per_hour limits) 3600 t_hour)) in
  let res := _check_rate_limits rh id limits t_minute t_hour in
  (okM = true -> okH = false ->
     allowed (fst res) = false
     /\ snd res !! kM = Some (prunedM ++ [t_minute])
     /\ snd res !! kH = Some prunedH)
  /\ (okM = false -> okH = true ->
      allowed (fst res) = false
      /\ snd res !! kH = Some (prunedH ++ [t_hour])
      /\ snd res !! kM = Some prunedM).
Proof.
  cbv zeta. rewrite check_rate_limits_unfold. cbn [fst snd allowed].
  pose proof (minute_hour_keys_differ id) as Hne.
  set (kM := id +:+ ":minute") in *. set (kH := id +:+ ":hour") in *.
  set (m := is_allowed rh kM (requests_per_minute limits) 60 t_minute).
  destruct (is_allowed_verdict rh kM (requests_per_minute limits) 60 t_minute)
    as [HvM HsM].
  destruct (is_allowed_verdict rh kH (requests_per_hour limits) 3600 t_hour)
    as [HvH _].
  destruct (is_allowed_verdict (snd m) kH (requests_per_hour limits) 3600 t_hour)
    as [HvH' HsH'].
  cbv zeta in HvM, HsM, HvH, HvH', HsH'. fold m in HvM, HsM.
  assert (HkH : snd m !! kH = rh !! kH).
  { rewrite HsM. apply lookup_insert_ne. exact Hne. }
  rewrite HkH in HvH', HsH'. rewrite <- HvH in HvH', HsH'.
  rewrite HsH', HvH'. clear HvH' HsH'.
  split; intros EM EH; rewrite EM, EH; cbn [andb]; (split; [reflexivity|]).
  - rewrite lookup_insert_eq, lookup_insert_ne, HsM, lookup_insert_eq
      by (intros E; apply Hne; symmetry; exact E).
    rewrite <- HvM, EM. split; reflexivity.
  - rewrite lookup_insert_eq, lookup_insert_ne, HsM, lookup_insert_eq
      by (intros E; apply Hne; symmetry; exact E).
    rewrite <- HvM, EM. split; reflexivity.
Qed.

Lemma denied_request_recorded_in_other_window_witness :
  let rh : gmap string (list Time) :=
    {[ "ip:h:minute" := [1 # 1]%Q; "ip:h:hour" := [1 # 1]%Q ]} in
  let res := _check_rate_limits rh "ip:h" (mkLimits 5 1) (2 # 1)%Q (2 # 1)%Q in
  allowed (fst res) = false
  /\ snd res !! "ip:h:minute" = Some [1 # 1; 2 # 1]%Q
  /\ snd res !! "ip:h:hour" = Some [1 # 1]%Q.
Proof.
  exact (proj1 (denied_request_recorded_in_other_window
                  {[ "ip:h:minute" := [1 # 1]%Q; "ip:h:hour" := [1 # 1]%Q ]}
                  "ip:h" (mkLimits 5 1) (2 # 1)%Q (2 # 1)%Q) eq_refl eq_refl).
Defined.

End RateLimitSpec.

Module MemoryCacheSpec.
Import MemoryCache.

Lemma find_key_app (k : string) (d1 d2 : OrderedDict) :
  List.find (fun p => bool_decide (fst p = k)) (d1 ++ d2)
  = match List.find (fun p => bool_decide (fst p = k)) d1 with
    | Some p => Some p
    | None => List.find (fun p => bool_decide (fst p = k)) d2
    end.
Proof.
  induction d1 as [|p d1 IH]; cbn; [reflexivity|].
  destruct (bool_decide (fst p = k)); [reflexivity|exact IH].
Qed.

Lemma od_get_del_eq (k : string) (d : OrderedDict) : od_get k (od_del k d) = None.
Proof.
  unfold od_get, od_del. induction d as [|[k0 e0] d IH]; cbn; [reflexivity|].
  destruct (bool_decide (k0 = k)) eqn:E; cbn; [exact IH|].
  rewrite E. exact IH.
Qed.

Lemma od_get_del_ne (k k' : string) (d : OrderedDict) :
  k <> k' -> od_get k' (od_del k d) = od_get k' d.
Proof.
  intros Hne. unfold od_get, od_del. induction d as [|[k0 e0] d IH]; cbn; [reflexivity|].
  destruct (bool_decide (k0 = k)) eqn:E; cbn.
  - apply bool_decide_eq_true in E. subst k0.
    rewrite bool_decide_eq_false_2 by exact Hne. exact IH.
  - destruct (bool_decide (k0 = k')); [reflexivity|exact IH].
Qed.

Lemma od_get_snoc (k : string) (e : CacheEntry) (d : OrderedDict) :
  od_get k d = None -> od_get k (d ++ [(k, e)]) = Some e.
Proof.
  unfold od_get. rewrite find_key_app.
  destruct (List.find _ d); cbn; [discriminate|]. intros _.
  rewrite bool_decide_eq_true_2 by reflexivity. reflexivity.
Qed.

Lemma od_get_setitem (k : string) (e : CacheEntry) (d : OrderedDict) :
  od_get k (od_setitem k e d) = Some e.
Proof.
  unfold od_setitem, od_contains.
  destruct (od_get k d) as [e0|] eqn:G.
  - unfold od_get in *. induction d as [|[k0 e1] d IH]; cbn in *; [discriminate|].
    destruct (bool_decide (k0 = k)) eqn:E; cbn.
    + rewrite bool_decide_eq_true_2 by reflexivity. reflexivity.
    + rewrite E. apply IH. exact G.
  - apply od_get_snoc. exact G.
Qed.

Lemma od_get_move_to_end (k : string) (d : OrderedDict) :
  od_get k (od_move_to_end k d) = od_get k d.
Proof.
  unfold od_move_to_end. destruct (od_get k d) as [e|] eqn:G; [|exact G].
  apply od_get_snoc, od_get_del_eq.
Qed.

Lemma py_int_whole_seconds (s : Z) : py_int (total_seconds (timedelta_of_seconds s)) = s.
Proof.
  unfold py_int, total_seconds, timedelta_of_seconds. cbn [Qnum Qden].
  apply Z.quot_mul. discriminate.
Qed.

Lemma Qgtb_true (a b : Q) : Qgtb a b = true <-> (b < a)%Q.
Proof. unfold Qgtb. rewrite negb_true_iff. apply Qleb_false. Qed.

Lemma Qgtb_false (a b : Q) : Qgtb a b = false <-> (a <= b)%Q.
Proof. unfold Qgtb. rewrite negb_false_iff. apply Qleb_true. Qed.

(** **** Claim C6.  [set_summary(K, V, ttl)] stores for [K] an entry
    with value [V], [created_at] the time of the call and
    [expires_at = created_at + ttl], [ttl] being the number of seconds
    handed to [CacheEntry] (the given whole number of seconds; see
    [ttl_seconds_of] for a missing, zero or fractional [ttl]).
    [get_summary(K)] on a store holding an entry [e] for [K] returns
    [e]'s value at any time at or before [expires_at e]; at any time
    strictly after it returns [None] and the entry is deleted. *)
Theorem ttl_expiry (svc : MemoryCacheService) (K : string) :
  (forall (V : SummaryResponse) (ttl : option timedelta) (now : Time),
      let e := CacheEntry__init__ V (ttl_seconds_of svc ttl) now in
      od_get K (_cache (snd (set_summary svc K V ttl now))) = Some e
      /\ value e = V
      /\ created_at e = now
      /\ expires_at e = (created_at e + inject_Z (ttl_seconds_of svc ttl))%Q)
  /\ (forall s : Z, s <> 0 -> ttl_seconds_of svc (Some (timedelta_of_seconds s)) = s)
  /\ (forall (e : CacheEntry) (t t' : Time),
        od_get K (_cache svc) = Some e -> (t <= expires_at e)%Q ->
        fst (get_summary svc K t t') = Some (value e))
  /\ (forall (e : CacheEntry) (t t' : Time),
        od_get K (_cache svc) = Some e -> (expires_at e < t)%Q ->
        fst (get_summary svc K t t') = None
        /\ od_get K (_cache (snd (get_summary svc K t t'))) = None).
Proof.
  split; [|split; [|split]].
  - intros V ttl now. cbn zeta. split; [|repeat split].
    unfold set_summary. cbn [snd _cache with_cache].
    rewrite od_get_move_to_end. apply od_get_setitem.
  - intros s Hs. unfold ttl_seconds_of.
    destruct (timedelta_of_seconds s =? 0) eqn:E.
    + apply Z.eqb_eq in E. unfold timedelta_of_seconds in E. lia.
    + apply py_int_whole_seconds.
  - intros e t t' Hg Hle. unfold get_summary. rewrite Hg.
    unfold is_expired. apply Qgtb_false in Hle. rewrite Hle. reflexivity.
  - intros e t t' Hg Hlt. unfold get_summary. rewrite Hg.
    unfold is_expired. apply Qgtb_true in Hlt. rewrite Hlt.
    cbn [fst snd _cache with_cache]. split; [reflexivity|apply od_get_del_eq].
Qed.

Definition sample_response : SummaryResponse :=
  mkResponse "A short summary." (mkUsage 10 4 14) "textrank" (3 # 2)%Q
             FALLBACK_TEXTRANK None false.

(** Scenario B of the specification: [set(K, V, ttl=2s)] at time 100,
    then [get(K)] one second and three seconds later. *)
Lemma ttl_expiry_witness :
  let svc0 := MemoryCacheService__init__ 1000 3600 in
  let svc1 := snd (set_summary svc0 "K" sample_response
                     (Some (timedelta_of_seconds 2)) (100 # 1)%Q) in
  (exists e, od_get "K" (_cache svc1) = Some e
             /\ expires_at e = (created_at e + inject_Z 2)%Q)
  /\ fst (get_summary svc1 "K" (101 # 1)%Q (101 # 1)%Q) = Some sample_response
  /\ fst (get_summary svc1 "K" (103 # 1)%Q (103 # 1)%Q) = None
  /\ od_get "K" (_cache (snd (get_summary svc1 "K" (103 # 1)%Q (103 # 1)%Q))) = None.
Proof.
  cbv zeta.
  set (svc0 := MemoryCacheService__init__ 1000 3600).
  destruct (ttl_expiry svc0 "K") as (Hset & Hs & _ & _).
  destruct (Hset sample_response (Some (timedelta_of_seconds 2)) (100 # 1)%Q)
    as (Hget & _ & _ & Hexp).
  rewrite (Hs 2) in Hget, Hexp by discriminate.
  set (svc1 := snd (set_summary svc0 "K" sample_response
                      (Some (timedelta_of_seconds 2)) (100 # 1)%Q)) in *.
  destruct (ttl_expiry svc1 "K") as (_ & _ & Hlive & Hdead).
  split; [eexists; split; [exact Hget|exact Hexp]|].
  split; [|].
  - apply (Hlive _ (101 # 1)%Q (101 # 1)%Q Hget). unfold Qle; cbn; lia.
  - apply (Hdead _ (103 # 1)%Q (103 # 1)%Q Hget). unfold Qlt; cbn; lia.
Defined.

(** *** Capacity and eviction order *)

Definition keys (d : OrderedDict) : list string := List.map fst d.

(** The dictionary order agrees with the time of last use. *)
Definition lru_sorted (d : OrderedDict) : Prop :=
  StronglySorted (fun p q => last_accessed (snd p) <= last_accessed (snd q))%Q d.

Definition used_by (now : Time) (d : OrderedDict) : Prop :=
  List.Forall (fun p => last_accessed (snd p) <= now)%Q d.

Lemma od_get_None_iff (k : string) (d : OrderedDict) :
  od_get k d = None <-> ~ List.In k (keys d).
Proof.
  unfold od_get, keys. induction d as [|[k0 e0] d IH]; cbn.
  - split; [intros _ []|reflexivity].
  - destruct (bool_decide (k0 = k)) eqn:E; cbn.
    + apply bool_decide_eq_true in E. split; [discriminate|]. intros H. elim H. left. exact E.
    + apply bool_decide_eq_false in E. rewrite IH. tauto.
Qed.

Lemma od_del_absent (k : string) (d : OrderedDict) :
  od_get k d = None -> od_del k d = d.
Proof.
  rewrite od_get_None_iff. unfold od_del, keys.
  induction d as [|[k0 e0] d IH]; cbn; [reflexivity|]. intros Hn.
  rewrite bool_decide_eq_false_2 by tauto. cbn. f_equal. apply IH. tauto.
Qed.

Lemma od_del_In (k : string) (p : string * CacheEntry) (d : OrderedDict) :
  List.In p (od_del k d) -> List.In p d /\ fst p <> k.
Proof.
  unfold od_del. rewrite List.filter_In, negb_true_iff, bool_decide_eq_false. tauto.
Qed.

Lemma od_del_length_le (k : string) (d : OrderedDict) :
  (length (od_del k d) <= length d)%nat.
Proof. apply List.filter_length_le. Qed.

Lemma keys_od_del_NoDup (k : string) (d : OrderedDict) :
  List.NoDup (keys d) -> List.NoDup (keys (od_del k d)).
Proof.
  unfold keys, od_del. induction d as [|[k0 e0] d IH]; cbn; [auto|].
  intros Hnd. inversion Hnd as [|? ? Hnin Hnd']; subst.
  destruct (bool_decide (k0 = k)); cbn; [auto|].
  constructor; [|auto]. intros Hin. apply Hnin.
  apply List.in_map_iff in Hin. destruct Hin as (p & Hp & Hin).
  apply List.filter_In in Hin. apply List.in_map_iff. exists p. tauto.
Qed.

Lemma od_del_length_present (k : string) (e : CacheEntry) (d : OrderedDict) :
  List.NoDup (keys d) -> od_get k d = Some e ->
  S (length (od_del k d)) = length d.
Proof.
  unfold keys, od_get, od_del. induction d as [|[k0 e0] d IH]; cbn; [discriminate|].
  intros Hnd Hg. inversion Hnd as [|? ? Hnin Hnd']; subst.
  destruct (bool_decide (k0 = k)) eqn:E; cbn.
  - apply bool_decide_eq_true in E. subst k0. f_equal.
    change (length (od_del k d) = length d). f_equal.
    apply od_del_absent, od_get_None_iff. exact Hnin.
  - f_equal. apply IH; assumption.
Qed.

Lemma od_del_setitem (k : string) (e : CacheEntry) (d : OrderedDict) :
  od_del k (od_setitem k e d) = od_del k d.
Proof.
  unfold od_setitem. destruct (od_contains k d).
  - unfold od_del. induction d as [|[k0 e0] d IH]; cbn; [reflexivity|].
    destruct (bool_decide (k0 = k)) eqn:E; cbn.
    + rewrite bool_decide_eq_true_2 by reflexivity. cbn. exact IH.
    + rewrite E. cbn. f_equal. exact IH.
  - unfold od_del. rewrite List.filter_app. cbn.
    rewrite bool_decide_eq_true_2 by reflexivity. cbn. apply app_nil_r.
Qed.

(** The dictionary after [d[k] = e; d.move_to_end(k)]. *)
Lemma setitem_move_to_end (k : string) (e : CacheEntry) (d : OrderedDict) :
  od_move_to_end k (od_setitem k e d) = od_del k d ++ [(k, e)].
Proof.
  unfold od_move_to_end. rewrite od_get_setitem, od_del_setitem. reflexivity.
Qed.

(** The dictionary after [d.move_to_end(k)] and the in-place update of
    the entry of [k]. *)
Lemma move_to_end_setitem (k : string) (e e' : CacheEntry) (d : OrderedDict) :
  od_get k d = Some e ->
  od_setitem k e' (od_move_to_end k d) = od_del k d ++ [(k, e')].
Proof.
  intros Hg. unfold od_move_to_end. rewrite Hg.
  unfold od_setitem, od_contains.
  rewrite (od_get_snoc k e _ (od_get_del_eq k d)).
  rewrite List.map_app. cbn. rewrite bool_decide_eq_true_2 by reflexivity.
  f_equal. rewrite <- (List.map_id (od_del k d)) at 2.
  apply List.map_ext_in. intros p Hin. apply od_del_In in Hin.
  rewrite bool_decide_eq_false_2 by tauto. reflexivity.
Qed.

Lemma set_summary_cache svc k v ttl now :
  let d1 := if negb (od_contains k (_cache svc))
               && (Z.of_nat (length (_cache svc)) >=? max_size svc)
            then _cache (_evict_lru svc) else _cache svc in
  _cache (snd (set_summary svc k v ttl now))
  = od_del k d1 ++ [(k, CacheEntry__init__ v (ttl_seconds_of svc ttl) now)]
  /\ max_size (snd (set_summary svc k v ttl now)) = max_size svc
  /\ default_ttl (snd (set_summary svc k v ttl now)) = default_ttl svc.
Proof.
  cbv zeta. unfold set_summary. cbn [snd _cache with_cache max_size default_ttl].
  rewrite setitem_move_to_end.
  destruct (negb (od_contains k (_cache svc))
            && (Z.of_nat (length (_cache svc)) >=? max_size svc)).
  - unfold _evict_lru. destruct (_cache svc) as [|[k0 e0] d]; auto.
  - auto.
Qed.

Lemma get_summary_cache svc k now now_access :
  _cache (snd (get_summary svc k now now_access))
  = match od_get k (_cache svc) with
    | None => _cache svc
    | Some e =>
        if is_expired e now then od_del k (_cache svc)
        else od_del k (_cache svc) ++ [(k, snd (access e now_access))]
    end
  /\ max_size (snd (get_summary svc k now now_access)) = max_size svc
  /\ default_ttl (snd (get_summary svc k now now_access)) = default_ttl svc.
Proof.
  unfold get_summary. destruct (od_get k (_cache svc)) as [e|] eqn:G; [|auto].
  destruct (is_expired e now); [auto|].
  cbn [access snd _cache with_cache max_size default_ttl].
  rewrite (move_to_end_setitem k e _ _ G). auto.
Qed.

Lemma evict_lru_cache svc :
  _cache (_evict_lru svc)
  = match _cache svc with
    | [] => []
    | (k0, _) :: _ => od_del k0 (_cache svc)
    end
  /\ max_size (_evict_lru svc) = max_size svc.
Proof.
  unfold _evict_lru. destruct (_cache svc) as [|[k0 e0] d] eqn:E; cbn; auto.
Qed.

Lemma od_del_head (k0 : string) (e0 : CacheEntry) (rest : OrderedDict) :
  List.NoDup (keys ((k0, e0) :: rest)) -> od_del k0 ((k0, e0) :: rest) = rest.
Proof.
  intros Hnd. inversion Hnd as [|? ? Hnin _]; subst.
  unfold od_del. cbn. rewrite bool_decide_eq_true_2 by reflexivity. cbn.
  apply od_del_absent, od_get_None_iff. exact Hnin.
Qed.

Lemma NoDup_snoc (l : list string) (k : string) :
  List.NoDup l -> ~ List.In k l -> List.NoDup (l ++ [k]).
Proof.
  induction 1 as [|x l Hx Hnd IH]; cbn; intros Hk.
  - constructor; [intros []|constructor].
  - constructor.
    + rewrite List.in_app_iff. cbn. intros [H|[H|[]]]; [tauto|]. apply Hk. left. symmetry. exact H.
    + apply IH. tauto.
Qed.

Lemma keys_snoc_NoDup (k : string) (e : CacheEntry) (d : OrderedDict) :
  List.NoDup (keys d) -> List.NoDup (keys (od_del k d ++ [(k, e)])).
Proof.
  intros Hnd. unfold keys. rewrite List.map_app. cbn.
  apply NoDup_snoc; [apply keys_od_del_NoDup; exact Hnd|].
  apply od_get_None_iff, od_get_del_eq.
Qed.

(** The store is a dictionary (no repeated key) within its capacity. *)
Definition within_capacity (C : Z) (d : OrderedDict) : Prop :=
  List.NoDup (keys d) /\ Z.of_nat (length d) <= C.

Lemma step_within_capacity (C : Z) (svc : MemoryCacheService) (op : Op) :
  1 <= C -> max_size svc = C -> within_capacity C (_cache svc) ->
  within_capacity C (_cache (step svc op)) /\ max_size (step svc op) = C.
Proof.
  intros HC Hmax [Hnd Hlen]. destruct op as [k now now_access | k v ttl now]; cbn [step].
  - destruct (get_summary_cache svc k now now_access) as (Hc & Hm & _).
    rewrite Hc, Hm. split; [|exact Hmax].
    destruct (od_get k (_cache svc)) as [e|] eqn:G; [|split; assumption].
    destruct (is_expired e now).
    + split; [apply keys_od_del_NoDup; exact Hnd|].
      pose proof (od_del_length_le k (_cache svc)). lia.
    + split; [apply keys_snoc_NoDup; exact Hnd|].
      rewrite length_app. cbn [length].
      pose proof (od_del_length_present k e _ Hnd G). lia.
  - destruct (set_summary_cache svc k v ttl now) as (Hc & Hm & _).
    cbv zeta in Hc. rewrite Hc, Hm. clear Hc Hm. split; [|exact Hmax].
    unfold od_contains.
    destruct (od_get k (_cache svc)) as [e|] eqn:G; cbn [negb andb].
    + split; [apply keys_snoc_NoDup; exact Hnd|].
      rewrite length_app. cbn [length].
      pose proof (od_del_length_present k e _ Hnd G). lia.
    + destruct (Z.of_nat (length (_cache svc)) >=? max_size svc) eqn:Efull.
      * rewrite Z.geb_leb in Efull. apply Z.leb_le in Efull.
        rewrite (proj1 (evict_lru_cache svc)).
        destruct (_cache svc) as [|[k0 e0] rest] eqn:Ed; [cbn in Efull; lia|].
        rewrite (od_del_head k0 e0 rest Hnd).
        assert (Hnd' : List.NoDup (keys rest)) by (inversion Hnd; assumption).
        split; [apply keys_snoc_NoDup; exact Hnd'|].
        rewrite length_app. cbn [length] in *.
        pose proof (od_del_length_le k rest). lia.
      * rewrite Z.geb_leb in Efull. apply Z.leb_gt in Efull.
        split; [apply keys_snoc_NoDup; exact Hnd|].
        rewrite length_app. cbn [length].
        pose proof (od_del_length_le k (_cache svc)). lia.
Qed.

Lemma run_within_capacity (C : Z) (ops : list Op) :
  1 <= C ->
  forall svc : MemoryCacheService,
    max_size svc = C -> within_capacity C (_cache svc) ->
    within_capacity C (_cache (run svc ops)) /\ max_size (run svc ops) = C.
Proof.
  intros HC. unfold run. induction ops as [|op ops IH]; intros svc Hm Hw; cbn [fold_left].
  - split; assumption.
  - destruct (step_within_capacity C svc op HC Hm Hw) as [Hw' Hm'].
    apply IH; assumption.
Qed.

Lemma od_del_lru_sorted (k : string) (d : OrderedDict) :
  lru_sorted d -> lru_sorted (od_del k d).
Proof.
  unfold lru_sorted, od_del. induction 1 as [|p d Hs IH Hall]; cbn; [constructor|].
  destruct (negb (bool_decide (fst p = k))); [|exact IH].
  constructor; [exact IH|].
  rewrite List.Forall_forall in *. intros q Hq.
  apply List.filter_In in Hq. apply Hall, Hq.
Qed.

Lemma od_del_used_by (k : string) (now : Time) (d : OrderedDict) :
  used_by now d -> used_by now (od_del k d).
Proof.
  unfold used_by, od_del. rewrite !List.Forall_forall. intros H q Hq.
  apply List.filter_In in Hq. apply H, Hq.
Qed.

Lemma used_by_mono (a b : Time) (d : OrderedDict) :
  (a <= b)%Q -> used_by a d -> used_by b d.
Proof.
  intros Hab. apply List.Forall_impl. intros p Hp. lra.
Qed.

Lemma lru_sorted_snoc (d : OrderedDict) (k : string) (e : CacheEntry) :
  lru_sorted d -> used_by (last_accessed e) d -> lru_sorted (d ++ [(k, e)]).
Proof.
  unfold lru_sorted, used_by. induction 1 as [|p d Hs IH Hall]; intros Hb; cbn.
  - constructor; constructor.
  - inversion Hb; subst. constructor; [apply IH; assumption|].
    apply List.Forall_app. split; [assumption|]. constructor; [assumption|constructor].
Qed.

(** The last clock reading of a call. *)
Definition op_end (op : Op) : Time :=
  match op with OpGet _ _ t => t | OpSet _ _ _ t => t end.

Lemma step_lru_sorted (svc : MemoryCacheService) (op : Op) (bound : Time) :
  lru_sorted (_cache svc) -> used_by bound (_cache svc) ->
  List.Forall (fun t => bound <= t)%Q (clock_of op) ->
  lru_sorted (_cache (step svc op)) /\ used_by (op_end op) (_cache (step svc op)).
Proof.
  intros Hs Hu Hclk. destruct op as [k now now_access | k v ttl now]; cbn [step op_end].
  - cbn [clock_of] in Hclk. inversion Hclk as [|? ? _ Hclk']; subst.
    inversion Hclk' as [|? ? Hb _]; subst.
    pose proof (used_by_mono _ _ _ Hb Hu) as Hu'.
    rewrite (proj1 (get_summary_cache svc k now now_access)).
    destruct (od_get k (_cache svc)) as [e|]; [|split; assumption].
    destruct (is_expired e now).
    + split; [apply od_del_lru_sorted; exact Hs | apply od_del_used_by; exact Hu'].
    + split.
      * apply lru_sorted_snoc; [apply od_del_lru_sorted; exact Hs|].
        apply od_del_used_by. exact Hu'.
      * apply List.Forall_app. split; [apply od_del_used_by; exact Hu'|].
        constructor; [cbn; lra|constructor].
  - cbn [clock_of] in Hclk. inversion Hclk as [|? ? Hb _]; subst.
    pose proof (used_by_mono _ _ _ Hb Hu) as Hu'.
    destruct (set_summary_cache svc k v ttl now) as (Hc & _). cbv zeta in Hc.
    rewrite Hc. clear Hc.
    set (d1 := if negb (od_contains k (_cache svc))
                  && (Z.of_nat (length (_cache svc)) >=? max_size svc)
               then _cache (_evict_lru svc) else _cache svc).
    assert (H1 : lru_sorted d1 /\ used_by now d1).
    { subst d1. destruct (negb _ && _); [|split; assumption].
      rewrite (proj1 (evict_lru_cache svc)).
      destruct (_cache svc) as [|[k0 e0] rest]; [split; assumption|].
      split; [apply od_del_lru_sorted; exact Hs | apply od_del_used_by; exact Hu']. }
    destruct H1 as [Hs1 Hu1]. split.
    + apply lru_sorted_snoc; [apply od_del_lru_sorted; exact Hs1|].
      apply od_del_used_by. exact Hu1.
    + apply List.Forall_app. split; [apply od_del_used_by; exact Hu1|].
      constructor; [cbn; lra|constructor].
Qed.

Lemma op_end_in_clock (op : Op) : List.In (op_end op) (clock_of op).
Proof. destruct op; cbn; auto. Qed.

Lemma run_lru_sorted (ops : list Op) :
  forall (svc : MemoryCacheService) (bound : Time),
    lru_sorted (_cache svc) -> used_by bound (_cache svc) ->
    StronglySorted Qle (clock ops) ->
    List.Forall (fun t => bound <= t)%Q (clock ops) ->
    lru_sorted (_cache (run svc ops)).
Proof.
  unfold run, clock. induction ops as [|op ops IH]; intros svc bound Hs Hu Hclk Hb;
    cbn [fold_left List.map List.concat] in *; [exact Hs|].
  apply StronglySorted_app in Hclk. destruct Hclk as (Hcross & _ & Hrest).
  apply List.Forall_app in Hb. destruct Hb as [Hb1 Hb2].
  destruct (step_lru_sorted svc op bound Hs Hu Hb1) as [Hs' Hu'].
  apply (IH (step svc op) (op_end op) Hs' Hu' Hrest).
  apply List.Forall_forall. intros t Ht. apply Hcross.
  - apply list_elem_of_In, op_end_in_clock.
  - apply list_elem_of_In. exact Ht.
Qed.

(** **** Claim C7.  Let [svc] be the state of a service created with
    capacity [C >= 1] after any sequence of [get_summary]/[set_summary]
    calls.  (a) The store holds at most [C] entries.  (b) When the calls
    read a non-decreasing clock, the store is ordered by time of last
    use, and a [set_summary] of a key that is not stored, on a full
    store, removes exactly the first entry, whose [last_accessed] is at
    or before that of every other entry, and appends the new entry.
    (c) [set_summary], and [get_summary] on a stored key at or before
    its expiry, leave that key last in the order (most recently used). *)
Theorem lru_capacity_and_eviction (C default_ttl0 : Z) (ops : list Op) :
  1 <= C ->
  let svc := run (MemoryCacheService__init__ C default_ttl0) ops in
  Z.of_nat (length (_cache svc)) <= C
  /\ List.NoDup (List.map fst (_cache svc))
  /\ (StronglySorted Qle (clock ops) ->
      lru_sorted (_cache svc)
      /\ forall (K : string) (V : SummaryResponse) (ttl : option timedelta) (now : Time),
           od_get K (_cache svc) = None ->
           Z.of_nat (length (_cache svc)) = C ->
           exists k0 e0 rest,
             _cache svc = (k0, e0) :: rest
             /\ _cache (snd (set_summary svc K V ttl now))
                = rest ++ [(K, CacheEntry__init__ V (ttl_seconds_of svc ttl) now)]
             /\ List.Forall
                  (fun p => last_accessed e0 <= last_accessed (snd p))%Q rest)
  /\ (forall (K : string) (V : SummaryResponse) (ttl : option timedelta) (now : Time),
        last (_cache (snd (set_summary svc K V ttl now)))
        = Some (K, CacheEntry__init__ V (ttl_seconds_of svc ttl) now))
  /\ (forall (K : string) (e : CacheEntry) (t t' : Time),
        od_get K (_cache svc) = Some e -> (t <= expires_at e)%Q ->
        last (_cache (snd (get_summary svc K t t')))
        = Some (K, snd (access e t'))).
Proof.
  intros HC. cbv zeta.
  set (svc0 := MemoryCacheService__init__ C default_ttl0).
  destruct (run_within_capacity C ops HC svc0) as [[Hnd Hlen] Hmax].
  { reflexivity. }
  { split; [constructor|cbn; lia]. }
  set (svc := run svc0 ops) in *.
  split; [exact Hlen|]. split; [exact Hnd|]. split; [|split].
  - intros Hclk.
    assert (Hs : lru_sorted (_cache svc)).
    { apply (run_lru_sorted ops svc0 (hd (0 # 1)%Q (clock ops))).
      - constructor.
      - constructor.
      - exact Hclk.
      - destruct Hclk as [|t0 rest Hs Hall]; [constructor|].
        cbn [hd]. constructor; [lra|exact Hall]. }
    split; [exact Hs|].
    intros K V ttl now Habsent Hfull.
    destruct (_cache svc) as [|[k0 e0] rest] eqn:Ed; [cbn in Hfull; lia|].
    exists k0, e0, rest. split; [reflexivity|]. split.
    + destruct (set_summary_cache svc K V ttl now) as (Hc & _). cbv zeta in Hc.
      rewrite Hc. unfold od_contains. rewrite Ed, Habsent. cbn [negb andb].
      rewrite Hmax, Hfull.
      replace (C >=? C) with true by (symmetry; rewrite Z.geb_leb; apply Z.leb_refl).
      rewrite (proj1 (evict_lru_cache svc)), Ed, (od_del_head k0 e0 rest Hnd).
      f_equal. apply od_del_absent.
      apply od_get_None_iff. apply od_get_None_iff in Habsent.
      intros Hin. apply Habsent. right. exact Hin.
    + apply StronglySorted_inv in Hs. exact (proj2 Hs).
  - intros K V ttl now.
    destruct (set_summary_cache svc K V ttl now) as (Hc & _). cbv zeta in Hc.
    rewrite Hc. apply last_snoc.
  - intros K e t t' Hg Hle.
    rewrite (proj1 (get_summary_cache svc K t t')), Hg.
    unfold is_expired. apply Qgtb_false in Hle. rewrite Hle. apply last_snoc.
Qed.

(** Capacity 2: store [a], store [b], read [a], then store [c]: the
    entry of [b] is the one evicted. *)
Lemma lru_capacity_and_eviction_witness :
  let ops := [OpSet "a" sample_response None (1 # 1)%Q;
              OpSet "b" sample_response None (2 # 1)%Q;
              OpGet "a" (3 # 1)%Q (3 # 1)%Q] in
  let svc := run (MemoryCacheService__init__ 2 3600) ops in
  Z.of_nat (length (_cache svc)) <= 2
  /\ List.map fst (_cache svc) = ["b"; "a"]
  /\ exists k0 e0 rest,
       _cache svc = (k0, e0) :: rest
       /\ _cache (snd (set_summary svc "c" sample_response None (4 # 1)%Q))
          = rest ++ [("c", CacheEntry__init__ sample_response 3600 (4 # 1)%Q)]
       /\ List.Forall (fun p => last_accessed e0 <= last_accessed (snd p))%Q rest.
Proof.
  cbv zeta.
  set (ops := [OpSet "a" sample_response None (1 # 1)%Q;
               OpSet "b" sample_response None (2 # 1)%Q;
               OpGet "a" (3 # 1)%Q (3 # 1)%Q]).
  destruct (lru_capacity_and_eviction 2 3600 ops) as (Hlen & _ & Hlru & _); [lia|].
  split; [exact Hlen|]. split; [reflexivity|].
  destruct Hlru as [_ Hevict].
  { subst ops. cbn. sorted_times. }
  apply (Hevict "c" sample_response None (4 # 1)%Q); reflexivity.
Defined.

End MemoryCacheSpec.

Module CacheKeySpec.
Import CacheKey.

(** **** Claim C8.  [get_cache_key] reads only [text], [lang],
    [max_tokens] and [tone]: two requests that agree on these four
    fields get the same key, whatever their [user_id], [request_id] and
    [metadata]. *)
Theorem cache_key_ignores_requester
    (json_string sha256_hexdigest : string -> string) (r1 r2 : SummaryRequest) :
  text r1 = text r2 -> lang r1 = lang r2 ->
  max_tokens r1 = max_tokens r2 -> tone r1 = tone r2 ->
  get_cache_key json_string sha256_hexdigest r1
  = get_cache_key json_string sha256_hexdigest r2.
Proof.
  intros Ht Hl Hm Hn. unfold get_cache_key. rewrite Ht, Hl, Hm, Hn. reflexivity.
Qed.

Definition alice_request : SummaryRequest :=
  mkRequest "The quick brown fox jumps over the lazy dog." ENGLISH 100 NEUTRAL
            (Some "alice") (Some "req-1") [("tier", "premium")].

Definition bob_request : SummaryRequest :=
  mkRequest "The quick brown fox jumps over the lazy dog." ENGLISH 100 NEUTRAL
            (Some "bob") None [].

Lemma cache_key_ignores_requester_witness :
  user_id alice_request <> user_id bob_request
  /\ get_cache_key (fun s => s) (fun s => s) alice_request
     = get_cache_key (fun s => s) (fun s => s) bob_request.
Proof.
  split; [discriminate|].
  apply (cache_key_ignores_requester (fun s => s) (fun s => s) alice_request bob_request);
    reflexivity.
Defined.

End CacheKeySpec.

Module TextRankSpec.
Import TextRank.

Lemma select_in_range (sentences : list string) (idx : list nat) :
  List.Forall (fun i => (i < length sentences)%nat) idx ->
  select sentences idx = Some (List.map (fun i => nth i sentences "") idx).
Proof.
  induction 1 as [|i idx Hi _ IH]; cbn; [reflexivity|].
  rewrite IH. destruct (nth_error sentences i) as [x|] eqn:E.
  - rewrite (List.nth_error_nth _ _ _ E). reflexivity.
  - apply List.nth_error_None in E. lia.
Qed.

Lemma sorted_nodup_increasing (l : list nat) :
  StronglySorted Nat.le l -> List.NoDup l -> StronglySorted Nat.lt l.
Proof.
  induction 1 as [|x l Hs IH Hall]; intros Hnd; [constructor|].
  inversion Hnd as [|? ? Hnin Hnd']; subst.
  constructor; [apply IH; exact Hnd'|].
  rewrite List.Forall_forall in *. intros y Hy.
  specialize (Hall y Hy). assert (x <> y) by (intros ->; contradiction).
  unfold Nat.lt. lia.
Qed.

Lemma sorted_rev {A} (R : A -> A -> Prop) (l : list A) :
  StronglySorted R l -> StronglySorted (fun x y => R y x) (rev l).
Proof.
  induction 1 as [|x l Hs IH Hall]; cbn; [constructor|].
  apply StronglySorted_app. split; [|split].
  - intros a b Ha Hb. apply list_elem_of_singleton in Hb. subst b.
    rewrite List.Forall_forall in Hall. apply Hall.
    apply list_elem_of_In in Ha. apply List.in_rev. exact Ha.
  - exact IH.
  - constructor; constructor.
Qed.

Section WithLibraries.

Variable sent_tokenize : string -> list string.
Variable rank_scores : list string -> Result (list Q).
Variable argsort : list Q -> list nat.

(** The selected indices, for [0 <= num < n]: the first [num] entries of
    the reversed [argsort], sorted. *)
Lemma chosen_indices (scores : list Q) (n : nat) (num : Z) :
  0 <= num < Z.of_nat n ->
  Permutation (argsort scores) (seq 0 n) ->
  StronglySorted (fun i j => nth i scores (0 # 1) <= nth j scores (0 # 1))%Q
                 (argsort scores) ->
  let idx := sorted (py_slice_to num (rev (argsort scores))) in
  length idx = Z.to_nat num
  /\ StronglySorted Nat.lt idx
  /\ List.Forall (fun i => (i < n)%nat) idx
  /\ (forall i j : nat, List.In i idx -> (j < n)%nat -> ~ List.In j idx ->
        (nth j scores (0 # 1) <= nth i scores (0 # 1))%Q).
Proof.
  intros Hnum Hperm Hsorted. cbv zeta.
  unfold sorted, py_slice_to.
  replace (0 <=? num) with true by (symmetry; apply Z.leb_le; lia).
  set (l := rev (argsort scores)). set (k := Z.to_nat num).
  assert (Hlen : length l = n).
  { subst l. rewrite length_rev, (Permutation_length Hperm). apply length_seq. }
  assert (Hpl : Permutation l (seq 0 n)).
  { subst l. rewrite <- Hperm. symmetry. apply Permutation_rev. }
  assert (Hnd : List.NoDup l).
  { apply (Permutation_NoDup (Permutation_sym Hpl)), List.seq_NoDup. }
  assert (Hsplit : l = firstn k l ++ skipn k l) by (symmetry; apply List.firstn_skipn).
  assert (Hndk : List.NoDup (firstn k l)).
  { rewrite Hsplit in Hnd. apply List.NoDup_app_remove_r in Hnd. exact Hnd. }
  pose proof (merge_sort_Permutation Nat.le (firstn k l)) as Hpm.
  split; [|split; [|split]].
  - rewrite (Permutation_length Hpm), length_firstn. lia.
  - apply sorted_nodup_increasing.
    + apply (StronglySorted_merge_sort Nat.le).
    + apply (Permutation_NoDup (Permutation_sym Hpm)). exact Hndk.
  - apply List.Forall_forall. intros i Hi.
    apply (Permutation_in _ Hpm) in Hi.
    assert (Hil : List.In i l) by (rewrite Hsplit; apply List.in_or_app; left; exact Hi).
    apply (Permutation_in _ Hpl) in Hil. apply List.in_seq in Hil. lia.
  - intros i j Hi Hj Hnj.
    apply (Permutation_in _ Hpm) in Hi.
    assert (Hjl : List.In j l).
    { apply (Permutation_in _ (Permutation_sym Hpl)), List.in_seq. lia. }
    rewrite Hsplit in Hjl. apply List.in_app_or in Hjl. destruct Hjl as [Hjf|Hjs].
    { elim Hnj. apply (Permutation_in _ (Permutation_sym Hpm)). exact Hjf. }
    pose proof (sorted_rev _ _ Hsorted) as Hdesc. fold l in Hdesc.
    rewrite Hsplit in Hdesc. apply StronglySorted_app in Hdesc.
    destruct Hdesc as (Hcross & _ & _).
    apply (Hcross i j); apply list_elem_of_In; assumption.
Qed.

(** **** Claim C9.  The sentence budget of a request is
    [min(10, max(1, min(max_tokens // 20, total_sentences // 3)))].
    [extract_sentences] returns every sentence when there are at most
    [num_sentences] of them; otherwise, when the scoring succeeds, it
    returns [num_sentences] sentences, taken at strictly increasing
    positions of the input, none of which scores below a sentence that
    was left out. *)
Theorem textrank_budget_and_order (request : SummaryRequest) :
  _calculate_num_sentences sent_tokenize request
  = Z.min 10 (Z.max 1 (Z.min (max_tokens request / 20)
                             (Z.of_nat (length (sent_tokenize (text request))) / 3)))
  /\ (forall (txt : string) (num : Z),
        Z.of_nat (length (sent_tokenize txt)) <= num ->
        extract_sentences sent_tokenize rank_scores argsort txt num
        = Return (sent_tokenize txt))
  /\ (forall (txt : string) (num : Z) (scores : list Q),
        let sentences := sent_tokenize txt in
        0 <= num < Z.of_nat (length sentences) ->
        rank_scores sentences = Return scores ->
        Permutation (argsort scores) (seq 0 (length sentences)) ->
        StronglySorted (fun i j => nth i scores (0 # 1) <= nth j scores (0 # 1))%Q
                       (argsort scores) ->
        exists idx : list nat,
          extract_sentences sent_tokenize rank_scores argsort txt num
          = Return (List.map (fun i => nth i sentences "") idx)
          /\ length idx = Z.to_nat num
          /\ StronglySorted Nat.lt idx
          /\ List.Forall (fun i => (i < length sentences)%nat) idx
          /\ (forall i j : nat,
                List.In i idx -> (j < length sentences)%nat -> ~ List.In j idx ->
                (nth j scores (0 # 1) <= nth i scores (0 # 1))%Q)).
Proof.
  split; [|split].
  - unfold _calculate_num_sentences.
    set (a := max_tokens request / 20).
    set (b := Z.of_nat (length (sent_tokenize (text request))) / 3). lia.
  - intros txt num Hle. unfold extract_sentences.
    replace (Z.of_nat (length (sent_tokenize txt)) <=? num) with true
      by (symmetry; apply Z.leb_le; exact Hle).
    reflexivity.
  - intros txt num scores. cbv zeta. intros Hnum Hrank Hperm Hsorted.
    destruct (chosen_indices scores (length (sent_tokenize txt)) num Hnum Hperm Hsorted)
      as (Hlen & Hinc & Hrange & Htop).
    exists (sorted (py_slice_to num (rev (argsort scores)))).
    split; [|repeat split; assumption].
    unfold extract_sentences.
    replace (Z.of_nat (length (sent_tokenize txt)) <=? num) with false
      by (symmetry; apply Z.leb_gt; lia).
    rewrite Hrank, (select_in_range _ _ Hrange). reflexivity.
Qed.

End WithLibraries.

(** Four sentences with scores 0.3, 0.9, 0.5, 0.1 and a budget of two:
    the second and third sentences are returned, in that order. *)
Definition four_sentences : list string :=
  ["Alpha one."; "Beta two."; "Gamma three."; "Delta four."].

Definition four_scores : list Q := [3 # 10; 9 # 10; 5 # 10; 1 # 10]%Q.

Lemma textrank_budget_and_order_witness :
  let sent_tokenize := fun _ : string => four_sentences in
  let rank_scores := fun _ : list string => Return four_scores in
  let argsort := fun _ : list Q => [3; 0; 2; 1]%nat in
  extract_sentences sent_tokenize rank_scores argsort "Alpha one. Beta two. Gamma three. Delta four." 2
  = Return ["Beta two."; "Gamma three."]
  /\ exists idx : list nat,
       extract_sentences sent_tokenize rank_scores argsort
         "Alpha one. Beta two. Gamma three. Delta four." 2
       = Return (List.map (fun i => nth i four_sentences "") idx)
       /\ length idx = 2%nat
       /\ StronglySorted Nat.lt idx.
Proof.
  cbv zeta. split; [reflexivity|].
  destruct (proj2 (proj2 (textrank_budget_and_order
                     (fun _ => four_sentences) (fun _ => Return four_scores)
                     (fun _ => [3; 0; 2; 1]%nat) CacheKeySpec.alice_request))
              "Alpha one. Beta two. Gamma three. Delta four." 2 four_scores)
    as (idx & He & Hl & Hs & _).
  - cbn. lia.
  - reflexivity.
  - cbn. apply (perm_trans (l' := [0; 3; 2; 1]%nat)); [apply perm_swap|].
    apply perm_skip. apply (perm_trans (l' := [2; 3; 1]%nat)); [apply perm_swap|].
    apply (perm_trans (l' := [2; 1; 3]%nat)); [apply perm_skip, perm_swap|].
    apply (perm_trans (l' := [1; 2; 3]%nat)); [apply perm_swap|]. reflexivity.
  - repeat first [ apply SSorted_nil | apply SSorted_cons | apply List.Forall_nil
                 | apply List.Forall_cons | (cbn; unfold Qle; cbn; lia) ].
  - exists idx. auto.
Defined.

End TextRankSpec.

Module SummaryServiceSpec.
Import Fallback SummaryService.

(** [SummaryResponse.is_fallback_response]. *)
Definition is_fallback_response (r : SummaryResponse) : bool :=
  bool_decide (source r ∈ [FALLBACK_TEXTRANK; FALLBACK_TFIDF]).

(** The contract of the [FallbackService] interface on one request:
    [generate_summary] raises nothing but [FallbackError], and a
    response it returns carries a fallback source. *)
Definition honours_interface (request : SummaryRequest) (fs : FallbackService) : Prop :=
  (forall e, Fallback.generate_summary fs request = Raise e -> isinstance e FallbackError = true)
  /\ (forall r, Fallback.generate_summary fs request = Return r -> is_fallback_response r = true).

(** [fs] fails on the request with a [FallbackError], the exception the
    loop of [_try_fallback_generation] catches. *)
Definition raises_fallback_error (request : SummaryRequest) (fs : FallbackService) : Prop :=
  exists e, Fallback.generate_summary fs request = Raise e
            /\ isinstance e FallbackError = true.

(** The services that are not skipped for the request's language. *)
Definition supporting (request : SummaryRequest) (services : list FallbackService)
    : list FallbackService :=
  List.filter (fun fs => supports_language fs (LanguageCode_value (lang request)))
              services.

(** [str(e)] of the error raised by the last service of [tried]; [init]
    when no service was tried. *)
Definition last_error_text_from (init : string) (request : SummaryRequest)
    (tried : list FallbackService) : string :=
  match last tried with
  | Some fs =>
      match Fallback.generate_summary fs request with
      | Raise e => exc_str e
      | Return _ => "None"
      end
  | None => init
  end.

(** The text the aggregate error quotes: ["None"] when no service was
    tried. *)
Definition last_error_text (request : SummaryRequest) (tried : list FallbackService)
    : string :=
  last_error_text_from "None" request tried.

Section FallbackLoop.

Variable request : SummaryRequest.

(** The first service that returns ends the loop. *)
Lemma fallback_loop_first_success (services : list FallbackService) :
  forall (pre : list FallbackService) (fs : FallbackService)
         (post : list FallbackService) (r : SummaryResponse) (last_error : option Exn),
    supporting request services = pre ++ fs :: post ->
    List.Forall (raises_fallback_error request) pre ->
    Fallback.generate_summary fs request = Return r ->
    fallback_loop services request last_error = Return r.
Proof.
  induction services as [|s services IH]; intros pre fs post r last_error Hsup Hpre Hgen.
  - destruct pre; discriminate Hsup.
  - cbn [fallback_loop supporting List.filter] in *.
    destruct (supports_language s (LanguageCode_value (lang request))); cbn [negb];
      [|exact (IH pre fs post r last_error Hsup Hpre Hgen)].
    destruct pre as [|p pre'].
    + cbn [app] in Hsup. injection Hsup as -> _. rewrite Hgen. reflexivity.
    + cbn [app] in Hsup. injection Hsup as -> Hsup.
      inversion Hpre as [|? ? (e & He & Hfe) Hpre']; subst.
      rewrite He, Hfe. exact (IH pre' fs post r (Some e) Hsup Hpre' Hgen).
Qed.

(** An exception that is no [FallbackError] leaves the loop. *)
Lemma fallback_loop_other_error (services : list FallbackService) :
  forall (pre : list FallbackService) (fs : FallbackService)
         (post : list FallbackService) (e : Exn) (last_error : option Exn),
    supporting request services = pre ++ fs :: post ->
    List.Forall (raises_fallback_error request) pre ->
    Fallback.generate_summary fs request = Raise e ->
    isinstance e FallbackError = false ->
    fallback_loop services request last_error = Raise e.
Proof.
  induction services as [|s services IH]; intros pre fs post e last_error Hsup Hpre Hgen Hne.
  - destruct pre; discriminate Hsup.
  - cbn [fallback_loop supporting List.filter] in *.
    destruct (supports_language s (LanguageCode_value (lang request))); cbn [negb];
      [|exact (IH pre fs post e last_error Hsup Hpre Hgen Hne)].
    destruct pre as [|p pre'].
    + cbn [app] in Hsup. injection Hsup as -> _. rewrite Hgen, Hne. reflexivity.
    + cbn [app] in Hsup. injection Hsup as -> Hsup.
      inversion Hpre as [|? ? (e' & He & Hfe) Hpre']; subst.
      rewrite He, Hfe. exact (IH pre' fs post e (Some e') Hsup Hpre' Hgen Hne).
Qed.

(** When every service is skipped or raises a [FallbackError], the loop
    ends in the aggregate error, which quotes the last of them. *)
Lemma fallback_loop_all_fail (services : list FallbackService) :
  forall last_error : option Exn,
    List.Forall (raises_fallback_error request) (supporting request services) ->
    fallback_loop services request last_error
    = Raise (mkExn FallbackError
               ("All fallback services failed. Last error: "
                +:+ last_error_text_from
                      (match last_error with Some e => exc_str e | None => "None" end)
                      request (supporting request services))).
Proof.
  induction services as [|s services IH]; intros last_error Hall; [reflexivity|].
  cbn [fallback_loop supporting List.filter] in *.
  destruct (supports_language s (LanguageCode_value (lang request))); cbn [negb];
    [|exact (IH last_error Hall)].
  inversion Hall as [|? ? (e & He & Hfe) Hall']; subst.
  rewrite He, Hfe, (IH (Some e) Hall'). do 3 f_equal.
  unfold last_error_text_from. fold (supporting request services).
  rewrite last_cons. destruct (last (supporting request services)); [reflexivity|].
  rewrite He. reflexivity.
Qed.

(** Services that honour the interface either fail one after the other
    or have a first one that returns. *)
Lemma first_success_or_all_fail (tried : list FallbackService) :
  List.Forall (honours_interface request) tried ->
  (exists pre fs post r,
      tried = pre ++ fs :: post
      /\ List.Forall (raises_fallback_error request) pre
      /\ Fallback.generate_summary fs request = Return r
      /\ is_fallback_response r = true)
  \/ List.Forall (raises_fallback_error request) tried.
Proof.
  induction 1 as [|fs tried [Hraise Htag] _ IH]; [right; constructor|].
  destruct (Fallback.generate_summary fs request) as [r|e] eqn:Egen.
  - left. exists [], fs, tried, r. repeat split; auto.
  - assert (Hfs : raises_fallback_error request fs) by (exists e; auto).
    destruct IH as [(pre & fs' & post & r & -> & Hpre & Hgen & Ht) | Hall].
    + left. exists (fs :: pre), fs', post, r. repeat split; auto.
    + right. constructor; assumption.
Qed.

End FallbackLoop.

Lemma isinstance_provider_failure (e : Exn) :
  isinstance e LLMProviderError = true -> isinstance_any e provider_failures = true.
Proof.
  intros H. unfold isinstance_any, provider_failures. cbn [existsb].
  rewrite H. reflexivity.
Qed.

Lemma aenter_raises_only_open_error (cb : CircuitBreaker.t) (now : Time) e cb' :
  CircuitBreaker.__aenter__ cb now = (Raise e, cb') ->
  e = CircuitBreaker.breaker_open_error.
Proof.
  unfold CircuitBreaker.__aenter__.
  destruct (CircuitBreaker.is_open cb); [|discriminate].
  destruct (CircuitBreaker._should_attempt_reset cb now); [discriminate|].
  intros H. inversion H. reflexivity.
Qed.

(** Both ways into step 3 end the guarded provider call with an
    [LLMProviderError]. *)
Lemma provider_path_fails {S : Type} (svc : SummaryService.t S)
    (request : SummaryRequest) (now_in now_out : Time) :
  (CircuitBreaker.is_open (circuit_breaker svc) = true
   /\ CircuitBreaker._should_attempt_reset (circuit_breaker svc) now_in = false)
  \/ (exists e0, llm_provider svc request = Raise e0
                 /\ isinstance e0 LLMProviderError || isinstance e0 AsyncioTimeoutError
                    = true) ->
  exists e, CircuitBreaker.outcome (_try_llm_generation svc request now_in now_out)
            = Raise e
            /\ isinstance e LLMProviderError = true.
Proof.
  intros Hfail. unfold _try_llm_generation, CircuitBreaker.guarded_call.
  destruct (CircuitBreaker.__aenter__ (circuit_breaker svc) now_in) as [[[]|e1] cb'] eqn:Eenter.
  - destruct Hfail as [[Hopen Hreset] | (e0 & Hllm & Hq)].
    + unfold CircuitBreaker.__aenter__ in Eenter. rewrite Hopen, Hreset in Eenter.
      discriminate Eenter.
    + rewrite Hllm. cbn [CircuitBreaker.outcome].
      destruct (isinstance e0 AsyncioTimeoutError) eqn:Et.
      * exists llm_timeout_error. split; reflexivity.
      * exists e0. split; [reflexivity|].
        rewrite orb_false_r in Hq. exact Hq.
  - apply aenter_raises_only_open_error in Eenter. subst e1.
    exists CircuitBreaker.breaker_open_error. split; reflexivity.
Qed.

(** **** Claim C1.  Suppose step 1 found no cached response and the
    provider path fails: either the breaker is open (and its timeout has
    not elapsed) or the provider call ends in a qualifying error (an
    [LLMProviderError], which covers the timeout, quota and unavailable
    subclasses, or the [asyncio] timeout), and let the cache raise
    nothing but [CacheError].  [generate_summary] then goes through the
    services that support the request's language, in their configured
    order.
    (a) The first of them that returns, all before it having raised a
    [FallbackError], supplies the result.
    (b) When each of them raised a [FallbackError], or none supports the
    language, the result is the [FallbackError] whose message is
    ["All fallback services failed. Last error: "] followed by the text
    of the last of these errors (["None"] when no service was tried).
    (c) An exception of a service that is no [FallbackError] ends the
    loop and is raised as it is.
    (d) For services that honour their interface one of (a) and (b)
    applies, a returned response carries a fallback source, and whatever
    is raised is a [FallbackError]: the provider's error never reaches
    the caller. *)
Theorem fallback_on_provider_failure {S : Type}
    (settings_redis_ttl : Z) (get_cache_key : SummaryRequest -> string)
    (svc : SummaryService.t S) (st st0 : S) (request : SummaryRequest)
    (now_in now_out : Time) :
  match cache_service svc with
  | Some cache => _try_cache_lookup get_cache_key cache st request = (Return None, st0)
  | None => st0 = st
  end ->
  (CircuitBreaker.is_open (circuit_breaker svc) = true
   /\ CircuitBreaker._should_attempt_reset (circuit_breaker svc) now_in = false)
  \/ (exists e0, llm_provider svc request = Raise e0
                 /\ isinstance e0 LLMProviderError || isinstance e0 AsyncioTimeoutError
                    = true) ->
  (forall cache, cache_service svc = Some cache ->
     forall s k r ttl e s',
       cs_set_summary cache s k r ttl = (Raise e, s') -> isinstance e CacheError = true) ->
  let out := result (SummaryService.generate_summary settings_redis_ttl get_cache_key
                       svc st request now_in now_out) in
  let tried := supporting request (fallback_services svc) in
  (forall pre fs post r,
      tried = pre ++ fs :: post ->
      List.Forall (raises_fallback_error request) pre ->
      Fallback.generate_summary fs request = Return r ->
      out = Return r)
  /\ (List.Forall (raises_fallback_error request) tried ->
      out = Raise (mkExn FallbackError
                     ("All fallback services failed. Last error: "
                      +:+ last_error_text request tried)))
  /\ (forall pre fs post e,
        tried = pre ++ fs :: post ->
        List.Forall (raises_fallback_error request) pre ->
        Fallback.generate_summary fs request = Raise e ->
        isinstance e FallbackError = false ->
        out = Raise e)
  /\ (List.Forall (honours_interface request) (fallback_services svc) ->
      ((exists pre fs post r,
           tried = pre ++ fs :: post
           /\ List.Forall (raises_fallback_error request) pre
           /\ Fallback.generate_summary fs request = Return r
           /\ out = Return r
           /\ is_fallback_response r = true)
       \/ (List.Forall (raises_fallback_error request) tried
           /\ out = Raise (mkExn FallbackError
                             ("All fallback services failed. Last error: "
                              +:+ last_error_text request tried))))
      /\ (forall e, out = Raise e -> exc_class e = FallbackError)).
Proof.
  intros Hmiss Hfail Hcache. cbv zeta.
  assert (Hgen : SummaryService.generate_summary settings_redis_ttl get_cache_key
                   svc st request now_in now_out
                 = generate_after_miss settings_redis_ttl get_cache_key
                     svc st0 request now_in now_out).
  { unfold SummaryService.generate_summary.
    destruct (cache_service svc) as [cache|]; [rewrite Hmiss|subst st0]; reflexivity. }
  rewrite Hgen. clear Hgen Hmiss.
  destruct (provider_path_fails svc request now_in now_out Hfail) as (e & Hout & Hq).
  assert (Hstore : forall s r ttl,
            exists s', store_if_cached settings_redis_ttl get_cache_key svc s request r ttl
                       = (Return tt, s')).
  { intros s r ttl. unfold store_if_cached.
    destruct (cache_service svc) as [cache|] eqn:Ec; [|eauto].
    unfold _try_cache_store.
    destruct (cs_set_summary cache s _ r _) as [[b|e'] s'] eqn:Eset; [eauto|].
    rewrite (Hcache cache eq_refl _ _ _ _ _ _ Eset). eauto. }
  (* the outcome is the outcome of the loop *)
  assert (Hloop : result (generate_after_miss settings_redis_ttl get_cache_key
                            svc st0 request now_in now_out)
                  = fallback_loop (fallback_services svc) request None).
  { unfold generate_after_miss. rewrite Hout.
    rewrite (isinstance_provider_failure e Hq). unfold _try_fallback_generation.
    destruct (fallback_loop (fallback_services svc) request None) as [r|e'];
      [|reflexivity].
    destruct (Hstore st0 r (Some 300)) as [s' Hs]. rewrite Hs. reflexivity. }
  rewrite Hloop. clear Hloop Hstore Hout.
  assert (Hall : List.Forall (raises_fallback_error request)
                   (supporting request (fallback_services svc)) ->
                 fallback_loop (fallback_services svc) request None
                 = Raise (mkExn FallbackError
                            ("All fallback services failed. Last error: "
                             +:+ last_error_text request
                                   (supporting request (fallback_services svc))))).
  { intros H. exact (fallback_loop_all_fail request (fallback_services svc) None H). }
  split; [|split; [exact Hall|split]].
  - intros pre fs post r Hsup Hpre Hr.
    exact (fallback_loop_first_success request _ pre fs post r None Hsup Hpre Hr).
  - intros pre fs post e' Hsup Hpre He' Hne.
    exact (fallback_loop_other_error request _ pre fs post e' None Hsup Hpre He' Hne).
  - intros Hservices.
    assert (Htried : List.Forall (honours_interface request)
                       (supporting request (fallback_services svc))).
    { rewrite List.Forall_forall in *. intros fs Hin.
      apply List.filter_In in Hin. apply Hservices, Hin. }
    destruct (first_success_or_all_fail request _ Htried)
      as [(pre & fs & post & r & Hsup & Hpre & Hr & Htag) | Hfail'].
    + rewrite (fallback_loop_first_success request _ pre fs post r None Hsup Hpre Hr).
      split; [|intros e' He'; discriminate He'].
      left. exists pre, fs, post, r. auto.
    + rewrite (Hall Hfail'). split; [right; auto|].
      intros e' He'. inversion He'. reflexivity.
Qed.

(** The two summarizers of the repository honour the interface as long
    as their extraction step raises nothing outside [Exception]. *)
Lemma extractive_honours_interface (strip : string -> string)
    (extracted : Result (list string)) (model : string) (src : SummarySource)
    (failure : string) (t0 t1 : Time) (request : SummaryRequest) :
  (forall e, extracted = Raise e -> isinstance e PyException = true) ->
  (forall e, extractive_generate_summary strip extracted model src failure t0 t1 request
             = Raise e -> isinstance e FallbackError = true)
  /\ (forall r, extractive_generate_summary strip extracted model src failure t0 t1 request
                = Return r -> source r = src).
Proof.
  intros Hexc. unfold extractive_generate_summary, SummaryResponse__init__.
  destruct extracted as [sentences|e0].
  - repeat match goal with
           | |- context [if ?c then _ else _] =>
               lazymatch c with
               | isinstance _ _ => fail
               | _ => destruct c
               end
           end;
      cbn [isinstance issubclass issubclass_fuel exc_class base bool_decide
           decide_rel ExcClass_eq_dec];
      split; intros x Hx; inversion Hx; reflexivity.
  - rewrite (Hexc e0 eq_refl). split; intros x Hx; inversion Hx; reflexivity.
Qed.

Lemma textrank_raises_exceptions_only (sent_tokenize : string -> list string)
    (rank_scores : list string -> Result (list Q)) (argsort : list Q -> list nat)
    (txt : string) (num : Z) :
  (forall e, rank_scores (sent_tokenize txt) = Raise e -> isinstance e PyException = true) ->
  forall e, TextRank.extract_sentences sent_tokenize rank_scores argsort txt num = Raise e ->
            isinstance e PyException = true.
Proof.
  intros Hexc e. unfold TextRank.extract_sentences.
  destruct (Z.of_nat (length (sent_tokenize txt)) <=? num); [discriminate|].
  destruct (rank_scores (sent_tokenize txt)) as [scores|e0].
  - destruct (TextRank.select _ _); [discriminate|].
    intros H. inversion H. reflexivity.
  - rewrite (Hexc e0 eq_refl). intros H. inversion H. reflexivity.
Qed.

Lemma summarizers_honour_interface (strip : string -> string)
    (sent_tokenize : string -> list string)
    (rank_scores : list string -> Result (list Q)) (argsort : list Q -> list nat)
    (tfidf_extract_sentences : string -> Z -> Result (list string))
    (t0 t1 : Time) (request : SummaryRequest) :
  (forall e, rank_scores (sent_tokenize (text request)) = Raise e ->
             isinstance e PyException = true) ->
  (forall e, tfidf_extract_sentences (text request)
               (TFIDF_calculate_num_sentences sent_tokenize request) = Raise e ->
             isinstance e PyException = true) ->
  honours_interface request
    (TextRankSummarizer strip sent_tokenize rank_scores argsort t0 t1)
  /\ honours_interface request
       (TFIDFSummarizer strip sent_tokenize tfidf_extract_sentences t0 t1).
Proof.
  intros Hrank Htfidf.
  unfold honours_interface, is_fallback_response; cbn [Fallback.generate_summary
    TextRankSummarizer TFIDFSummarizer].
  pose proof (textrank_raises_exceptions_only sent_tokenize rank_scores argsort
                (text request) (TextRank._calculate_num_sentences sent_tokenize request)
                Hrank) as Htr.
  split; split.
  - apply extractive_honours_interface, Htr.
  - intros r Hr. apply extractive_honours_interface in Hr; [|exact Htr].
    rewrite Hr. reflexivity.
  - apply extractive_honours_interface, Htfidf.
  - intros r Hr. apply extractive_honours_interface in Hr; [|exact Htfidf].
    rewrite Hr. reflexivity.
Qed.

(** A service without cache whose provider is out of quota, with the
    two default summarizers over a four-sentence text. *)
Definition demo_textrank : FallbackService :=
  TextRankSummarizer (fun s => s) (fun _ => TextRankSpec.four_sentences)
    (fun _ => Return TextRankSpec.four_scores) (fun _ => [3; 0; 2; 1]%nat)
    (1 # 1)%Q (2 # 1)%Q.

Definition demo_tfidf : FallbackService :=
  TFIDFSummarizer (fun s => s) (fun _ => TextRankSpec.four_sentences)
    (fun _ _ => Return TextRankSpec.four_sentences) (1 # 1)%Q (2 # 1)%Q.

Definition demo_service : SummaryService.t unit :=
  SummaryService.mk (fun _ => Raise CircuitBreakerSpec.quota_error) [demo_textrank; demo_tfidf] None
    (CircuitBreaker.__init__ 3 60 LLMProviderError).

(** The same summarizers when scikit-learn rejects the text: the scoring
    of TextRank and the extraction of TF-IDF both raise. *)
Definition empty_vocabulary : Exn :=
  mkExn ValueError "empty vocabulary; perhaps the documents only contain stop words".

Definition broken_textrank : FallbackService :=
  TextRankSummarizer (fun s => s) (fun _ => TextRankSpec.four_sentences)
    (fun _ => Raise empty_vocabulary) (fun _ => [3; 0; 2; 1]%nat)
    (1 # 1)%Q (2 # 1)%Q.

Definition broken_tfidf : FallbackService :=
  TFIDFSummarizer (fun s => s) (fun _ => TextRankSpec.four_sentences)
    (fun _ _ => Raise (mkExn TextProcessingError "Score calculation failed: no terms"))
    (1 # 1)%Q (2 # 1)%Q.

Definition service_with (fallbacks : list FallbackService) : SummaryService.t unit :=
  SummaryService.mk (fun _ => Raise CircuitBreakerSpec.quota_error) fallbacks None
    (CircuitBreaker.__init__ 3 60 LLMProviderError).

Lemma fallback_on_provider_failure_witness :
  let out svc := result (SummaryService.generate_summary 3600 (fun _ => "summary:k")
                           svc tt CacheKeySpec.alice_request (0 # 1)%Q (1 # 1)%Q) in
  (exists r, out (service_with [demo_textrank; demo_tfidf]) = Return r
             /\ source r = FALLBACK_TEXTRANK /\ summary r = "Beta two.")
  /\ (exists r, out (service_with [broken_textrank; demo_tfidf]) = Return r
                /\ source r = FALLBACK_TFIDF)
  /\ out (service_with [broken_textrank; broken_tfidf])
     = Raise (mkExn FallbackError
                "All fallback services failed. Last error: TF-IDF summarization failed: Score calculation failed: no terms")
  /\ out (service_with [])
     = Raise (mkExn FallbackError "All fallback services failed. Last error: None")
  /\ (forall e, out (service_with [broken_textrank; demo_tfidf]) = Raise e ->
                exc_class e = FallbackError).
Proof.
  cbv zeta.
  assert (Hfail : forall fallbacks,
            (CircuitBreaker.is_open (circuit_breaker (service_with fallbacks)) = true
             /\ CircuitBreaker._should_attempt_reset
                  (circuit_breaker (service_with fallbacks)) (0 # 1)%Q = false)
            \/ (exists e0, llm_provider (service_with fallbacks) CacheKeySpec.alice_request
                           = Raise e0
                           /\ isinstance e0 LLMProviderError
                              || isinstance e0 AsyncioTimeoutError = true)).
  { intros fallbacks. right. exists CircuitBreakerSpec.quota_error. split; reflexivity. }
  assert (Hcache : forall fallbacks cache,
            cache_service (service_with fallbacks) = Some cache ->
            forall (s : unit) k r ttl e s',
              cs_set_summary cache s k r ttl = (Raise e, s') ->
              isinstance e CacheError = true).
  { intros fallbacks cache Hc. discriminate Hc. }
  assert (Hbroken_tr : raises_fallback_error CacheKeySpec.alice_request broken_textrank).
  { eexists. split; [vm_compute; reflexivity|reflexivity]. }
  assert (Hbroken_tf : raises_fallback_error CacheKeySpec.alice_request broken_tfidf).
  { eexists. split; [vm_compute; reflexivity|reflexivity]. }
  split; [|split; [|split; [|split]]].
  - destruct (fallback_on_provider_failure 3600 (fun _ => "summary:k")
                (service_with [demo_textrank; demo_tfidf]) tt tt
                CacheKeySpec.alice_request (0 # 1)%Q (1 # 1)%Q eq_refl (Hfail _)
                (Hcache _)) as (Hfirst & _).
    eexists. split.
    { apply (Hfirst [] demo_textrank [demo_tfidf]); [reflexivity|constructor|].
      vm_compute. reflexivity. }
    split; reflexivity.
  - destruct (fallback_on_provider_failure 3600 (fun _ => "summary:k")
                (service_with [broken_textrank; demo_tfidf]) tt tt
                CacheKeySpec.alice_request (0 # 1)%Q (1 # 1)%Q eq_refl (Hfail _)
                (Hcache _)) as (Hfirst & _).
    eexists. split.
    { apply (Hfirst [broken_textrank] demo_tfidf []);
        [reflexivity|constructor; [exact Hbroken_tr|constructor]|].
      vm_compute. reflexivity. }
    reflexivity.
  - destruct (fallback_on_provider_failure 3600 (fun _ => "summary:k")
                (service_with [broken_textrank; broken_tfidf]) tt tt
                CacheKeySpec.alice_request (0 # 1)%Q (1 # 1)%Q eq_refl (Hfail _)
                (Hcache _)) as (_ & Hall & _).
    apply Hall. constructor; [exact Hbroken_tr|constructor; [exact Hbroken_tf|constructor]].
  - destruct (fallback_on_provider_failure 3600 (fun _ => "summary:k")
                (service_with []) tt tt
                CacheKeySpec.alice_request (0 # 1)%Q (1 # 1)%Q eq_refl (Hfail _)
                (Hcache _)) as (_ & Hall & _).
    apply Hall. constructor.
  - destruct (fallback_on_provider_failure 3600 (fun _ => "summary:k")
                (service_with [broken_textrank; demo_tfidf]) tt tt
                CacheKeySpec.alice_request (0 # 1)%Q (1 # 1)%Q eq_refl (Hfail _)
                (Hcache _)) as (_ & _ & _ & Hinterface).
    apply Hinterface.
    pose proof (summarizers_honour_interface (fun s => s)
                  (fun _ => TextRankSpec.four_sentences)
                  (fun _ => Raise empty_vocabulary) (fun _ => [3; 0; 2; 1]%nat)
                  (fun _ _ => Return TextRankSpec.four_sentences)
                  (1 # 1)%Q (2 # 1)%Q CacheKeySpec.alice_request) as [H1 H2].
    + intros e He. injection He as <-. reflexivity.
    + intros e He. discriminate He.
    + constructor; [exact H1|constructor; [exact H2|constructor]].
Defined.

End SummaryServiceSpec.

(** * Further properties of the memory cache *)

Module MemoryCacheOpsSpec.
Import MemoryCache MemoryCacheOps MemoryCacheSpec.

Lemma od_contains_true (k : string) (d : OrderedDict) :
  od_contains k d = true <-> exists e, od_get k d = Some e.
Proof.
  unfold od_contains. destruct (od_get k d) as [e|].
  - split; [eauto|reflexivity].
  - split; [discriminate|]. intros [e He]. discriminate He.
Qed.

Lemma delete_summary_cache (svc : MemoryCacheService) (k : string) :
  _cache (snd (delete_summary svc k)) = od_del k (_cache svc)
  /\ max_size (snd (delete_summary svc k)) = max_size svc.
Proof.
  unfold delete_summary, od_contains.
  destruct (od_get k (_cache svc)) as [e|] eqn:G; cbn; [auto|].
  split; [symmetry; apply od_del_absent; exact G|reflexivity].
Qed.

(** [delete_summary] reports whether the key was stored; afterwards the
    key is gone (a lookup misses, a second delete reports [False]) and
    every other key still maps to the entry it had. *)
Theorem delete_summary_removes_only_the_key
    (svc : MemoryCacheService) (k : string) :
  let r := delete_summary svc k in
  (fst r = true <-> exists e, od_get k (_cache svc) = Some e)
  /\ od_get k (_cache (snd r)) = None
  /\ (forall k', k' <> k -> od_get k' (_cache (snd r)) = od_get k' (_cache svc))
  /\ fst (delete_summary (snd r) k) = false
  /\ (forall now now_access, fst (get_summary (snd r) k now now_access) = None).
Proof.
  cbv zeta. destruct (delete_summary_cache svc k) as [Hc _].
  assert (Hgone : od_get k (_cache (snd (delete_summary svc k))) = None).
  { rewrite Hc. apply od_get_del_eq. }
  split; [|split; [exact Hgone|split; [|split]]].
  - rewrite <- od_contains_true. unfold delete_summary.
    destruct (od_contains k (_cache svc)); cbn; split; auto; discriminate.
  - intros k' Hne. rewrite Hc. apply od_get_del_ne. auto.
  - unfold delete_summary at 1, od_contains. rewrite Hgone. reflexivity.
  - intros now now_access. unfold get_summary. rewrite Hgone. reflexivity.
Qed.

(** [exists] answers [True] exactly for a stored entry that has not
    expired, and then changes nothing: neither the position of the key
    in the eviction order nor its [last_accessed].  For an entry that
    has expired (at both clock readings) it answers [False] and removes
    the entry, leaving the other keys as they were.  A missing key
    changes nothing. *)
Theorem exists_is_a_pure_probe_of_live_keys
    (svc : MemoryCacheService) (k : string) (now1 now2 : Time) :
  (od_get k (_cache svc) = None -> exists_ svc k now1 now2 = (false, svc))
  /\ (forall e, od_get k (_cache svc) = Some e ->
        ((now1 <= expires_at e)%Q -> exists_ svc k now1 now2 = (true, svc))
        /\ ((expires_at e < now1)%Q -> (expires_at e < now2)%Q ->
            fst (exists_ svc k now1 now2) = false
            /\ od_get k (_cache (snd (exists_ svc k now1 now2))) = None
            /\ forall k', k' <> k ->
                 od_get k' (_cache (snd (exists_ svc k now1 now2)))
                 = od_get k' (_cache svc))).
Proof.
  split.
  - intros G. unfold exists_. rewrite G. reflexivity.
  - intros e G. unfold exists_. rewrite G. unfold is_expired. split.
    + intros Hle. apply Qgtb_false in Hle. rewrite Hle. reflexivity.
    + intros H1 H2. apply Qgtb_true in H1, H2. rewrite H1, H2.
      cbn [negb fst snd _cache with_cache].
      split; [reflexivity|]. split; [apply od_get_del_eq|].
      intros k' Hne. apply od_get_del_ne. auto.
Qed.

Lemma exists_is_a_pure_probe_of_live_keys_witness :
  let svc := snd (set_summary (MemoryCacheService__init__ 2 3600) "K" sample_response
                    (Some (timedelta_of_seconds 2)) (100 # 1)%Q) in
  exists_ svc "K" (101 # 1)%Q (101 # 1)%Q = (true, svc)
  /\ fst (exists_ svc "K" (103 # 1)%Q (103 # 1)%Q) = false
  /\ od_get "K" (_cache (snd (exists_ svc "K" (103 # 1)%Q (103 # 1)%Q))) = None.
Proof.
  cbv zeta.
  set (svc := snd (set_summary (MemoryCacheService__init__ 2 3600) "K" sample_response
                     (Some (timedelta_of_seconds 2)) (100 # 1)%Q)).
  destruct (proj2 (exists_is_a_pure_probe_of_live_keys svc "K" (101 # 1)%Q (101 # 1)%Q)
              _ eq_refl) as [Hlive _].
  destruct (proj2 (exists_is_a_pure_probe_of_live_keys svc "K" (103 # 1)%Q (103 # 1)%Q)
              _ eq_refl) as [_ Hdead].
  split; [apply Hlive; vm_compute; discriminate|].
  destruct Hdead as (H1 & H2 & _); [vm_compute; reflexivity | vm_compute; reflexivity |].
  split; assumption.
Defined.

(** [int()] of a non-negative time span is its floor, and of a
    non-positive one is not positive. *)
Lemma py_int_floor (q : Q) :
  (0 <= q)%Q ->
  0 <= py_int q /\ (inject_Z (py_int q) <= q)%Q /\ (q < inject_Z (py_int q + 1))%Q.
Proof.
  destruct q as [a d]. unfold Qle, Qlt, py_int, inject_Z. cbn [Qnum Qden].
  intros Ha. assert (Ha' : 0 <= a) by lia.
  rewrite (Z.quot_div_nonneg a (Z.pos d)) by lia.
  pose proof (Z.mul_div_le a (Z.pos d) ltac:(lia)).
  pose proof (Z.mul_succ_div_gt a (Z.pos d) ltac:(lia)).
  pose proof (Z.div_pos a (Z.pos d) Ha' ltac:(lia)).
  repeat split; nia.
Qed.

Lemma py_int_nonpos (q : Q) : (q <= 0)%Q -> py_int q <= 0.
Proof.
  destruct q as [a d]. unfold Qle, py_int. cbn [Qnum Qden]. intros Ha.
  assert (Ha' : a <= 0) by lia.
  rewrite <- (Z.opp_involutive a), Z.quot_opp_l by lia.
  pose proof (Z.quot_pos (- a) (Z.pos d) ltac:(lia) ltac:(lia)). lia.
Qed.

(** [get_ttl] answers [None] for a missing key and for an expired
    entry; for a live entry it answers the remaining life in whole
    seconds, rounded down, and never a negative number. *)
Theorem get_ttl_is_floor_of_remaining_life
    (svc : MemoryCacheService) (k : string) (now1 now2 : Time) :
  (od_get k (_cache svc) = None -> get_ttl svc k now1 now2 = None)
  /\ (forall e, od_get k (_cache svc) = Some e ->
        ((expires_at e < now1)%Q -> get_ttl svc k now1 now2 = None)
        /\ ((now1 <= expires_at e)%Q ->
            exists n, get_ttl svc k now1 now2 = Some n
                      /\ 0 <= n
                      /\ ((now2 <= expires_at e)%Q ->
                          (inject_Z n <= expires_at e - now2)%Q
                          /\ (expires_at e - now2 < inject_Z (n + 1))%Q)
                      /\ ((expires_at e <= now2)%Q -> n = 0))).
Proof.
  split.
  - intros G. unfold get_ttl. rewrite G. reflexivity.
  - intros e G. unfold get_ttl. rewrite G. unfold is_expired. split.
    + intros H. apply Qgtb_true in H. rewrite H. reflexivity.
    + intros H. apply Qgtb_false in H. rewrite H. cbn [negb].
      exists (CacheEntry_get_ttl e now2). split; [reflexivity|].
      unfold CacheEntry_get_ttl. cbv zeta. split; [lia|]. split.
      * intros Hlive.
        destruct (py_int_floor (expires_at e - now2)%Q) as (H0 & Hlo & Hhi); [lra|].
        rewrite Z.max_r by exact H0. split; assumption.
      * intros Hdead.
        pose proof (py_int_nonpos (expires_at e - now2)%Q ltac:(lra)). lia.
Qed.

Lemma get_ttl_is_floor_of_remaining_life_witness :
  let svc := snd (set_summary (MemoryCacheService__init__ 2 3600) "K" sample_response
                    (Some (timedelta_of_seconds 2)) (100 # 1)%Q) in
  get_ttl svc "K" (103 # 1)%Q (103 # 1)%Q = None
  /\ exists n, get_ttl svc "K" (201 # 2)%Q (201 # 2)%Q = Some n /\ 0 <= n.
Proof.
  cbv zeta.
  set (svc := snd (set_summary (MemoryCacheService__init__ 2 3600) "K" sample_response
                     (Some (timedelta_of_seconds 2)) (100 # 1)%Q)).
  split.
  - apply (proj1 (proj2 (get_ttl_is_floor_of_remaining_life svc "K" (103 # 1)%Q (103 # 1)%Q)
                   _ eq_refl)).
    vm_compute. reflexivity.
  - destruct (proj2 (proj2 (get_ttl_is_floor_of_remaining_life svc "K" (201 # 2)%Q (201 # 2)%Q)
                      _ eq_refl)) as (n & Hn & H0 & _).
    + vm_compute. discriminate.
    + exists n. auto.
Defined.

(** *** The expiry sweep *)

Definition not_among (ks : list string) (p : string * CacheEntry) : bool :=
  negb (bool_decide (fst p ∈ ks)).

Lemma not_among_cons (k : string) (ks : list string) (p : string * CacheEntry) :
  not_among (k :: ks) p = negb (bool_decide (fst p = k)) && not_among ks p.
Proof.
  unfold not_among.
  destruct (decide (fst p = k)) as [Hk|Hk], (decide (fst p ∈ ks)) as [Hi|Hi].
  - rewrite !bool_decide_eq_true_2; [reflexivity|assumption|assumption|].
    apply elem_of_cons. left. exact Hk.
  - rewrite (bool_decide_eq_true_2 (fst p = k)) by exact Hk.
    rewrite bool_decide_eq_true_2; [reflexivity|]. apply elem_of_cons. left. exact Hk.
  - rewrite (bool_decide_eq_false_2 (fst p = k)) by exact Hk.
    rewrite !bool_decide_eq_true_2; [reflexivity|assumption|].
    apply elem_of_cons. right. exact Hi.
  - rewrite (bool_decide_eq_false_2 (fst p = k)) by exact Hk.
    rewrite !bool_decide_eq_false_2; [reflexivity|assumption|].
    intros H. apply elem_of_cons in H. tauto.
Qed.

Lemma remove_expired_cache (ks : list string) :
  forall svc : MemoryCacheService,
    _cache (remove_expired svc ks) = List.filter (not_among ks) (_cache svc)
    /\ max_size (remove_expired svc ks) = max_size svc.
Proof.
  unfold remove_expired. induction ks as [|k ks IH]; intros svc; cbn [fold_left].
  - split; [|reflexivity]. symmetry. apply forallb_filter_id, forallb_forall.
    intros p _. unfold not_among. rewrite bool_decide_eq_false_2; [reflexivity|].
    apply not_elem_of_nil.
  - destruct (IH (with_cache (od_del k (_cache svc))
                    (mkStats (hits (stats svc)) (misses (stats svc)) (sets (stats svc))
                       (deletes (stats svc)) (evictions (stats svc))
                       (expired_cleanups (stats svc) + 1)
                       (total_operations (stats svc))) svc)) as [Hc Hm].
    rewrite Hc, Hm. cbn [_cache with_cache max_size]. split; [|reflexivity].
    clear Hc Hm IH. generalize (_cache svc). intros d.
    unfold od_del. induction d as [|p d IHd]; cbn [List.filter]; [reflexivity|].
    rewrite (not_among_cons k ks p).
    destruct (negb (bool_decide (fst p = k))); cbn [andb List.filter]; [|exact IHd].
    destruct (not_among ks p); [f_equal|]; exact IHd.
Qed.

Lemma od_get_filter_keys (f : string -> bool) (k : string) (d : OrderedDict) :
  od_get k (List.filter (fun p => f (fst p)) d) = if f k then od_get k d else None.
Proof.
  unfold od_get. induction d as [|[k0 e0] d IH]; cbn [List.filter List.find fst].
  - destruct (f k); reflexivity.
  - destruct (bool_decide (k0 = k)) eqn:E.
    + apply bool_decide_eq_true in E. subst k0.
      destruct (f k) eqn:F; cbn [List.find fst].
      * rewrite bool_decide_eq_true_2 by reflexivity. reflexivity.
      * exact IH.
    + destruct (f k0); cbn [List.find fst]; [rewrite E|]; exact IH.
Qed.

Lemma od_get_In (k : string) (e : CacheEntry) (d : OrderedDict) :
  od_get k d = Some e -> List.In (k, e) d.
Proof.
  unfold od_get. destruct (List.find _ d) as [[k0 e0]|] eqn:F; [|discriminate].
  cbn. intros H. inversion H; subst e0.
  apply List.find_some in F. destruct F as [Hin Hk].
  apply bool_decide_eq_true in Hk. cbn in Hk. subst k0. exact Hin.
Qed.

Lemma In_od_get (k : string) (e : CacheEntry) (d : OrderedDict) :
  List.NoDup (keys d) -> List.In (k, e) d -> od_get k d = Some e.
Proof.
  unfold od_get, keys. induction d as [|[k0 e0] d IH]; cbn; [intros _ []|].
  intros Hnd Hin. inversion Hnd as [|? ? Hnin Hnd']; subst.
  destruct Hin as [Heq|Hin].
  - inversion Heq; subst. rewrite bool_decide_eq_true_2 by reflexivity. reflexivity.
  - destruct (bool_decide (k0 = k)) eqn:E; [|apply IH; assumption].
    apply bool_decide_eq_true in E. subst k0. elim Hnin.
    apply List.in_map_iff. exists (k, e). split; [reflexivity|exact Hin].
Qed.

Lemma expired_keys_sound (clock : nat -> Time) (d : OrderedDict) :
  forall (i0 : nat) (k : string),
    List.In k (expired_keys clock i0 d) ->
    exists e j, List.In (k, e) d /\ (i0 <= j)%nat /\ is_expired e (clock j) = true.
Proof.
  induction d as [|[k0 e0] d IH]; intros i0 k; cbn; [intros []|].
  destruct (is_expired e0 (clock i0)) eqn:E.
  - intros [Hk|Hin].
    + subst k0. exists e0, i0. auto.
    + destruct (IH (S i0) k Hin) as (e & j & H1 & H2 & H3).
      exists e, j. repeat split; auto. lia.
  - intros Hin. destruct (IH (S i0) k Hin) as (e & j & H1 & H2 & H3).
    exists e, j. repeat split; auto. lia.
Qed.

Lemma expired_keys_complete (clock : nat -> Time) (d : OrderedDict) :
  forall (i0 : nat) (k : string) (e : CacheEntry),
    List.In (k, e) d ->
    (forall j, (i0 <= j)%nat -> is_expired e (clock j) = true) ->
    List.In k (expired_keys clock i0 d).
Proof.
  induction d as [|[k0 e0] d IH]; intros i0 k e; cbn; [intros []|].
  intros [Heq|Hin] Hall.
  - inversion Heq; subst. rewrite (Hall i0) by lia. left. reflexivity.
  - assert (Hrec : List.In k (expired_keys clock (S i0) d)).
    { apply (IH (S i0) k e Hin). intros j Hj. apply Hall. lia. }
    destruct (is_expired e0 (clock i0)); [right|]; exact Hrec.
Qed.

(** One sweep of [_periodic_cleanup], on a store without repeated keys
    and with a clock that does not run backwards: an entry that is still
    stored afterwards is unchanged and was not expired when the sweep
    began; an entry that was already expired when the sweep began is
    gone; an entry that does not expire during the sweep stays.  The
    capacity is untouched and the store does not grow. *)
Theorem cleanup_sweep_removes_the_expired
    (svc : MemoryCacheService) (clock : nat -> Time) :
  List.NoDup (List.map fst (_cache svc)) ->
  (forall i j : nat, (i <= j)%nat -> (clock i <= clock j)%Q) ->
  let svc' := cleanup_sweep svc clock in
  (forall k e, od_get k (_cache svc') = Some e ->
     od_get k (_cache svc) = Some e /\ (clock 0%nat <= expires_at e)%Q)
  /\ (forall k e, od_get k (_cache svc) = Some e -> (expires_at e < clock 0%nat)%Q ->
        od_get k (_cache svc') = None)
  /\ (forall k e, od_get k (_cache svc) = Some e ->
        (forall j, (clock j <= expires_at e)%Q) ->
        od_get k (_cache svc') = Some e)
  /\ (length (_cache svc') <= length (_cache svc))%nat
  /\ max_size svc' = max_size svc.
Proof.
  intros Hnd Hmono. cbv zeta. unfold cleanup_sweep.
  set (ks := expired_keys clock 0 (_cache svc)).
  destruct (remove_expired_cache ks svc) as [Hc Hm]. rewrite Hc, Hm.
  assert (Hget : forall k, od_get k (List.filter (not_among ks) (_cache svc))
                           = if negb (bool_decide (k ∈ ks)) then od_get k (_cache svc)
                             else None).
  { intros k.
    exact (od_get_filter_keys (fun x : string => negb (bool_decide (x ∈ ks)))
             k (_cache svc)). }
  split; [|split; [|split; [|split]]].
  - intros k e. rewrite Hget.
    destruct (bool_decide (k ∈ ks)) eqn:E; cbn [negb]; [discriminate|].
    intros G. split; [exact G|].
    apply bool_decide_eq_false in E.
    destruct (Qlt_le_dec (expires_at e) (clock 0%nat)) as [Hlt|Hle]; [|exact Hle].
    elim E. apply list_elem_of_In.
    apply (expired_keys_complete clock (_cache svc) 0 k e (od_get_In _ _ _ G)).
    intros j _. unfold is_expired. apply Qgtb_true.
    pose proof (Hmono 0%nat j ltac:(lia)). lra.
  - intros k e G Hlt. rewrite Hget.
    rewrite bool_decide_eq_true_2; [reflexivity|].
    apply list_elem_of_In.
    apply (expired_keys_complete clock (_cache svc) 0 k e (od_get_In _ _ _ G)).
    intros j _. unfold is_expired. apply Qgtb_true.
    pose proof (Hmono 0%nat j ltac:(lia)). lra.
  - intros k e G Hlive. rewrite Hget.
    rewrite bool_decide_eq_false_2; [exact G|].
    intros Hin. apply list_elem_of_In in Hin.
    destruct (expired_keys_sound clock (_cache svc) 0 k Hin) as (e' & j & Hin' & _ & Hexp).
    rewrite (In_od_get k e' _ Hnd Hin') in G. inversion G; subst e'.
    unfold is_expired in Hexp. apply Qgtb_true in Hexp.
    specialize (Hlive j). lra.
  - apply List.filter_length_le.
  - reflexivity.
Qed.

Lemma cleanup_sweep_removes_the_expired_witness :
  let svc0 := MemoryCacheService__init__ 5 3600 in
  let svc1 := snd (set_summary svc0 "old" sample_response
                     (Some (timedelta_of_seconds 2)) (100 # 1)%Q) in
  let svc2 := snd (set_summary svc1 "new" sample_response
                     (Some (timedelta_of_seconds 900)) (101 # 1)%Q) in
  let svc' := cleanup_sweep svc2 (fun _ => (400 # 1)%Q) in
  od_get "old" (_cache svc') = None
  /\ od_get "new" (_cache svc') = od_get "new" (_cache svc2).
Proof.
  cbv zeta.
  set (svc2 := snd (set_summary (snd (set_summary (MemoryCacheService__init__ 5 3600)
                 "old" sample_response (Some (timedelta_of_seconds 2)) (100 # 1)%Q))
                 "new" sample_response (Some (timedelta_of_seconds 900)) (101 # 1)%Q)).
  destruct (cleanup_sweep_removes_the_expired svc2 (fun _ => (400 # 1)%Q))
    as (_ & Hgone & Hstay & _).
  - vm_compute. repeat constructor; cbn; intuition discriminate.
  - intros i j _. apply Qle_refl.
  - split.
    + apply (Hgone "old" _ eq_refl). vm_compute. reflexivity.
    + rewrite (Hstay "new" _ eq_refl); [reflexivity|].
      intros j. vm_compute. discriminate.
Defined.

(** *** The self-test *)

Lemma health_check_unfold (svc : MemoryCacheService) (t_set t_get t_access : Time) :
  let svc1 := snd (set_summary svc test_key test_response
                     (Some (timedelta_of_seconds 1)) t_set) in
  let g := get_summary svc1 test_key t_get t_access in
  health_check svc t_set t_get t_access
  = ({| h_status := "healthy"; h_cache_type := "memory";
        h_cache_size := Z.of_nat (length (_cache svc));
        h_max_size := max_size svc;
        h_test_operations :=
          match fst g with Some _ => "passed" | None => "failed" end |},
     snd (delete_summary (snd g) test_key)).
Proof.
  cbv zeta. unfold health_check.
  destruct (set_summary svc test_key test_response (Some (timedelta_of_seconds 1)) t_set)
    as [b svc1]. cbn [snd].
  destruct (get_summary svc1 test_key t_get t_access) as [r svc2]. cbn [fst snd].
  destruct (delete_summary svc2 test_key) as [b' svc3]. reflexivity.
Qed.

(** [health_check] on a store that does not hold the test key: the
    report is always "healthy", and the round trip counts as passed
    exactly when the read happens no later than one second after the
    write.  The test key never stays behind; a store below capacity is
    left with the entries and order it had, but a store at capacity
    loses its least recently used entry, which the test write evicted. *)
Theorem health_check_evicts_when_full
    (svc : MemoryCacheService) (t_set t_get t_access : Time) :
  List.NoDup (List.map fst (_cache svc)) ->
  od_get test_key (_cache svc) = None ->
  let r := health_check svc t_set t_get t_access in
  h_status (fst r) = "healthy"
  /\ h_cache_size (fst r) = Z.of_nat (length (_cache svc))
  /\ (h_test_operations (fst r) = "passed" <-> (t_get <= t_set + inject_Z 1)%Q)
  /\ _cache (snd r)
     = (if Z.of_nat (length (_cache svc)) >=? max_size svc
        then tail (_cache svc) else _cache svc)
  /\ od_get test_key (_cache (snd r)) = None.
Proof.
  intros Hnd Habsent. cbv zeta. rewrite health_check_unfold. cbn [fst snd h_status
    h_cache_size h_test_operations].
  set (svc1 := snd (set_summary svc test_key test_response
                      (Some (timedelta_of_seconds 1)) t_set)).
  set (d1 := if Z.of_nat (length (_cache svc)) >=? max_size svc
             then tail (_cache svc) else _cache svc).
  set (entry := CacheEntry__init__ test_response 1 t_set).
  assert (Hd1 : od_get test_key d1 = None).
  { subst d1. destruct (_ >=? _); [|exact Habsent].
    apply od_get_None_iff. apply od_get_None_iff in Habsent.
    destruct (_cache svc) as [|p d]; [exact Habsent|].
    cbn in *. tauto. }
  assert (Hc1 : _cache svc1 = d1 ++ [(test_key, entry)]).
  { subst svc1. destruct (set_summary_cache svc test_key test_response
                            (Some (timedelta_of_seconds 1)) t_set) as (Hc & _).
    cbv zeta in Hc. rewrite Hc. clear Hc.
    unfold od_contains. rewrite Habsent. cbn [negb andb].
    assert (Htail : _cache (_evict_lru svc) = tail (_cache svc)).
    { rewrite (proj1 (evict_lru_cache svc)).
      destruct (_cache svc) as [|[k0 e0] d] eqn:Ed; [reflexivity|].
      apply od_del_head. exact Hnd. }
    rewrite Htail.
    change (od_del test_key d1
            ++ [(test_key, CacheEntry__init__ test_response
                             (ttl_seconds_of svc (Some (timedelta_of_seconds 1))) t_set)]
            = d1 ++ [(test_key, entry)]).
    rewrite (od_del_absent _ _ Hd1).
    unfold entry, ttl_seconds_of.
    replace (timedelta_of_seconds 1 =? 0) with false by reflexivity.
    rewrite py_int_whole_seconds. reflexivity. }
  assert (Hg1 : od_get test_key (_cache svc1) = Some entry).
  { rewrite Hc1. apply od_get_snoc. exact Hd1. }
  assert (Hdel1 : od_del test_key (_cache svc1) = d1).
  { rewrite Hc1. unfold od_del. rewrite List.filter_app. cbn [List.filter fst].
    rewrite bool_decide_eq_true_2 by reflexivity. cbn [negb].
    rewrite app_nil_r. apply od_del_absent. exact Hd1. }
  assert (Hfinal : _cache (snd (delete_summary
                     (snd (get_summary svc1 test_key t_get t_access)) test_key)) = d1).
  { rewrite (proj1 (delete_summary_cache _ _)),
            (proj1 (get_summary_cache svc1 test_key t_get t_access)), Hg1.
    destruct (is_expired entry t_get).
    - rewrite Hdel1. apply od_del_absent. exact Hd1.
    - rewrite Hdel1. unfold od_del. rewrite List.filter_app. cbn [List.filter fst].
      rewrite bool_decide_eq_true_2 by reflexivity. cbn [negb].
      rewrite app_nil_r. apply od_del_absent. exact Hd1. }
  split; [reflexivity|]. split; [reflexivity|]. split; [|split].
  - unfold get_summary. rewrite Hg1.
    change (expires_at entry) with (t_set + inject_Z 1)%Q.
    unfold is_expired. change (expires_at entry) with (t_set + inject_Z 1)%Q.
    destruct (Qgtb t_get (t_set + inject_Z 1)%Q) eqn:E; cbn [fst].
    + apply Qgtb_true in E. split; [discriminate|]. intros H. lra.
    + apply Qgtb_false in E. split; [intros _; exact E|reflexivity].
  - exact Hfinal.
  - rewrite Hfinal. exact Hd1.
Qed.

Lemma health_check_evicts_when_full_witness :
  let svc0 := MemoryCacheService__init__ 2 3600 in
  let svc1 := snd (set_summary svc0 "a" sample_response None (1 # 1)%Q) in
  let svc2 := snd (set_summary svc1 "b" sample_response None (2 # 1)%Q) in
  let r := health_check svc2 (3 # 1)%Q (3 # 1)%Q (3 # 1)%Q in
  h_test_operations (fst r) = "passed"
  /\ List.map fst (_cache svc2) = ["a"; "b"]
  /\ List.map fst (_cache (snd r)) = ["b"].
Proof.
  cbv zeta.
  set (svc2 := snd (set_summary (snd (set_summary (MemoryCacheService__init__ 2 3600)
                 "a" sample_response None (1 # 1)%Q)) "b" sample_response None (2 # 1)%Q)).
  destruct (health_check_evicts_when_full svc2 (3 # 1)%Q (3 # 1)%Q (3 # 1)%Q)
    as (_ & _ & Hpass & Hcache & _).
  - vm_compute. repeat constructor; cbn; intuition discriminate.
  - reflexivity.
  - split; [apply Hpass; vm_compute; discriminate|].
    split; [reflexivity|]. rewrite Hcache. reflexivity.
Defined.

(** *** Invariants under every public operation *)

Lemma keys_filter_NoDup (f : string * CacheEntry -> bool) (d : OrderedDict) :
  List.NoDup (keys d) -> List.NoDup (keys (List.filter f d)).
Proof.
  unfold keys. induction d as [|p d IH]; cbn; [auto|].
  intros Hnd. inversion Hnd as [|? ? Hnin Hnd']; subst.
  destruct (f p); cbn; [|auto].
  constructor; [|auto]. intros Hin. apply Hnin.
  apply List.in_map_iff in Hin. destruct Hin as (q & Hq & Hin).
  apply List.filter_In in Hin. apply List.in_map_iff. exists q. tauto.
Qed.

Lemma apply_call_within_capacity (C : Z) (svc : MemoryCacheService) (c : Call) :
  1 <= C -> max_size svc = C -> within_capacity C (_cache svc) ->
  within_capacity C (_cache (apply_call svc c)) /\ max_size (apply_call svc c) = C.
Proof.
  intros HC Hm Hw.
  assert (Hdel : forall (s : MemoryCacheService) (k : string),
            max_size s = C -> within_capacity C (_cache s) ->
            within_capacity C (_cache (snd (delete_summary s k)))
            /\ max_size (snd (delete_summary s k)) = C).
  { intros s k Hms [Hnd Hlen]. destruct (delete_summary_cache s k) as [Hc Hm'].
    rewrite Hc, Hm'. split; [|exact Hms].
    split; [apply keys_od_del_NoDup; exact Hnd|].
    pose proof (od_del_length_le k (_cache s)). lia. }
  destruct c as [k now na | k v ttl now | k | k n1 n2 | k n1 n2 | | clock | ts tg ta];
    cbn [apply_call].
  - exact (step_within_capacity C svc (OpGet k now na) HC Hm Hw).
  - exact (step_within_capacity C svc (OpSet k v ttl now) HC Hm Hw).
  - apply Hdel; assumption.
  - unfold exists_. destruct (od_get k (_cache svc)) as [e|]; [|split; assumption].
    destruct (negb (is_expired e n1)); [split; assumption|].
    destruct (is_expired e n2); [|split; assumption].
    cbn [snd _cache with_cache max_size]. destruct Hw as [Hnd Hlen].
    split; [|exact Hm]. split; [apply keys_od_del_NoDup; exact Hnd|].
    pose proof (od_del_length_le k (_cache svc)). lia.
  - split; assumption.
  - cbn. split; [|exact Hm]. split; [constructor|cbn; lia].
  - unfold cleanup_sweep.
    destruct (remove_expired_cache (expired_keys clock 0 (_cache svc)) svc) as [Hc Hm'].
    rewrite Hc, Hm'. destruct Hw as [Hnd Hlen]. split; [|exact Hm].
    split; [apply keys_filter_NoDup; exact Hnd|].
    pose proof (List.filter_length_le
                  (not_among (expired_keys clock 0 (_cache svc))) (_cache svc)). lia.
  - rewrite health_check_unfold. cbn [snd].
    destruct (step_within_capacity C svc
                (OpSet test_key test_response (Some (timedelta_of_seconds 1)) ts)
                HC Hm Hw) as [Hw1 Hm1].
    cbn [step] in Hw1, Hm1.
    destruct (step_within_capacity C _ (OpGet test_key tg ta) HC Hm1 Hw1) as [Hw2 Hm2].
    cbn [step] in Hw2, Hm2.
    apply Hdel; assumption.
Qed.

(** Whatever public operations are applied to a service created with
    capacity [C >= 1] (reads, writes, deletes, probes, sweeps, clears and
    self-tests, at any clock readings), the store never holds more than
    [C] entries, never holds a key twice, and keeps its capacity. *)
Theorem every_operation_keeps_capacity (C default_ttl0 : Z) (calls : list Call) :
  1 <= C ->
  let svc := apply_calls (MemoryCacheService__init__ C default_ttl0) calls in
  Z.of_nat (length (_cache svc)) <= C
  /\ List.NoDup (List.map fst (_cache svc))
  /\ max_size svc = C.
Proof.
  intros HC. cbv zeta.
  assert (Hrun : forall (cs : list Call) (s : MemoryCacheService),
            max_size s = C -> within_capacity C (_cache s) ->
            within_capacity C (_cache (apply_calls s cs))
            /\ max_size (apply_calls s cs) = C).
  { unfold apply_calls. induction cs as [|c cs IH]; intros s Hm Hw; cbn [fold_left].
    - split; assumption.
    - destruct (apply_call_within_capacity C s c HC Hm Hw) as [Hw' Hm'].
      apply IH; assumption. }
  destruct (Hrun calls (MemoryCacheService__init__ C default_ttl0)) as [[Hnd Hlen] Hm].
  - reflexivity.
  - split; [constructor|cbn; lia].
  - auto.
Qed.

Lemma every_operation_keeps_capacity_witness :
  let svc := apply_calls (MemoryCacheService__init__ 1 3600)
               [CallSet "a" sample_response None (1 # 1)%Q;
                CallHealthCheck (2 # 1)%Q (2 # 1)%Q (2 # 1)%Q;
                CallSet "b" sample_response None (3 # 1)%Q;
                CallExists "b" (4 # 1)%Q (4 # 1)%Q;
                CallCleanup (fun _ => (5 # 1)%Q)] in
  Z.of_nat (length (_cache svc)) <= 1 /\ max_size svc = 1.
Proof.
  cbv zeta.
  destruct (every_operation_keeps_capacity 1 3600
              [CallSet "a" sample_response None (1 # 1)%Q;
               CallHealthCheck (2 # 1)%Q (2 # 1)%Q (2 # 1)%Q;
               CallSet "b" sample_response None (3 # 1)%Q;
               CallExists "b" (4 # 1)%Q (4 # 1)%Q;
               CallCleanup (fun _ => (5 # 1)%Q)]) as (H1 & _ & H3); [lia|].
  split; assumption.
Defined.

(** The counters add up: every counted operation is a hit, a miss, a
    set or a delete, and no counter is negative. *)
Definition accounted (st : Stats) : Prop :=
  total_operations st = hits st + misses st + sets st + deletes st
  /\ 0 <= hits st /\ 0 <= misses st /\ 0 <= sets st /\ 0 <= deletes st
  /\ 0 <= evictions st <= sets st /\ 0 <= expired_cleanups st.

Lemma get_summary_accounted svc k now na :
  accounted (stats svc) -> accounted (stats (snd (get_summary svc k now na))).
Proof.
  unfold accounted, get_summary. intros H.
  destruct (od_get k (_cache svc)) as [e|]; [destruct (is_expired e now)|];
    cbn; lia.
Qed.

Lemma set_summary_accounted svc k v ttl now :
  accounted (stats svc) -> accounted (stats (snd (set_summary svc k v ttl now))).
Proof.
  unfold accounted, set_summary, _evict_lru. intros H.
  destruct (negb (od_contains k (_cache svc))
            && (Z.of_nat (length (_cache svc)) >=? max_size svc));
    [destruct (_cache svc) as [|[k0 e0] d]|]; cbn; lia.
Qed.

Lemma delete_summary_accounted svc k :
  accounted (stats svc) -> accounted (stats (snd (delete_summary svc k))).
Proof.
  unfold accounted, delete_summary. intros H.
  destruct (od_contains k (_cache svc)); cbn; lia.
Qed.

Lemma remove_expired_accounted (ks : list string) :
  forall svc, accounted (stats svc) -> accounted (stats (remove_expired svc ks)).
Proof.
  unfold remove_expired. induction ks as [|k ks IH]; intros svc H; cbn [fold_left];
    [exact H|].
  apply IH. unfold accounted in *. cbn. lia.
Qed.

Lemma apply_call_accounted (svc : MemoryCacheService) (c : Call) :
  accounted (stats svc) -> accounted (stats (apply_call svc c)).
Proof.
  intros H.
  destruct c as [k now na | k v ttl now | k | k n1 n2 | k n1 n2 | | clock | ts tg ta];
    cbn [apply_call].
  - apply get_summary_accounted, H.
  - apply set_summary_accounted, H.
  - apply delete_summary_accounted, H.
  - unfold exists_. destruct (od_get k (_cache svc)) as [e|]; [|exact H].
    destruct (negb (is_expired e n1)); [exact H|].
    destruct (is_expired e n2); [|exact H]. unfold accounted in *. cbn. lia.
  - exact H.
  - exact H.
  - apply remove_expired_accounted, H.
  - rewrite health_check_unfold. cbn [snd].
    apply delete_summary_accounted, get_summary_accounted, set_summary_accounted, H.
Qed.

(** The statistics of a service stay consistent under every public
    operation: [total_operations] is always the sum of [hits], [misses],
    [sets] and [deletes] (probes, sweeps and clears are not counted), no
    counter is negative, and there are never more evictions than sets. *)
Theorem statistics_add_up (C default_ttl0 : Z) (calls : list Call) :
  let st := stats (apply_calls (MemoryCacheService__init__ C default_ttl0) calls) in
  total_operations st = hits st + misses st + sets st + deletes st
  /\ 0 <= hits st /\ 0 <= misses st /\ 0 <= sets st /\ 0 <= deletes st
  /\ 0 <= evictions st <= sets st /\ 0 <= expired_cleanups st.
Proof.
  cbv zeta. change (accounted (stats (apply_calls
                      (MemoryCacheService__init__ C default_ttl0) calls))).
  assert (Hrun : forall (cs : list Call) (s : MemoryCacheService),
            accounted (stats s) -> accounted (stats (apply_calls s cs))).
  { unfold apply_calls. induction cs as [|c cs IH]; intros s H; cbn [fold_left];
      [exact H|]. apply IH, apply_call_accounted, H. }
  apply Hrun. unfold accounted. cbn. lia.
Qed.

End MemoryCacheOpsSpec.

(** * Further properties of the rate limiter *)

Module RateLimitOpsSpec.
Import RateLimit RateLimitOps RateLimitSpec.

(** Only the deque of the identifier is read by [is_allowed]. *)
Lemma is_allowed_depends_on_deque (rh1 rh2 : gmap string (list Time))
    (id : string) (L W : Z) (now : Time) :
  default [] (rh1 !! id) = default [] (rh2 !! id) ->
  fst (is_allowed rh1 id L W now) = fst (is_allowed rh2 id L W now)
  /\ snd (is_allowed rh1 id L W now) !! id = snd (is_allowed rh2 id L W now) !! id.
Proof.
  intros H. unfold is_allowed. cbv zeta. cbn [fst snd]. rewrite H.
  split; [reflexivity|]. rewrite !lookup_insert_eq. reflexivity.
Qed.

(** [get_usage_stats]: the three counts are ordered (last minute, last
    hour, all retained requests), and the call changes no deque, so the
    verdict of any later [is_allowed] is what it would have been. *)
Theorem usage_stats_are_ordered_and_harmless
    (rh : gmap string (list Time)) (id : string) (now : Time) :
  let r := get_usage_stats rh id now in
  0 <= requests_last_minute (fst r)
  /\ requests_last_minute (fst r) <= requests_last_hour (fst r)
  /\ requests_last_hour (fst r) <= total_requests (fst r)
  /\ (forall k, default [] (snd r !! k) = default [] (rh !! k))
  /\ (forall k L W t, fst (is_allowed (snd r) k L W t) = fst (is_allowed rh k L W t)).
Proof.
  cbv zeta. unfold get_usage_stats. cbn [fst snd requests_last_minute
    requests_last_hour total_requests].
  assert (Hkeep : forall k, default [] (<[id := default [] (rh !! id)]> rh !! k)
                            = default [] (rh !! k)).
  { intros k. destruct (decide (id = k)) as [->|Hne].
    - rewrite lookup_insert_eq. reflexivity.
    - rewrite lookup_insert_ne by exact Hne. reflexivity. }
  unfold count_recent.
  split; [lia|]. split; [|split; [|split]].
  - apply inj_le, filter_length_le_implies. intros t Ht.
    apply Qleb_true in Ht. apply Qleb_true.
    assert (inject_Z 60 <= inject_Z 3600)%Q by (unfold Qle; cbn; lia). lra.
  - apply inj_le, List.filter_length_le.
  - exact Hkeep.
  - intros k L W t. apply is_allowed_depends_on_deque, Hkeep.
Qed.

Lemma popleft_while_twice (c c' : Time) (h : list Time) :
  (c <= c')%Q -> popleft_while c' (popleft_while c h) = popleft_while c' h.
Proof.
  intros Hc. induction h as [|t h IH]; cbn [popleft_while]; [reflexivity|].
  destruct (Qleb t c) eqn:E.
  - rewrite IH. apply Qleb_true in E.
    assert (E' : Qleb t c' = true) by (apply Qleb_true; lra).
    rewrite E'. reflexivity.
  - reflexivity.
Qed.

Lemma cleanup_lookup (rh : gmap string (list Time)) (A : Z) (now : Time) (id : string) :
  default [] (cleanup_old_entries rh A now !! id)
  = popleft_while (now - inject_Z A)%Q (default [] (rh !! id)).
Proof.
  unfold cleanup_old_entries. cbv zeta. rewrite lookup_omap.
  destruct (rh !! id) as [h|]; cbn; [|reflexivity].
  destruct (popleft_while (now - inject_Z A)%Q h); reflexivity.
Qed.

(** [cleanup_old_entries] keeps no empty history (so identifiers that
    only [get_usage_stats] ever touched are dropped), every history it
    keeps is the old one pruned from the left, and it is invisible to
    admission: for a window no longer than [max_age_seconds] and a later
    clock reading, [is_allowed] returns the same verdict and metadata and
    leaves the same deque as it would have without the cleanup. *)
Theorem cleanup_is_invisible_to_admission
    (rh : gmap string (list Time)) (max_age : Z) (t_cleanup : Time) :
  let rh' := cleanup_old_entries rh max_age t_cleanup in
  (forall id h, rh' !! id = Some h ->
     h <> []
     /\ exists h0, rh !! id = Some h0
                   /\ h = popleft_while (t_cleanup - inject_Z max_age)%Q h0)
  /\ (forall id, rh !! id = Some [] -> rh' !! id = None)
  /\ (forall id L W now,
        W <= max_age -> (t_cleanup <= now)%Q ->
        fst (is_allowed rh' id L W now) = fst (is_allowed rh id L W now)
        /\ snd (is_allowed rh' id L W now) !! id = snd (is_allowed rh id L W now) !! id).
Proof.
  cbv zeta. split; [|split].
  - intros id h. unfold cleanup_old_entries. cbv zeta. rewrite lookup_omap.
    destruct (rh !! id) as [h0|]; cbn; [|discriminate].
    destruct (popleft_while (t_cleanup - inject_Z max_age)%Q h0) as [|t0 rest] eqn:E;
      [discriminate|].
    intros H. inversion H; subst h. split; [discriminate|].
    exists h0. split; [reflexivity|]. symmetry. exact E.
  - intros id H. unfold cleanup_old_entries. cbv zeta. rewrite lookup_omap, H.
    reflexivity.
  - intros id L W now HW Ht.
    unfold is_allowed. cbv zeta. cbn [fst snd].
    rewrite cleanup_lookup, popleft_while_twice.
    + split; [reflexivity|]. rewrite !lookup_insert_eq. reflexivity.
    + assert (inject_Z W <= inject_Z max_age)%Q by (unfold Qle; cbn; lia). lra.
Qed.

Lemma cleanup_is_invisible_to_admission_witness :
  let rh : gmap string (list Time) :=
    {[ "u:hour" := [10 # 1; 3000 # 1]%Q; "idle" := [] ]} in
  let rh' := cleanup_old_entries rh 3600 (3700 # 1)%Q in
  rh' !! "idle" = None
  /\ fst (is_allowed rh' "u:hour" 2 3600 (3800 # 1)%Q)
     = fst (is_allowed rh "u:hour" 2 3600 (3800 # 1)%Q).
Proof.
  cbv zeta.
  destruct (cleanup_is_invisible_to_admission
              {[ "u:hour" := [10 # 1; 3000 # 1]%Q; "idle" := [] ]} 3600 (3700 # 1)%Q)
    as (_ & Hidle & Hsame).
  split.
  - apply Hidle. reflexivity.
  - apply Hsame; [lia | vm_compute; discriminate].
Defined.

(** *** Keys and principals *)

Lemma list_ascii_of_app (s t : string) :
  String.list_ascii_of_string (s +:+ t) = String.list_ascii_of_string s ++ String.list_ascii_of_string t.
Proof. induction s as [|a s IH]; simpl; [reflexivity|]. f_equal. exact IH. Qed.

Lemma list_ascii_inj (s t : string) :
  String.list_ascii_of_string s = String.list_ascii_of_string t -> s = t.
Proof.
  intros H. rewrite <- (String.string_of_list_ascii_of_string s),
                    <- (String.string_of_list_ascii_of_string t), H. reflexivity.
Qed.

Lemma string_app_inj_r (s1 s2 t : string) : s1 +:+ t = s2 +:+ t -> s1 = s2.
Proof.
  intros H. apply list_ascii_inj.
  apply (f_equal String.list_ascii_of_string) in H. rewrite !list_ascii_of_app in H.
  exact (List.app_inv_tail _ _ _ H).
Qed.

Lemma minute_key_is_no_hour_key (s1 s2 : string) : s1 +:+ ":minute" <> s2 +:+ ":hour".
Proof.
  intros H. apply (f_equal String.list_ascii_of_string) in H.
  rewrite !list_ascii_of_app in H.
  change (String.list_ascii_of_string ":minute")
    with (String.list_ascii_of_string ":minut" ++ String.list_ascii_of_string "e") in H.
  change (String.list_ascii_of_string ":hour")
    with (String.list_ascii_of_string ":hou" ++ String.list_ascii_of_string "r") in H.
  rewrite !app_assoc in H. cbn [String.list_ascii_of_string] in H.
  apply List.app_inj_tail in H. destruct H as [_ H]. discriminate H.
Qed.

(** The verdict of the dual check reads only the two deques of the
    identifier. *)
Lemma check_depends_on_deques (rh1 rh2 : gmap string (list Time)) (id : string)
    (limits : Limits) (t_minute t_hour : Time) :
  rh1 !! (id +:+ ":minute") = rh2 !! (id +:+ ":minute") ->
  rh1 !! (id +:+ ":hour") = rh2 !! (id +:+ ":hour") ->
  fst (_check_rate_limits rh1 id limits t_minute t_hour)
  = fst (_check_rate_limits rh2 id limits t_minute t_hour).
Proof.
  intros HM HH. rewrite !check_rate_limits_unfold. cbv zeta. cbn [fst].
  destruct (is_allowed_depends_on_deque rh1 rh2 (id +:+ ":minute")
              (requests_per_minute limits) 60 t_minute) as [Hm _];
    [rewrite HM; reflexivity|].
  assert (Hh : fst (is_allowed (snd (is_allowed rh1 (id +:+ ":minute")
                                       (requests_per_minute limits) 60 t_minute))
                      (id +:+ ":hour") (requests_per_hour limits) 3600 t_hour)
               = fst (is_allowed (snd (is_allowed rh2 (id +:+ ":minute")
                                         (requests_per_minute limits) 60 t_minute))
                        (id +:+ ":hour") (requests_per_hour limits) 3600 t_hour)).
  { apply is_allowed_depends_on_deque.
    rewrite !(proj2 (is_allowed_verdict _ _ _ _ _)).
    rewrite !lookup_insert_ne by apply minute_hour_keys_differ.
    rewrite HH. reflexivity. }
  rewrite Hm, Hh. reflexivity.
Qed.

Lemma check_touches_own_keys (rh : gmap string (list Time)) (id : string)
    (limits : Limits) (t_minute t_hour : Time) (key : string) :
  key <> id +:+ ":minute" -> key <> id +:+ ":hour" ->
  snd (_check_rate_limits rh id limits t_minute t_hour) !! key = rh !! key.
Proof.
  intros HM HH. rewrite check_rate_limits_unfold. cbv zeta. cbn [snd].
  rewrite !(proj2 (is_allowed_verdict _ _ _ _ _)).
  rewrite !lookup_insert_ne by (intros E; symmetry in E; contradiction).
  reflexivity.
Qed.

(** Whom a request is charged to: the authenticated user, or else the
    client address ("unknown" when the request has none). *)
Definition principal (request : HttpRequest) : string + string :=
  match user request with
  | Some u => inl (user_id u)
  | None => inr (match client_host request with Some h => h | None => "unknown" end)
  end.

(** Requests are charged to the same identifier exactly when they come
    from the same principal, and charging one principal never changes
    the verdict for another: the dual check for the first request leaves
    the verdict and metadata of the second as they would have been. *)
Theorem principals_do_not_share_quota
    (rh : gmap string (list Time)) (r1 r2 : HttpRequest)
    (t1 t1' t2 t2' : Time) :
  (fst (_get_rate_limit_config r1) = fst (_get_rate_limit_config r2)
   <-> principal r1 = principal r2)
  /\ (principal r1 <> principal r2 ->
      let rh' := snd (_check_rate_limits rh (fst (_get_rate_limit_config r1))
                        (snd (_get_rate_limit_config r1)) t1 t1') in
      fst (_check_rate_limits rh' (fst (_get_rate_limit_config r2))
             (snd (_get_rate_limit_config r2)) t2 t2')
      = fst (_check_rate_limits rh (fst (_get_rate_limit_config r2))
               (snd (_get_rate_limit_config r2)) t2 t2')).
Proof.
  assert (Hid : fst (_get_rate_limit_config r1) = fst (_get_rate_limit_config r2)
                <-> principal r1 = principal r2).
  { unfold _get_rate_limit_config, principal.
    destruct (user r1) as [u1|], (user r2) as [u2|]; cbn [fst].
    - split; intros H.
      + apply (inj (String.app "user:")) in H. rewrite H. reflexivity.
      + inversion H as [H']. rewrite H'. reflexivity.
    - split; intros H; [|discriminate H]. cbn in H. discriminate H.
    - split; intros H; [|discriminate H]. cbn in H. discriminate H.
    - split; intros H.
      + apply (inj (String.app "ip:")) in H. rewrite H. reflexivity.
      + inversion H as [H']. rewrite H'. reflexivity. }
  split; [exact Hid|].
  intros Hne. cbv zeta.
  set (id1 := fst (_get_rate_limit_config r1)) in *.
  set (id2 := fst (_get_rate_limit_config r2)) in *.
  assert (Hids : id1 <> id2) by (intros E; apply Hne, Hid, E).
  apply check_depends_on_deques; apply check_touches_own_keys.
  - intros E. apply string_app_inj_r in E. auto.
  - intros E. exact (minute_key_is_no_hour_key _ _ E).
  - intros E. symmetry in E. exact (minute_key_is_no_hour_key _ _ E).
  - intros E. apply string_app_inj_r in E. auto.
Qed.

Lemma principals_do_not_share_quota_witness :
  let alice := mkHttpRequest "/v1/summarize" "POST" (Some (mkUser "alice" USER None)) None in
  let anon := mkHttpRequest "/v1/summarize" "POST" None (Some "10.0.0.7") in
  let rh' := snd (_check_rate_limits ∅ (fst (_get_rate_limit_config alice))
                    (snd (_get_rate_limit_config alice)) (1 # 1)%Q (1 # 1)%Q) in
  fst (_check_rate_limits rh' (fst (_get_rate_limit_config anon))
         (snd (_get_rate_limit_config anon)) (2 # 1)%Q (2 # 1)%Q)
  = fst (_check_rate_limits ∅ (fst (_get_rate_limit_config anon))
           (snd (_get_rate_limit_config anon)) (2 # 1)%Q (2 # 1)%Q).
Proof.
  cbv zeta.
  apply (proj2 (principals_do_not_share_quota ∅
                  (mkHttpRequest "/v1/summarize" "POST" (Some (mkUser "alice" USER None)) None)
                  (mkHttpRequest "/v1/summarize" "POST" None (Some "10.0.0.7"))
                  (1 # 1)%Q (1 # 1)%Q (2 # 1)%Q (2 # 1)%Q)).
  discriminate.
Defined.

(** *** The middleware *)

Section MiddlewareProperties.

Context {R : Type}.

(** The request is not subject to rate limiting. *)
Definition bypasses (enable_rate_limit : bool) (request : HttpRequest) : bool :=
  negb enable_rate_limit
  || bool_decide (path request ∈ exempt_paths)
  || bool_decide (method request = "OPTIONS").

Lemma retry_after_positive (rh : gmap string (list Time)) (id : string)
    (limits : Limits) (t_minute t_hour : Time) :
  1 <= r_retry_after (fst (_check_rate_limits rh id limits t_minute t_hour)).
Proof.
  rewrite check_rate_limits_unfold. cbv zeta. cbn [fst r_retry_after].
  repeat match goal with |- context [if ?c then _ else _] => destruct c end;
    unfold is_allowed; cbn [fst snd retry_after]; lia.
Qed.

(** A request that bypasses rate limiting (limiting disabled, an exempt
    path, or an [OPTIONS] request) is handed to the application once and
    leaves the limiter untouched.  Any other request is checked first:
    when the check denies it, the application is never called and the
    429 response announces a remaining quota of "0" and a [Retry-After]
    of at least one second; either way the limiter has recorded the
    check. *)
Theorem middleware_rejects_before_the_application
    (enable_rate_limit : bool) (rh : gmap string (list Time))
    (request : HttpRequest) (call_next : nat -> Result R) (t_minute t_hour : Time) :
  let out := RateLimitMiddleware__call__ enable_rate_limit rh request call_next
               t_minute t_hour in
  let check := _check_rate_limits rh (fst (_get_rate_limit_config request))
                 (snd (_get_rate_limit_config request)) t_minute t_hour in
  (bypasses enable_rate_limit request = true ->
     limiter out = rh /\ downstream_calls out = 1%nat
     /\ served out = match call_next 0%nat with
                     | Return response => Return (Forwarded response None)
                     | Raise e => Raise e
                     end)
  /\ (bypasses enable_rate_limit request = false ->
      limiter out = snd check
      /\ (allowed (fst check) = false ->
          downstream_calls out = 0%nat
          /\ served out
             = Return (TooManyRequests
                         (mkRateHeaders (pretty (r_limit (fst check))) "0"
                                        (pretty (r_reset (fst check))))
                         (pretty (r_retry_after (fst check))))
          /\ 1 <= r_retry_after (fst check))).
Proof.
  cbv zeta. unfold bypasses, RateLimitMiddleware__call__. split.
  - intros Hb.
    destruct (negb enable_rate_limit); [auto|].
    destruct (bool_decide (path request ∈ exempt_paths)); [auto|].
    destruct (bool_decide (method request = "OPTIONS")); [auto|].
    discriminate Hb.
  - intros Hb.
    destruct (negb enable_rate_limit); [discriminate Hb|].
    destruct (bool_decide (path request ∈ exempt_paths)); [discriminate Hb|].
    destruct (bool_decide (method request = "OPTIONS")); [discriminate Hb|].
    destruct (_get_rate_limit_config request) as [identifier limits]. cbn [fst snd].
    pose proof (retry_after_positive rh identifier limits t_minute t_hour) as Hpos.
    destruct (_check_rate_limits rh identifier limits t_minute t_hour) as [res rh'].
    cbn [fst snd] in *.
    destruct (allowed res); cbn [negb].
    + split; [|discriminate].
      destruct (call_next 0%nat) as [resp|e]; [reflexivity|].
      destruct (isinstance e PyException); reflexivity.
    + split; [reflexivity|]. intros _. auto.
Qed.

(** The middleware fails open: when the request was allowed and the
    application raises an [Exception], the handler calls the application
    a second time for the same request and returns whatever that call
    gives, without rate-limit headers; the quota charged by the check is
    not refunded. *)
Theorem middleware_calls_the_application_again_on_error
    (rh : gmap string (list Time)) (request : HttpRequest)
    (call_next : nat -> Result R) (t_minute t_hour : Time) (e : Exn) :
  bypasses true request = false ->
  allowed (fst (_check_rate_limits rh (fst (_get_rate_limit_config request))
                  (snd (_get_rate_limit_config request)) t_minute t_hour)) = true ->
  call_next 0%nat = Raise e -> isinstance e PyException = true ->
  let out := RateLimitMiddleware__call__ true rh request call_next t_minute t_hour in
  downstream_calls out = 2%nat
  /\ served out = match call_next 1%nat with
                  | Return response => Return (Forwarded response None)
                  | Raise e' => Raise e'
                  end
  /\ limiter out = snd (_check_rate_limits rh (fst (_get_rate_limit_config request))
                          (snd (_get_rate_limit_config request)) t_minute t_hour).
Proof.
  unfold bypasses, RateLimitMiddleware__call__. cbn [negb orb].
  intros Hb Hallowed Hcall He. cbv zeta.
  destruct (bool_decide (path request ∈ exempt_paths)); [discriminate Hb|].
  destruct (bool_decide (method request = "OPTIONS")); [discriminate Hb|].
  destruct (_get_rate_limit_config request) as [identifier limits]. cbn [fst snd] in *.
  destruct (_check_rate_limits rh identifier limits t_minute t_hour) as [res rh'].
  cbn [fst snd] in *. rewrite Hallowed, Hcall, He. cbn [negb]. auto.
Qed.

End MiddlewareProperties.

Definition summarize_request : HttpRequest :=
  mkHttpRequest "/v1/summarize" "POST" None (Some "10.0.0.7").

Lemma middleware_rejects_before_the_application_witness :
  let rh : gmap string (list Time) :=
    {[ "ip:10.0.0.7:hour" := List.repeat (1 # 1)%Q 100 ]} in
  let out := RateLimitMiddleware__call__ true rh summarize_request
               (fun _ => Return "200 OK") (2 # 1)%Q (2 # 1)%Q in
  downstream_calls out = 0%nat
  /\ (let out' := RateLimitMiddleware__call__ true rh
                    (mkHttpRequest "/v1/healthz" "GET" None (Some "10.0.0.7"))
                    (fun _ => Return "200 OK") (2 # 1)%Q (2 # 1)%Q in
      limiter out' = rh /\ downstream_calls out' = 1%nat).
Proof.
  cbv zeta.
  set (rh := ({[ "ip:10.0.0.7:hour" := List.repeat (1 # 1)%Q 100 ]}
              : gmap string (list Time))).
  split.
  - destruct (proj2 (middleware_rejects_before_the_application (R:=string) true rh
                       summarize_request (fun _ => Return "200 OK") (2 # 1)%Q (2 # 1)%Q))
      as [_ Hdenied]; [reflexivity|].
    destruct Hdenied as (H0 & _); [vm_compute; reflexivity|exact H0].
  - destruct (proj1 (middleware_rejects_before_the_application (R:=string) true rh
                       (mkHttpRequest "/v1/healthz" "GET" None (Some "10.0.0.7"))
                       (fun _ => Return "200 OK") (2 # 1)%Q (2 # 1)%Q))
      as (H1 & H2 & _); [reflexivity|]. split; assumption.
Defined.

Lemma middleware_calls_the_application_again_on_error_witness :
  let out := RateLimitMiddleware__call__ true ∅ summarize_request
               (fun i => match i with
                         | O => Raise (mkExn ValueError "boom")
                         | _ => Return "200 OK"
                         end) (2 # 1)%Q (2 # 1)%Q in
  downstream_calls out = 2%nat
  /\ served out = Return (Forwarded "200 OK" None)
  /\ limiter out !! "ip:10.0.0.7:minute" = Some [2 # 1]%Q.
Proof.
  cbv zeta.
  destruct (middleware_calls_the_application_again_on_error (R:=string) ∅
              summarize_request
              (fun i => match i with
                        | O => Raise (mkExn ValueError "boom")
                        | _ => Return "200 OK"
                        end) (2 # 1)%Q (2 # 1)%Q (mkExn ValueError "boom"))
    as (H1 & H2 & H3); [reflexivity | reflexivity | reflexivity | reflexivity |].
  split; [exact H1|]. split; [exact H2|]. rewrite H3. reflexivity.
Defined.

End RateLimitOpsSpec.

(** * Further properties of the breaker and the orchestrator *)

Module SummaryServiceOpsSpec.
Import Fallback SummaryService SummaryServiceOps SummaryServiceSpec.

(** What every breaker reachable from [__init__] satisfies. *)
Definition breaker_consistent (T R : Z) (cls : ExcClass) (calls : list GuardedCall)
    (cb : CircuitBreaker.t) : Prop :=
  CircuitBreaker.failure_threshold cb = T
  /\ CircuitBreaker.recovery_timeout cb = R
  /\ CircuitBreaker.expected_exception cb = cls
  /\ 0 <= CircuitBreaker.failure_count cb
  /\ (CircuitBreaker.is_open cb = true ->
      T <= CircuitBreaker.failure_count cb
      /\ exists c, List.In c calls
                   /\ CircuitBreaker.last_failure_time cb = Some (left_at c)).

Lemma breaker_consistent_step (T R : Z) (cls : ExcClass) (calls : list GuardedCall)
    (cb : CircuitBreaker.t) (c : GuardedCall) :
  breaker_consistent T R cls calls cb ->
  breaker_consistent T R cls (calls ++ [c]) (breaker_after_call cb c).
Proof.
  intros (HT & HR & Hcls & Hcount & Hopen).
  assert (Hkeep : breaker_consistent T R cls (calls ++ [c]) cb).
  { repeat split; try assumption; destruct (Hopen H) as (H1 & c0 & Hin & Hl); [exact H1|].
    exists c0. split; [apply List.in_or_app; left; exact Hin|exact Hl]. }
  unfold breaker_after_call, CircuitBreaker.guarded_call, CircuitBreaker.__aenter__.
  assert (Hexit : forall cb0 : CircuitBreaker.t,
            CircuitBreaker.failure_threshold cb0 = T ->
            CircuitBreaker.recovery_timeout cb0 = R ->
            CircuitBreaker.expected_exception cb0 = cls ->
            0 <= CircuitBreaker.failure_count cb0 ->
            CircuitBreaker.is_open cb0 = false ->
            breaker_consistent T R cls (calls ++ [c])
              (CircuitBreaker.__aexit__ cb0
                 (raised (match body_raises c with
                          | Some e => Raise e
                          | None => Return tt
                          end)) (left_at c))).
  { intros cb0 H1 H2 H3 H4 H5. unfold CircuitBreaker.__aexit__.
    assert (Hclosed : forall P : Prop, CircuitBreaker.is_open cb0 = true -> P).
    { intros P Hf. rewrite H5 in Hf. discriminate Hf. }
    destruct (body_raises c) as [e|]; cbn [raised].
    - destruct (isinstance e (CircuitBreaker.expected_exception cb0)).
      + cbn -[Z.geb]. rewrite Z.geb_leb, H1.
        destruct (T <=? CircuitBreaker.failure_count cb0 + 1) eqn:E.
        * apply Z.leb_le in E. unfold breaker_consistent. cbn.
          split; [exact H1|]. split; [exact H2|]. split; [exact H3|].
          split; [lia|]. intros _. split; [exact E|].
          exists c. split; [apply List.in_or_app; right; left; reflexivity|reflexivity].
        * unfold breaker_consistent. cbn.
          split; [exact H1|]. split; [exact H2|]. split; [exact H3|].
          split; [lia|]. apply Hclosed.
      + unfold breaker_consistent.
        split; [exact H1|]. split; [exact H2|]. split; [exact H3|].
        split; [exact H4|]. apply Hclosed.
    - unfold breaker_consistent. cbn.
      split; [exact H1|]. split; [exact H2|]. split; [exact H3|].
      split; [lia|]. apply Hclosed. }
  destruct (CircuitBreaker.is_open cb) eqn:Eo.
  - destruct (CircuitBreaker._should_attempt_reset cb (entered_at c)).
    + cbn [CircuitBreaker.breaker]. apply Hexit; cbn; try assumption; try reflexivity; lia.
    + cbn [CircuitBreaker.breaker]. exact Hkeep.
  - cbn [CircuitBreaker.breaker]. apply Hexit; assumption.
Qed.

(** Whatever guarded calls a breaker has gone through since
    [__init__]: its three settings are those it was created with, its
    failure count is not negative, and whenever it is open the count has
    reached the threshold and the recorded failure time is the exit
    time of one of the calls (so the reset test of an open breaker
    always compares against a real failure time). *)
Theorem breaker_stays_consistent (T R : Z) (cls : ExcClass) (calls : list GuardedCall) :
  let cb := breaker_after_calls (CircuitBreaker.__init__ T R cls) calls in
  CircuitBreaker.failure_threshold cb = T
  /\ CircuitBreaker.recovery_timeout cb = R
  /\ CircuitBreaker.expected_exception cb = cls
  /\ 0 <= CircuitBreaker.failure_count cb
  /\ (CircuitBreaker.is_open cb = true ->
      T <= CircuitBreaker.failure_count cb
      /\ exists c, List.In c calls
                   /\ CircuitBreaker.last_failure_time cb = Some (left_at c)).
Proof.
  cbv zeta.
  change (breaker_consistent T R cls calls
            (breaker_after_calls (CircuitBreaker.__init__ T R cls) calls)).
  unfold breaker_after_calls.
  induction calls as [|c calls IH] using rev_ind.
  - unfold breaker_consistent. cbn.
    do 3 (split; [reflexivity|]). split; [lia|]. intros Hf. discriminate Hf.
  - rewrite fold_left_app. cbn [fold_left]. apply breaker_consistent_step, IH.
Qed.

Lemma breaker_stays_consistent_witness :
  let calls := [mkGuardedCall (1 # 1) (Some CircuitBreakerSpec.quota_error) (2 # 1);
                mkGuardedCall (3 # 1) None (4 # 1);
                mkGuardedCall (5 # 1) (Some CircuitBreakerSpec.timeout_error) (6 # 1);
                mkGuardedCall (7 # 1) (Some CircuitBreakerSpec.quota_error) (8 # 1);
                mkGuardedCall (9 # 1) None (10 # 1)]%Q in
  let cb := breaker_after_calls (CircuitBreaker.__init__ 2 60 LLMProviderError) calls in
  CircuitBreaker.is_open cb = true
  /\ 2 <= CircuitBreaker.failure_count cb
  /\ exists c, List.In c calls /\ CircuitBreaker.last_failure_time cb = Some (left_at c).
Proof.
  cbv zeta. split; [reflexivity|].
  destruct (breaker_stays_consistent 2 60 LLMProviderError
              [mkGuardedCall (1 # 1) (Some CircuitBreakerSpec.quota_error) (2 # 1);
               mkGuardedCall (3 # 1) None (4 # 1);
               mkGuardedCall (5 # 1) (Some CircuitBreakerSpec.timeout_error) (6 # 1);
               mkGuardedCall (7 # 1) (Some CircuitBreakerSpec.quota_error) (8 # 1);
               mkGuardedCall (9 # 1) None (10 # 1)]%Q)
    as (_ & _ & _ & _ & Hopen).
  exact (Hopen eq_refl).
Defined.

(** *** Exceptions the orchestrator does not handle *)

(** The [except] clause of step 2 catches exactly the subclasses of
    [LLMProviderError]. *)
Lemma provider_failures_are_LLMProviderError (e : Exn) :
  isinstance_any e provider_failures = isinstance e LLMProviderError.
Proof.
  unfold isinstance_any, provider_failures, isinstance. cbn [existsb].
  destruct (exc_class e); reflexivity.
Qed.

(** An exception of the provider that is neither an [LLMProviderError]
    nor the [asyncio] timeout (a [ValueError], say) is not turned into a
    fallback: once the breaker lets the call through, [generate_summary]
    raises that very exception whatever fallback services are
    configured, stores nothing in the cache, and the orchestrator's
    breaker (which counts [LLMProviderError]) is left as [__aenter__]
    left it. *)
Theorem unexpected_provider_error_reaches_caller {S : Type}
    (settings_redis_ttl : Z) (get_cache_key : SummaryRequest -> string)
    (svc : SummaryService.t S) (st st0 : S) (request : SummaryRequest)
    (now_in now_out : Time) (e : Exn) (cb1 : CircuitBreaker.t) :
  match cache_service svc with
  | Some cache => _try_cache_lookup get_cache_key cache st request = (Return None, st0)
  | None => st0 = st
  end ->
  CircuitBreaker.expected_exception (circuit_breaker svc) = LLMProviderError ->
  CircuitBreaker.__aenter__ (circuit_breaker svc) now_in = (Return tt, cb1) ->
  llm_provider svc request = Raise e ->
  isinstance e LLMProviderError = false ->
  isinstance e AsyncioTimeoutError = false ->
  SummaryService.generate_summary settings_redis_ttl get_cache_key
    svc st request now_in now_out
  = mkOutcome (Raise e) true cb1 st0.
Proof.
  intros Hmiss Hexp Henter Hllm Hq Ht.
  assert (Hexp1 : CircuitBreaker.expected_exception cb1 = LLMProviderError).
  { unfold CircuitBreaker.__aenter__ in Henter.
    destruct (CircuitBreaker.is_open (circuit_breaker svc)).
    - destruct (CircuitBreaker._should_attempt_reset (circuit_breaker svc) now_in);
        inversion Henter; subst cb1; exact Hexp.
    - inversion Henter; subst cb1; exact Hexp. }
  unfold SummaryService.generate_summary.
  assert (Hgen : generate_after_miss settings_redis_ttl get_cache_key
                   svc st0 request now_in now_out
                 = mkOutcome (Raise e) true cb1 st0).
  { unfold generate_after_miss, _try_llm_generation, CircuitBreaker.guarded_call.
    rewrite Henter, Hllm, Ht.
    cbn [CircuitBreaker.outcome CircuitBreaker.invoked CircuitBreaker.breaker raised].
    rewrite provider_failures_are_LLMProviderError, Hq.
    unfold CircuitBreaker.__aexit__. rewrite Hexp1, Hq. reflexivity. }
  destruct (cache_service svc) as [cache|]; [rewrite Hmiss|subst st0]; exact Hgen.
Qed.

(** A provider that fails on a bad configuration value, in front of the
    two default summarizers. *)
Definition value_error : Exn := mkExn ValueError "invalid model name".

Definition misconfigured_service : SummaryService.t unit :=
  SummaryService.mk (fun _ => Raise value_error) [demo_textrank; demo_tfidf] None
    (CircuitBreaker.__init__ 3 60 LLMProviderError).

Lemma unexpected_provider_error_reaches_caller_witness :
  SummaryService.generate_summary 3600 (fun _ => "summary:k")
    misconfigured_service tt CacheKeySpec.alice_request (0 # 1)%Q (1 # 1)%Q
  = mkOutcome (Raise value_error) true (CircuitBreaker.__init__ 3 60 LLMProviderError) tt.
Proof.
  apply (unexpected_provider_error_reaches_caller 3600 (fun _ => "summary:k")
           misconfigured_service tt tt CacheKeySpec.alice_request (0 # 1)%Q (1 # 1)%Q
           value_error);
    reflexivity.
Defined.


(** *** The orchestrator in front of the in-memory cache *)

Section OverMemoryCache.

Variable settings_redis_ttl : Z.
Variable get_cache_key : SummaryRequest -> string.

(** An entry written with a ttl of [s] whole seconds is read back until
    [s] seconds after the write. *)
Lemma memory_hit_after_set (store : MemoryCache.MemoryCacheService) (key : string)
    (r : SummaryResponse) (s : Z) (t_set t_get t_access : Time) :
  s <> 0 ->
  (t_get <= t_set + inject_Z s)%Q ->
  fst (MemoryCache.get_summary
         (snd (MemoryCache.set_summary store key r
                 (Some (MemoryCache.timedelta_of_seconds s)) t_set))
         key t_get t_access)
  = Some r.
Proof.
  intros Hs Hlive. unfold MemoryCache.get_summary.
  destruct (MemoryCacheSpec.set_summary_cache store key r
              (Some (MemoryCache.timedelta_of_seconds s)) t_set) as (Hc & _ & _).
  cbv zeta in Hc. rewrite Hc.
  rewrite MemoryCacheSpec.od_get_snoc by apply MemoryCacheSpec.od_get_del_eq.
  assert (Httl : MemoryCache.ttl_seconds_of store
                   (Some (MemoryCache.timedelta_of_seconds s)) = s).
  { unfold MemoryCache.ttl_seconds_of.
    assert (E : (MemoryCache.timedelta_of_seconds s =? 0) = false).
    { apply Z.eqb_neq. unfold MemoryCache.timedelta_of_seconds. lia. }
    rewrite E. apply MemoryCacheSpec.py_int_whole_seconds. }
  rewrite Httl. unfold MemoryCache.is_expired, MemoryCache.CacheEntry__init__.
  cbn [MemoryCache.expires_at].
  rewrite (proj2 (MemoryCacheSpec.Qgtb_false _ _) Hlive). reflexivity.
Qed.

(** A request whose key is live in the store is answered in step 1. *)
Lemma answered_from_memory (svc : SummaryService.t MemoryCache.MemoryCacheService)
    (store : MemoryCache.MemoryCacheService) (request : SummaryRequest)
    (r : SummaryResponse) (t_get t_access t_set now_in now_out : Time) :
  cache_service svc = Some (memory_cache_service t_get t_access t_set) ->
  fst (MemoryCache.get_summary store (get_cache_key request) t_get t_access) = Some r ->
  let out := SummaryService.generate_summary settings_redis_ttl get_cache_key svc store request now_in now_out in
  result out = Return (mark_cache_hit r)
  /\ provider_called out = false
  /\ breaker_after out = circuit_breaker svc.
Proof.
  intros Hc Hget. cbv zeta. unfold SummaryService.generate_summary. rewrite Hc.
  unfold _try_cache_lookup, memory_cache_service. cbn [cs_get_summary].
  destruct (MemoryCache.get_summary store (get_cache_key request) t_get t_access)
    as [[r'|] st'] eqn:E; cbn [fst] in Hget; [|discriminate Hget].
  inversion Hget; subst r'. cbn. auto.
Qed.

(** A response of the provider is stored under the request's cache key
    for [settings.redis_ttl] seconds: when the first request misses the
    store and the provider answers it, a later request with the same
    cache key whose lookup happens no later than [redis_ttl] seconds
    after the write gets that response back with [cache_hit] set and
    [source] [CACHE]; the provider is not called for it and the breaker
    is not touched. *)
Theorem provider_response_is_served_from_cache
    (llm : SummaryRequest -> Result SummaryResponse) (fallbacks : list FallbackService)
    (cb cb1 : CircuitBreaker.t) (store store1 : MemoryCache.MemoryCacheService)
    (request request' : SummaryRequest) (r : SummaryResponse)
    (t_get t_access t_set now_in now_out : Time)
    (t_get' t_access' t_set' now_in' now_out' : Time) :
  settings_redis_ttl <> 0 ->
  MemoryCache.get_summary store (get_cache_key request) t_get t_access = (None, store1) ->
  CircuitBreaker.__aenter__ cb now_in = (Return tt, cb1) ->
  llm request = Return r ->
  get_cache_key request' = get_cache_key request ->
  (t_get' <= t_set + inject_Z settings_redis_ttl)%Q ->
  let out1 := SummaryService.generate_summary settings_redis_ttl get_cache_key
                (SummaryService.mk llm fallbacks
                          (Some (memory_cache_service t_get t_access t_set)) cb)
                store request now_in now_out in
  let out2 := SummaryService.generate_summary settings_redis_ttl get_cache_key
                (SummaryService.mk llm fallbacks
                          (Some (memory_cache_service t_get' t_access' t_set'))
                          (breaker_after out1))
                (cache_after out1) request' now_in' now_out' in
  result out1 = Return r
  /\ provider_called out1 = true
  /\ result out2 = Return (mark_cache_hit r)
  /\ provider_called out2 = false
  /\ breaker_after out2 = breaker_after out1.
Proof.
  intros Hs Hmiss Henter Hllm Hkey Hlive. cbv zeta.
  assert (Hout1 :
            SummaryService.generate_summary settings_redis_ttl get_cache_key
                (SummaryService.mk llm fallbacks
                        (Some (memory_cache_service t_get t_access t_set)) cb)
              store request now_in now_out
            = mkOutcome (Return r) true (CircuitBreaker.set_failure_count 0 cb1)
                (snd (MemoryCache.set_summary store1 (get_cache_key request) r
                        (Some (MemoryCache.timedelta_of_seconds settings_redis_ttl))
                        t_set))).
  { unfold SummaryService.generate_summary. cbn [cache_service].
    unfold _try_cache_lookup, memory_cache_service at 1. cbn [cs_get_summary].
    rewrite Hmiss.
    unfold generate_after_miss, _try_llm_generation, CircuitBreaker.guarded_call.
    cbn [circuit_breaker llm_provider]. rewrite Henter, Hllm.
    cbn [CircuitBreaker.outcome CircuitBreaker.invoked CircuitBreaker.breaker raised
         CircuitBreaker.__aexit__].
    unfold store_if_cached, _try_cache_store, memory_cache_service.
    cbn [cache_service cs_set_summary].
    destruct (MemoryCache.set_summary store1 (get_cache_key request) r
                (Some (MemoryCache.timedelta_of_seconds settings_redis_ttl)) t_set)
      as [b st2]. reflexivity. }
  rewrite Hout1. cbn [result provider_called breaker_after cache_after].
  split; [reflexivity|]. split; [reflexivity|].
  refine (answered_from_memory
            (SummaryService.mk llm fallbacks
               (Some (memory_cache_service t_get' t_access' t_set'))
               (CircuitBreaker.set_failure_count 0 cb1))
            _ request' r t_get' t_access' t_set' now_in' now_out' eq_refl _).
  rewrite Hkey. apply memory_hit_after_set; assumption.
Qed.

(** A fallback response is stored for 300 seconds, whatever
    [settings.redis_ttl] is.  When the first request misses the store,
    the provider path fails and the fallback chain returns [r], a later
    request with the same cache key whose lookup happens no later than
    300 seconds after the write is answered with [r] marked as a cache
    hit: the provider, whatever it would answer by then, is not called,
    and the response no longer counts as a fallback response. *)
Theorem fallback_response_is_cached_for_300_seconds
    (llm llm' : SummaryRequest -> Result SummaryResponse)
    (fallbacks : list FallbackService)
    (cb : CircuitBreaker.t) (store store1 : MemoryCache.MemoryCacheService)
    (request request' : SummaryRequest) (r : SummaryResponse)
    (t_get t_access t_set now_in now_out : Time)
    (t_get' t_access' t_set' now_in' now_out' : Time) :
  MemoryCache.get_summary store (get_cache_key request) t_get t_access = (None, store1) ->
  (CircuitBreaker.is_open cb = true
   /\ CircuitBreaker._should_attempt_reset cb now_in = false)
  \/ (exists e0, llm request = Raise e0
                 /\ isinstance e0 LLMProviderError || isinstance e0 AsyncioTimeoutError
                    = true) ->
  fallback_loop fallbacks request None = Return r ->
  get_cache_key request' = get_cache_key request ->
  (t_get' <= t_set + inject_Z 300)%Q ->
  let out1 := SummaryService.generate_summary settings_redis_ttl get_cache_key
                (SummaryService.mk llm fallbacks
                   (Some (memory_cache_service t_get t_access t_set)) cb)
                store request now_in now_out in
  let out2 := SummaryService.generate_summary settings_redis_ttl get_cache_key
                (SummaryService.mk llm' fallbacks
                   (Some (memory_cache_service t_get' t_access' t_set'))
                   (breaker_after out1))
                (cache_after out1) request' now_in' now_out' in
  result out1 = Return r
  /\ result out2 = Return (mark_cache_hit r)
  /\ provider_called out2 = false
  /\ is_fallback_response (mark_cache_hit r) = false.
Proof.
  intros Hmiss Hfail Hfb Hkey Hlive. cbv zeta.
  set (svc := SummaryService.mk llm fallbacks
                (Some (memory_cache_service t_get t_access t_set)) cb).
  assert (Hout1 :
            exists called cb',
              SummaryService.generate_summary settings_redis_ttl get_cache_key
                svc store request now_in now_out
              = mkOutcome (Return r) called cb'
                  (snd (MemoryCache.set_summary store1 (get_cache_key request) r
                          (Some (MemoryCache.timedelta_of_seconds 300)) t_set))).
  { unfold SummaryService.generate_summary. cbn [cache_service svc].
    unfold _try_cache_lookup, memory_cache_service at 1. cbn [cs_get_summary].
    rewrite Hmiss.
    destruct (provider_path_fails svc request now_in now_out Hfail) as (e & Hout & Hq).
    unfold generate_after_miss. fold svc. rewrite Hout.
    rewrite (isinstance_provider_failure e Hq).
    unfold _try_fallback_generation. cbn [fallback_services svc]. rewrite Hfb.
    unfold store_if_cached, _try_cache_store. cbn [cache_service svc].
    unfold memory_cache_service. cbn [cs_set_summary].
    destruct (MemoryCache.set_summary store1 (get_cache_key request) r
                (Some (MemoryCache.timedelta_of_seconds 300)) t_set)
      as [b st2]. eexists _, _. reflexivity. }
  destruct Hout1 as (called & cb' & Hout1). rewrite Hout1.
  cbn [result cache_after breaker_after]. split; [reflexivity|].
  destruct (answered_from_memory
              (SummaryService.mk llm' fallbacks
                 (Some (memory_cache_service t_get' t_access' t_set')) cb')
              (snd (MemoryCache.set_summary store1 (get_cache_key request) r
                      (Some (MemoryCache.timedelta_of_seconds 300)) t_set))
              request' r t_get' t_access' t_set' now_in' now_out' eq_refl)
    as (H1 & H2 & _).
  { rewrite Hkey. apply memory_hit_after_set; [discriminate|exact Hlive]. }
  split; [exact H1|]. split; [exact H2|reflexivity].
Qed.


End OverMemoryCache.


(** *** The breaker across requests *)

Section AcrossRequests.

Context {S : Type}.
Variable settings_redis_ttl : Z.
Variable get_cache_key : SummaryRequest -> string.

(** The provider call for [request] ends in an error of step 2. *)
Definition provider_fails (svc : SummaryService.t S) (request : SummaryRequest) : Prop :=
  exists e0, llm_provider svc request = Raise e0
             /\ isinstance e0 LLMProviderError || isinstance e0 AsyncioTimeoutError = true.

Lemma guarded_call_keeps_timeout {A : Type} (cb : CircuitBreaker.t) (t_in t_out : Time)
    (body : unit -> Result A) :
  CircuitBreaker.recovery_timeout
    (CircuitBreaker.breaker (CircuitBreaker.guarded_call cb t_in body t_out))
  = CircuitBreaker.recovery_timeout cb.
Proof.
  unfold CircuitBreaker.guarded_call, CircuitBreaker.__aenter__, CircuitBreaker.__aexit__.
  destruct (CircuitBreaker.is_open cb);
    [destruct (CircuitBreaker._should_attempt_reset cb t_in)|];
    cbn [CircuitBreaker.breaker]; try reflexivity;
    destruct (body tt) as [v|e]; cbn [raised]; try reflexivity;
    match goal with |- context [isinstance ?x ?c] => destruct (isinstance x c) end;
    try reflexivity;
    match goal with |- context [?a >=? ?b] => destruct (a >=? b) end; reflexivity.
Qed.

(** Without a cache, a request whose provider call fails goes through
    the breaker and then to the fallback chain. *)
Lemma failing_request_without_cache (svc : SummaryService.t S) (cb : CircuitBreaker.t)
    (st : S) (request : SummaryRequest) (t_in t_out : Time) :
  cache_service svc = None ->
  provider_fails svc request ->
  exists e,
    isinstance e LLMProviderError = true
    /\ SummaryService.generate_summary settings_redis_ttl get_cache_key
         (with_breaker svc cb) st request t_in t_out
       = mkOutcome (_try_fallback_generation svc request)
           (CircuitBreaker.invoked
              (CircuitBreaker.guarded_call (A:=SummaryResponse) cb t_in
                 (fun _ => Raise e) t_out))
           (CircuitBreaker.breaker
              (CircuitBreaker.guarded_call (A:=SummaryResponse) cb t_in
                 (fun _ => Raise e) t_out))
           st.
Proof.
  intros Hnone (e0 & Hllm & Hq).
  exists (if isinstance e0 AsyncioTimeoutError then llm_timeout_error else e0).
  split.
  { destruct (isinstance e0 AsyncioTimeoutError); [reflexivity|].
    rewrite orb_false_r in Hq. exact Hq. }
  unfold SummaryService.generate_summary. cbn [cache_service with_breaker]. rewrite Hnone.
  unfold generate_after_miss, _try_llm_generation, CircuitBreaker.guarded_call.
  cbn [circuit_breaker llm_provider with_breaker]. rewrite Hllm.
  unfold store_if_cached, _try_fallback_generation.
  cbn [cache_service fallback_services with_breaker]. rewrite Hnone.
  destruct (CircuitBreaker.__aenter__ cb t_in) as [[[]|e1] cb'] eqn:Eenter;
    cbn [CircuitBreaker.outcome CircuitBreaker.invoked CircuitBreaker.breaker].
  - destruct (isinstance e0 AsyncioTimeoutError) eqn:Et.
    + cbn [isinstance_any]. 
      destruct (fallback_loop (fallback_services svc) request None); reflexivity.
    + rewrite orb_false_r in Hq. rewrite (isinstance_provider_failure e0 Hq).
      destruct (fallback_loop (fallback_services svc) request None); reflexivity.
  - apply aenter_raises_only_open_error in Eenter. subst e1.
    destruct (fallback_loop (fallback_services svc) request None); reflexivity.
Qed.

(** Without a cache, a request that finds the breaker open before its
    timeout goes to the fallback chain without a provider call. *)
Lemma request_while_open (svc : SummaryService.t S) (cb : CircuitBreaker.t)
    (st : S) (request : SummaryRequest) (tf t_in t_out : Time) :
  cache_service svc = None ->
  CircuitBreaker.is_open cb = true ->
  CircuitBreaker.last_failure_time cb = Some tf ->
  (t_in - tf < inject_Z (CircuitBreaker.recovery_timeout cb))%Q ->
  SummaryService.generate_summary settings_redis_ttl get_cache_key
    (with_breaker svc cb) st request t_in t_out
  = mkOutcome (_try_fallback_generation svc request) false cb st.
Proof.
  intros Hnone Ho Hl Hearly.
  unfold SummaryService.generate_summary. cbn [cache_service with_breaker]. rewrite Hnone.
  unfold generate_after_miss, _try_llm_generation, CircuitBreaker.guarded_call.
  cbn [circuit_breaker llm_provider with_breaker].
  rewrite (CircuitBreakerSpec.enter_too_early cb tf t_in Ho Hl Hearly).
  unfold store_if_cached, _try_fallback_generation.
  cbn [cache_service fallback_services with_breaker CircuitBreaker.outcome
       CircuitBreaker.invoked CircuitBreaker.breaker]. rewrite Hnone.
  destruct (fallback_loop (fallback_services svc) request None); reflexivity.
Qed.

(** Failing requests that stay below the threshold: every one of them
    reaches the provider and the breaker counts it. *)
Lemma failing_requests_below_threshold (svc : SummaryService.t S) (st : S)
    (failing rest : list (SummaryRequest * (Time * Time))) :
  cache_service svc = None ->
  List.Forall (fun rq => provider_fails svc (fst rq)) failing ->
  forall cb : CircuitBreaker.t,
    CircuitBreaker.is_open cb = false ->
    CircuitBreaker.expected_exception cb = LLMProviderError ->
    CircuitBreaker.failure_count cb + Z.of_nat (length failing)
      < CircuitBreaker.failure_threshold cb ->
    exists outs cb',
      handle_requests settings_redis_ttl get_cache_key (with_breaker svc cb) st
        (failing ++ rest)
      = outs ++ handle_requests settings_redis_ttl get_cache_key (with_breaker svc cb') st
                  rest
      /\ List.map result outs
         = List.map (fun rq => _try_fallback_generation svc (fst rq)) failing
      /\ List.map provider_called outs = replicate (length failing) true
      /\ CircuitBreaker.is_open cb' = false
      /\ CircuitBreaker.expected_exception cb' = LLMProviderError
      /\ CircuitBreaker.failure_count cb'
         = CircuitBreaker.failure_count cb + Z.of_nat (length failing)
      /\ CircuitBreaker.failure_threshold cb' = CircuitBreaker.failure_threshold cb
      /\ CircuitBreaker.recovery_timeout cb' = CircuitBreaker.recovery_timeout cb.
Proof.
  intros Hnone Hall. induction Hall as [|[rq [t_in t_out]] failing Hrq _ IH];
    intros cb Hc Hexp Hlt.
  - exists [], cb. cbn. repeat split; try reflexivity; try assumption; lia.
  - cbn [length] in Hlt. cbn [app handle_requests fst].
    destruct (failing_request_without_cache svc cb st rq t_in t_out Hnone Hrq)
      as (e & Hq & Hgen).
    rewrite Hgen. cbn [breaker_after cache_after].
    destruct (CircuitBreakerSpec.failing_call_closed (A:=SummaryResponse) cb e t_in t_out Hc)
      as (Hn & Ht & Hx & _ & Ho); [rewrite Hexp; exact Hq|].
    pose proof (guarded_call_keeps_timeout (A:=SummaryResponse) cb t_in t_out
                  (fun _ => Raise e)) as Hr.
    assert (Hinv : CircuitBreaker.invoked
                     (CircuitBreaker.guarded_call (A:=SummaryResponse) cb t_in
                        (fun _ => Raise e) t_out) = true).
    { unfold CircuitBreaker.guarded_call.
      rewrite (CircuitBreakerSpec.enter_closed cb t_in Hc). reflexivity. }
    set (cb1 := CircuitBreaker.breaker
                  (CircuitBreaker.guarded_call (A:=SummaryResponse) cb t_in
                     (fun _ => Raise e) t_out)) in *.
    change (with_breaker (with_breaker svc cb) cb1) with (with_breaker svc cb1).
    destruct (IH cb1) as (outs & cb' & Hrun & Hres & Hcalled & I1 & I2 & I3 & I4 & I5).
    + rewrite Ho, Z.geb_leb. apply Z.leb_gt. lia.
    + rewrite Hx. exact Hexp.
    + rewrite Hn, Ht. lia.
    + rewrite Hrun, Hinv.
      exists (mkOutcome (_try_fallback_generation svc rq) true cb1 st :: outs), cb'.
      split; [reflexivity|].
      split; [cbn [List.map]; f_equal; exact Hres|].
      split; [cbn [List.map length replicate]; f_equal; exact Hcalled|].
      cbn [length]. repeat split; try assumption; lia.
Qed.

(** Scenario C at the level of the service, without a cache.  Starting
    from the breaker the service is created with, let the first
    [failure_threshold] requests all fail at the provider, and let one
    more request arrive less than [recovery_timeout] seconds after the
    last of these failures was recorded.  Then the provider was called
    for each of the failing requests and is not called for the last
    one, whatever it would have answered; and every request, the last
    one included, gets what the fallback chain produces for it. *)
Theorem open_breaker_spares_the_provider (svc : SummaryService.t S) (st : S) (T R : Z)
    (failing : list (SummaryRequest * (Time * Time)))
    (last_failing : SummaryRequest * (Time * Time))
    (request : SummaryRequest) (now_in now_out : Time) :
  cache_service svc = None ->
  circuit_breaker svc = CircuitBreaker.__init__ T R LLMProviderError ->
  length (failing ++ [last_failing]) = Z.to_nat T ->
  List.Forall (fun rq => provider_fails svc (fst rq)) (failing ++ [last_failing]) ->
  (now_in - snd (snd last_failing) < inject_Z R)%Q ->
  let requests := failing ++ [last_failing; (request, (now_in, now_out))] in
  let outs := handle_requests settings_redis_ttl get_cache_key svc st requests in
  List.map result outs
  = List.map (fun rq => _try_fallback_generation svc (fst rq)) requests
  /\ List.map provider_called outs = replicate (Z.to_nat T) true ++ [false].
Proof.
  intros Hnone Hcb Hlen Hall Hearly. cbv zeta.
  rewrite length_app in Hlen. cbn [length] in Hlen.
  apply List.Forall_app in Hall. destruct Hall as [Hall Hlast].
  inversion Hlast as [|? ? Hlast' _]; subst. clear Hlast.
  destruct last_failing as [rq [t_in t_out]]. cbn [fst snd] in *.
  assert (Hsvc : svc = with_breaker svc (CircuitBreaker.__init__ T R LLMProviderError)).
  { destruct svc as [llm fbs cache cb0]. cbn in Hcb. subst cb0. reflexivity. }
  assert (Hh : forall l,
            handle_requests settings_redis_ttl get_cache_key svc st l
            = handle_requests settings_redis_ttl get_cache_key
                (with_breaker svc (CircuitBreaker.__init__ T R LLMProviderError)) st l).
  { intros l. rewrite <- Hsvc. reflexivity. }
  rewrite Hh. clear Hh Hsvc.
  destruct (failing_requests_below_threshold svc st failing
              [(rq, (t_in, t_out)); (request, (now_in, now_out))] Hnone Hall
              (CircuitBreaker.__init__ T R LLMProviderError))
    as (outs & cb' & Hrun & Hres & Hcalled & I1 & I2 & I3 & I4 & I5).
  { reflexivity. }
  { reflexivity. }
  { cbn. lia. }
  rewrite Hrun. cbn [handle_requests].
  destruct (failing_request_without_cache svc cb' st rq t_in t_out Hnone Hlast')
    as (e & Hq & Hgen).
  rewrite Hgen. cbn [breaker_after cache_after].
  destruct (CircuitBreakerSpec.failing_call_closed (A:=SummaryResponse) cb' e t_in t_out I1)
    as (_ & _ & _ & Hl & Ho); [rewrite I2; exact Hq|].
  pose proof (guarded_call_keeps_timeout (A:=SummaryResponse) cb' t_in t_out
                (fun _ => Raise e)) as Hr.
  assert (Hinv : CircuitBreaker.invoked
                   (CircuitBreaker.guarded_call (A:=SummaryResponse) cb' t_in
                      (fun _ => Raise e) t_out) = true).
  { unfold CircuitBreaker.guarded_call.
    rewrite (CircuitBreakerSpec.enter_closed cb' t_in I1). reflexivity. }
  set (cb1 := CircuitBreaker.breaker
                (CircuitBreaker.guarded_call (A:=SummaryResponse) cb' t_in
                   (fun _ => Raise e) t_out)) in *.
  change (with_breaker (with_breaker svc cb') cb1) with (with_breaker svc cb1).
  rewrite (request_while_open svc cb1 st request t_out now_in now_out Hnone).
  - rewrite Hinv, !List.map_app. split.
    + f_equal. exact Hres.
    + replace (Z.to_nat T) with (length failing + 1)%nat by lia.
      rewrite replicate_add, <- app_assoc. f_equal. exact Hcalled.
  - rewrite Ho, I3, I4, Z.geb_leb. apply Z.leb_le. cbn. lia.
  - exact Hl.
  - rewrite Hr, I5. exact Hearly.
Qed.

End AcrossRequests.

(** A provider that answers, and one that is out of quota, in front of
    an empty in-memory cache of the default size. *)
Definition provider_answer : SummaryResponse :=
  mkResponse "Alpha one. Beta two." (mkUsage 120 8 128) "gpt-3.5-turbo" (850 # 1)%Q
             LLM None false.

Definition empty_store : MemoryCache.MemoryCacheService :=
  MemoryCache.MemoryCacheService__init__ 1000 3600.

Lemma provider_response_is_served_from_cache_witness :
  let svc t := SummaryService.mk (fun _ => Return provider_answer) [demo_textrank; demo_tfidf]
                 (Some (memory_cache_service t t t))
                 (CircuitBreaker.__init__ 3 60 LLMProviderError) in
  let out1 := SummaryService.generate_summary 3600 (fun _ => "summary:k")
                (svc (10 # 1)%Q) empty_store CacheKeySpec.alice_request
                (10 # 1)%Q (11 # 1)%Q in
  let out2 := SummaryService.generate_summary 3600 (fun _ => "summary:k")
                (svc (3610 # 1)%Q) (cache_after out1) CacheKeySpec.bob_request
                (3610 # 1)%Q (3611 # 1)%Q in
  result out1 = Return provider_answer
  /\ result out2 = Return (mark_cache_hit provider_answer)
  /\ provider_called out2 = false.
Proof.
  cbv zeta.
  destruct (provider_response_is_served_from_cache 3600 (fun _ => "summary:k")
              (fun _ => Return provider_answer) [demo_textrank; demo_tfidf]
              (CircuitBreaker.__init__ 3 60 LLMProviderError)
              (CircuitBreaker.__init__ 3 60 LLMProviderError)
              empty_store
              (snd (MemoryCache.get_summary empty_store "summary:k" (10 # 1)%Q (10 # 1)%Q))
              CacheKeySpec.alice_request CacheKeySpec.bob_request provider_answer
              (10 # 1)%Q (10 # 1)%Q (10 # 1)%Q (10 # 1)%Q (11 # 1)%Q
              (3610 # 1)%Q (3610 # 1)%Q (3610 # 1)%Q (3610 # 1)%Q (3611 # 1)%Q)
    as (H1 & _ & H3 & H4 & _).
  - discriminate.
  - reflexivity.
  - reflexivity.
  - reflexivity.
  - reflexivity.
  - vm_compute. discriminate.
  - split; [exact H1|]. split; [exact H3|exact H4].
Defined.

Lemma fallback_response_is_cached_for_300_seconds_witness :
  exists r,
    let out1 := SummaryService.generate_summary 3600 (fun _ => "summary:k")
                  (SummaryService.mk (fun _ => Raise CircuitBreakerSpec.quota_error)
                     [demo_textrank; demo_tfidf]
                     (Some (memory_cache_service (10 # 1) (10 # 1) (12 # 1))%Q)
                     (CircuitBreaker.__init__ 3 60 LLMProviderError))
                  empty_store CacheKeySpec.alice_request (10 # 1)%Q (11 # 1)%Q in
    let out2 := SummaryService.generate_summary 3600 (fun _ => "summary:k")
                  (SummaryService.mk (fun _ => Return provider_answer)
                     [demo_textrank; demo_tfidf]
                     (Some (memory_cache_service (312 # 1) (312 # 1) (312 # 1))%Q)
                     (breaker_after out1))
                  (cache_after out1) CacheKeySpec.alice_request
                  (312 # 1)%Q (313 # 1)%Q in
    source r = FALLBACK_TEXTRANK
    /\ result out1 = Return r
    /\ result out2 = Return (mark_cache_hit r)
    /\ provider_called out2 = false.
Proof.
  eexists. cbv zeta.
  destruct (fallback_response_is_cached_for_300_seconds 3600 (fun _ => "summary:k")
              (fun _ => Raise CircuitBreakerSpec.quota_error)
              (fun _ => Return provider_answer) [demo_textrank; demo_tfidf]
              (CircuitBreaker.__init__ 3 60 LLMProviderError)
              empty_store
              (snd (MemoryCache.get_summary empty_store "summary:k" (10 # 1)%Q (10 # 1)%Q))
              CacheKeySpec.alice_request CacheKeySpec.alice_request
              (mkResponse "Beta two." (mkUsage 11 2 13) "textrank" (1000 # 1)%Q
                 FALLBACK_TEXTRANK (Some "req-1") false)
              (10 # 1)%Q (10 # 1)%Q (12 # 1)%Q (10 # 1)%Q (11 # 1)%Q
              (312 # 1)%Q (312 # 1)%Q (312 # 1)%Q (312 # 1)%Q (313 # 1)%Q)
    as (H1 & H2 & H3 & _).
  - reflexivity.
  - right. exists CircuitBreakerSpec.quota_error. split; reflexivity.
  - vm_compute. reflexivity.
  - reflexivity.
  - vm_compute. discriminate.
  - split; [|split; [exact H1|split; [exact H2|exact H3]]]. reflexivity.
Defined.


Lemma open_breaker_spares_the_provider_witness :
  let outs := handle_requests 3600 (fun _ => "summary:k") demo_service tt
                [(CacheKeySpec.alice_request, ((1 # 1), (2 # 1)));
                 (CacheKeySpec.bob_request, ((3 # 1), (4 # 1)));
                 (CacheKeySpec.alice_request, ((5 # 1), (6 # 1)));
                 (CacheKeySpec.bob_request, ((65 # 1), (66 # 1)))]%Q in
  List.map provider_called outs = [true; true; true; false]
  /\ List.Forall (fun o => exists r, result o = Return r /\ source r = FALLBACK_TEXTRANK)
       outs.
Proof.
  cbv zeta.
  destruct (open_breaker_spares_the_provider 3600 (fun _ => "summary:k")
              demo_service tt 3 60
              [(CacheKeySpec.alice_request, ((1 # 1), (2 # 1)));
               (CacheKeySpec.bob_request, ((3 # 1), (4 # 1)))]%Q
              (CacheKeySpec.alice_request, ((5 # 1), (6 # 1)))%Q
              CacheKeySpec.bob_request (65 # 1)%Q (66 # 1)%Q)
    as [_ Hcalled].
  - reflexivity.
  - reflexivity.
  - reflexivity.
  - repeat constructor; exists CircuitBreakerSpec.quota_error; split; reflexivity.
  - reflexivity.
  - split; [exact Hcalled|].
    repeat constructor; eexists; split; reflexivity.
Defined.

(** *** Languages without a fallback *)

Section DefaultChain.

Variable strip : string -> string.
Variable sent_tokenize : string -> list string.
Variable rank_scores : list string -> Result (list Q).
Variable argsort : list Q -> list nat.
Variable tfidf_extract_sentences : string -> Z -> Result (list string).

(** The chain [SummaryService.__init__] installs by default; the clock
    readings are those of the two summarizers during one request. *)
Definition default_fallback_services (t0 t1 t2 t3 : Time) : list FallbackService :=
  [TextRankSummarizer strip sent_tokenize rank_scores argsort t0 t1;
   TFIDFSummarizer strip sent_tokenize tfidf_extract_sentences t2 t3].

(** With the default chain, a request in Chinese, Japanese or Korean has
    no fallback at all: once step 1 found nothing and the provider path
    fails, [generate_summary] raises the aggregate [FallbackError]
    without having run a summarizer (its message ends in
    [Last error: None]) and stores nothing. *)
Theorem unsupported_language_gets_no_summary {S : Type}
    (settings_redis_ttl : Z) (get_cache_key : SummaryRequest -> string)
    (svc : SummaryService.t S) (st st0 : S) (request : SummaryRequest)
    (now_in now_out t0 t1 t2 t3 : Time) :
  fallback_services svc = default_fallback_services t0 t1 t2 t3 ->
  match cache_service svc with
  | Some cache => _try_cache_lookup get_cache_key cache st request = (Return None, st0)
  | None => st0 = st
  end ->
  (CircuitBreaker.is_open (circuit_breaker svc) = true
   /\ CircuitBreaker._should_attempt_reset (circuit_breaker svc) now_in = false)
  \/ (exists e0, llm_provider svc request = Raise e0
                 /\ isinstance e0 LLMProviderError || isinstance e0 AsyncioTimeoutError
                    = true) ->
  lang request = CHINESE \/ lang request = JAPANESE \/ lang request = KOREAN ->
  let out := SummaryService.generate_summary settings_redis_ttl get_cache_key
               svc st request now_in now_out in
  result out
  = Raise (mkExn FallbackError "All fallback services failed. Last error: None")
  /\ cache_after out = st0.
Proof.
  intros Hchain Hmiss Hfail Hlang. cbv zeta.
  assert (Hgen : SummaryService.generate_summary settings_redis_ttl get_cache_key
                   svc st request now_in now_out
                 = generate_after_miss settings_redis_ttl get_cache_key
                     svc st0 request now_in now_out).
  { unfold SummaryService.generate_summary.
    destruct (cache_service svc) as [cache|]; [rewrite Hmiss|subst st0]; reflexivity. }
  rewrite Hgen. clear Hgen Hmiss.
  destruct (provider_path_fails svc request now_in now_out Hfail) as (e & Hout & Hq).
  unfold generate_after_miss. rewrite Hout.
  rewrite (isinstance_provider_failure e Hq).
  unfold _try_fallback_generation. rewrite Hchain.
  unfold default_fallback_services, fallback_loop.
  cbn [supports_language TextRankSummarizer TFIDFSummarizer].
  destruct Hlang as [-> | [-> | ->]]; split; reflexivity.
Qed.

(** A request in Russian is handled by the TF-IDF summarizer alone:
    TextRank is skipped, whatever it would do.  The response of TF-IDF is
    returned.  When TF-IDF raises a [FallbackError], the result is the
    [FallbackError] whose message is
    ["All fallback services failed. Last error: "] followed by the text
    of that error; so when the extraction step of TF-IDF raises an
    [Exception] [e0], the message is
    ["All fallback services failed. Last error: TF-IDF summarization failed: "]
    followed by the text of [e0].  An exception of the extraction step
    that is no [Exception] is raised as it is. *)
Theorem russian_is_summarised_by_tfidf_alone (request : SummaryRequest)
    (t0 t1 t2 t3 : Time) :
  lang request = RUSSIAN ->
  let tfidf := TFIDFSummarizer strip sent_tokenize tfidf_extract_sentences t2 t3 in
  let extracted := tfidf_extract_sentences (text request)
                     (TFIDF_calculate_num_sentences sent_tokenize request) in
  let outcome := fallback_loop (default_fallback_services t0 t1 t2 t3) request None in
  (forall r, Fallback.generate_summary tfidf request = Return r ->
             outcome = Return r /\ source r = FALLBACK_TFIDF)
  /\ (forall e, Fallback.generate_summary tfidf request = Raise e ->
                isinstance e FallbackError = true ->
                outcome = Raise (mkExn FallbackError
                                   ("All fallback services failed. Last error: "
                                    +:+ exc_str e)))
  /\ (forall e0, extracted = Raise e0 -> isinstance e0 PyException = true ->
                 outcome
                 = Raise (mkExn FallbackError
                            ("All fallback services failed. Last error: "
                             +:+ "TF-IDF summarization failed: " +:+ exc_str e0)))
  /\ (forall e0, extracted = Raise e0 -> isinstance e0 PyException = false ->
                 outcome = Raise e0).
Proof.
  intros Hlang. cbv zeta.
  assert (Hloop : fallback_loop (default_fallback_services t0 t1 t2 t3) request None
                  = match Fallback.generate_summary
                            (TFIDFSummarizer strip sent_tokenize tfidf_extract_sentences
                               t2 t3) request with
                    | Return response => Return response
                    | Raise e =>
                        if isinstance e FallbackError
                        then Raise (all_fallbacks_failed (Some e))
                        else Raise e
                    end).
  { unfold default_fallback_services, fallback_loop.
    cbn [supports_language TextRankSummarizer TFIDFSummarizer]. rewrite Hlang.
    change (TextRank_supports_language (LanguageCode_value RUSSIAN)) with false.
    change (TFIDF_supports_language (LanguageCode_value RUSSIAN)) with true.
    reflexivity. }
  rewrite Hloop. clear Hloop.
  cbn [Fallback.generate_summary TFIDFSummarizer].
  split; [|split; [|split]].
  - intros r Hr. rewrite Hr. split; [reflexivity|].
    unfold extractive_generate_summary, SummaryResponse__init__ in Hr.
    destruct (tfidf_extract_sentences (text request)
                (TFIDF_calculate_num_sentences sent_tokenize request)) as [sentences|e0].
    + repeat match type of Hr with
             | context [if ?c then _ else _] =>
                 lazymatch c with
                 | isinstance _ _ => fail
                 | _ => destruct c
                 end
             end;
        cbn [isinstance issubclass issubclass_fuel exc_class base bool_decide
             decide_rel ExcClass_eq_dec] in Hr;
        inversion Hr; reflexivity.
    + destruct (isinstance e0 PyException); discriminate Hr.
  - intros e He Hfe. rewrite He, Hfe. reflexivity.
  - intros e0 He0 Hexc. unfold extractive_generate_summary. rewrite He0, Hexc.
    reflexivity.
  - intros e0 He0 Hexc. unfold extractive_generate_summary. rewrite He0, Hexc.
    assert (Hne : isinstance e0 FallbackError = false).
    { unfold isinstance in *. destruct (exc_class e0); try reflexivity;
        discriminate Hexc. }
    rewrite Hne. reflexivity.
Qed.

End DefaultChain.


Definition chinese_request : SummaryRequest :=
  mkRequest "The quick brown fox jumps over the lazy dog." CHINESE 100 NEUTRAL
            None None [].

Definition russian_request : SummaryRequest :=
  mkRequest "The quick brown fox jumps over the lazy dog." RUSSIAN 100 NEUTRAL
            None None [].

Lemma unsupported_language_gets_no_summary_witness :
  result (SummaryService.generate_summary 3600 (fun _ => "summary:k")
            demo_service tt chinese_request (0 # 1)%Q (1 # 1)%Q)
  = Raise (mkExn FallbackError "All fallback services failed. Last error: None").
Proof.
  apply (unsupported_language_gets_no_summary (fun s => s)
           (fun _ => TextRankSpec.four_sentences)
           (fun _ => Return TextRankSpec.four_scores) (fun _ => [3; 0; 2; 1]%nat)
           (fun _ _ => Return TextRankSpec.four_sentences)
           3600 (fun _ => "summary:k") demo_service tt tt chinese_request
           (0 # 1)%Q (1 # 1)%Q (1 # 1)%Q (2 # 1)%Q (1 # 1)%Q (2 # 1)%Q).
  - reflexivity.
  - reflexivity.
  - right. exists CircuitBreakerSpec.quota_error. split; reflexivity.
  - left. reflexivity.
Defined.

Lemma russian_is_summarised_by_tfidf_alone_witness :
  (exists r,
      fallback_loop [demo_textrank; demo_tfidf] russian_request None = Return r
      /\ source r = FALLBACK_TFIDF)
  /\ fallback_loop [broken_textrank; broken_tfidf] russian_request None
     = Raise (mkExn FallbackError
                "All fallback services failed. Last error: TF-IDF summarization failed: Score calculation failed: no terms").
Proof.
  split.
  - destruct (russian_is_summarised_by_tfidf_alone (fun s => s)
                (fun _ => TextRankSpec.four_sentences)
                (fun _ => Return TextRankSpec.four_scores) (fun _ => [3; 0; 2; 1]%nat)
                (fun _ _ => Return TextRankSpec.four_sentences)
                russian_request (1 # 1)%Q (2 # 1)%Q (1 # 1)%Q (2 # 1)%Q eq_refl)
      as (Hret & _).
    eexists. apply Hret. vm_compute. reflexivity.
  - destruct (russian_is_summarised_by_tfidf_alone (fun s => s)
                (fun _ => TextRankSpec.four_sentences)
                (fun _ => Raise empty_vocabulary) (fun _ => [3; 0; 2; 1]%nat)
                (fun _ _ => Raise (mkExn TextProcessingError
                                     "Score calculation failed: no terms"))
                russian_request (1 # 1)%Q (2 # 1)%Q (1 # 1)%Q (2 # 1)%Q eq_refl)
      as (_ & _ & Hraise & _).
    apply (Hraise (mkExn TextProcessingError "Score calculation failed: no terms"));
      reflexivity.
Defined.


(** *** The health report *)

Section HealthReport.

Context {H : Type}.

(** What the report says about one component. *)
Definition component_report (algorithm : option FallbackAlgorithm) (r : Result H)
    : ComponentHealth H :=
  match r with
  | Return health => Reported health
  | Raise e => Unhealthy algorithm (exc_str e)
  end.

Definition raises_exceptions_only (r : Result H) : Prop :=
  forall e, r = Raise e -> isinstance e PyException = true.

Lemma probe_report (algorithm : option FallbackAlgorithm) (r : Result H) :
  raises_exceptions_only r ->
  probe algorithm r = Return (component_report algorithm r).
Proof.
  intros Hr. destruct r as [h|e]; [reflexivity|].
  unfold probe. rewrite (Hr e eq_refl). reflexivity.
Qed.

Lemma probe_fallbacks_report (fallbacks : list (FallbackAlgorithm * Result H)) :
  List.Forall (fun fr => raises_exceptions_only (snd fr)) fallbacks ->
  probe_fallbacks fallbacks
  = Return (List.map (fun fr => component_report (Some (fst fr)) (snd fr)) fallbacks).
Proof.
  induction 1 as [|[name r] rest Hr _ IH]; [reflexivity|].
  cbn [probe_fallbacks List.map fst snd] in *.
  rewrite (probe_report (Some name) r Hr), IH. reflexivity.
Qed.

(** As long as the components' health checks raise nothing outside
    [Exception], [health_check] returns a report, with one entry per
    fallback service in the configured order.  Its [status] is
    ["degraded"] exactly when the provider's health check raised:
    failing fallback services, a failing cache and an open breaker are
    listed in the report but leave the status ["healthy"]. *)
Theorem health_status_follows_the_provider_only (cb : CircuitBreaker.t) (llm : Result H)
    (fallbacks : list (FallbackAlgorithm * Result H)) (cache : option (Result H)) :
  raises_exceptions_only llm ->
  List.Forall (fun fr => raises_exceptions_only (snd fr)) fallbacks ->
  (forall r, cache = Some r -> raises_exceptions_only r) ->
  exists report,
    health_check cb llm fallbacks cache = Return report
    /\ (status report = "degraded" <-> exists e, llm = Raise e)
    /\ (status report = "healthy" <-> exists health, llm = Return health)
    /\ llm_provider_health report = component_report None llm
    /\ fallback_services_health report
       = List.map (fun fr => component_report (Some (fst fr)) (snd fr)) fallbacks
    /\ cache_service_health report = component_report None <$> cache
    /\ circuit_breaker_status report
       = (if CircuitBreaker.is_open cb then "open" else "closed")
    /\ circuit_breaker_failure_count report = CircuitBreaker.failure_count cb.
Proof.
  intros Hllm Hfb Hcache. unfold health_check.
  rewrite (probe_report None llm Hllm), (probe_fallbacks_report fallbacks Hfb).
  assert (Hstatus : forall st : string,
            st = match llm with Return _ => "healthy" | Raise _ => "degraded" end ->
            (st = "degraded" <-> exists e, llm = Raise e)
            /\ (st = "healthy" <-> exists health, llm = Return health)).
  { intros st ->. destruct llm as [h|e]; split; split;
      try discriminate; try (intros [x Hx]; discriminate Hx); eauto. }
  destruct cache as [r|].
  - rewrite (probe_report None r (Hcache r eq_refl)).
    eexists. split; [reflexivity|]. cbn.
    destruct (Hstatus _ eq_refl) as [H1 H2]. repeat split; try apply H1; try apply H2.
  - eexists. split; [reflexivity|]. cbn.
    destruct (Hstatus _ eq_refl) as [H1 H2]. repeat split; try apply H1; try apply H2.
Qed.

End HealthReport.

Lemma health_status_follows_the_provider_only_witness :
  exists report,
    health_check (H:=string) CircuitBreakerSpec.opened_at_10 (Return "provider ok")
      [(TEXTRANK, Raise (mkExn ValueError "punkt missing")); (TFIDF, Return "tfidf ok")]
      (Some (Raise (mkExn CacheError "redis down")))
    = Return report
    /\ status report = "healthy"
    /\ fallback_services_health report
       = [Unhealthy (Some TEXTRANK) "punkt missing"; Reported "tfidf ok"]
    /\ circuit_breaker_status report = "open".
Proof.
  destruct (health_status_follows_the_provider_only (H:=string)
              CircuitBreakerSpec.opened_at_10 (Return "provider ok")
              [(TEXTRANK, Raise (mkExn ValueError "punkt missing"));
               (TFIDF, Return "tfidf ok")]
              (Some (Raise (mkExn CacheError "redis down"))))
    as (report & Hrep & _ & Hhealthy & _ & Hfb & _ & Hcb & _).
  - intros e He. discriminate He.
  - constructor; [intros e He; inversion He; reflexivity|].
    constructor; [intros e He; discriminate He|constructor].
  - intros r Hr. injection Hr as <-. intros e He. injection He as <-. reflexivity.
  - exists report. split; [exact Hrep|]. split; [apply Hhealthy; eauto|].
    split; [exact Hfb|exact Hcb].
Defined.


End SummaryServiceOpsSpec.

(** * Properties of the hybrid cache *)

Module HybridCacheSpec.
Import MemoryCache HybridCache.

(** An entry written with a ttl of [s] whole seconds is gone for a
    lookup later than [s] seconds after the write. *)
Lemma memory_miss_after_expiry (store : MemoryCacheService) (key : string)
    (r : SummaryResponse) (s : Z) (t_set t_get t_access : Time) :
  s <> 0 ->
  (t_set + inject_Z s < t_get)%Q ->
  fst (MemoryCache.get_summary
         (snd (MemoryCache.set_summary store key r (Some (timedelta_of_seconds s)) t_set))
         key t_get t_access)
  = None.
Proof.
  intros Hs Hdead. unfold MemoryCache.get_summary.
  destruct (MemoryCacheSpec.set_summary_cache store key r
              (Some (timedelta_of_seconds s)) t_set) as (Hc & _ & _).
  cbv zeta in Hc. rewrite Hc.
  rewrite MemoryCacheSpec.od_get_snoc by apply MemoryCacheSpec.od_get_del_eq.
  assert (Httl : ttl_seconds_of store (Some (timedelta_of_seconds s)) = s).
  { unfold ttl_seconds_of.
    assert (E : (timedelta_of_seconds s =? 0) = false).
    { apply Z.eqb_neq. unfold timedelta_of_seconds. lia. }
    rewrite E. apply MemoryCacheSpec.py_int_whole_seconds. }
  rewrite Httl. unfold is_expired, CacheEntry__init__. cbn [expires_at].
  rewrite (proj2 (MemoryCacheSpec.Qgtb_true _ _) Hdead). reflexivity.
Qed.

Section WithRedis.

Context {R : Type}.
Variable redis_ops : RedisCacheService R.

(** The ttl handed to the memory cache for a request of [s] seconds. *)
Lemma memory_ttl_is_capped (h : HybridCache.t R) (s : Z) :
  1 <= s ->
  Z.min (ttl_or_default h (Some (timedelta_of_seconds s))) (timedelta_of_seconds 1800)
  = timedelta_of_seconds (Z.min s 1800).
Proof.
  intros Hs. unfold ttl_or_default, timedelta_of_seconds.
  replace (s * 1000000 =? 0) with false by (symmetry; apply Z.eqb_neq; lia).
  lia.
Qed.

(** Without a configured Redis the availability check never says yes
    and touches nothing but the time of the last check. *)
Lemma check_without_redis (h : HybridCache.t R) (now : Time) :
  redis_cache h = None -> redis_available h = false ->
  exists h1,
    _check_redis_availability redis_ops h now = (Return false, h1)
    /\ redis_cache h1 = None /\ redis_available h1 = false
    /\ memory_cache h1 = memory_cache h /\ HybridCache.default_ttl h1 = HybridCache.default_ttl h.
Proof.
  intros Hr Ha. unfold _check_redis_availability.
  destruct (negb (Qleb (inject_Z redis_check_interval) (now - last_redis_check h))).
  - exists h. rewrite Ha. auto.
  - cbn [redis_cache with_last_check]. rewrite Hr.
    eexists. split; [reflexivity|]. cbn. auto.
Qed.

(** Inside the check interval the flag is answered from memory. *)
Lemma check_inside_interval (h : HybridCache.t R) (now : Time) :
  (now - last_redis_check h < inject_Z redis_check_interval)%Q ->
  _check_redis_availability redis_ops h now = (Return (redis_available h), h).
Proof.
  intros Hin. unfold _check_redis_availability.
  rewrite (proj2 (Qleb_false _ _) Hin). reflexivity.
Qed.

(** Memory-only operation.  When no Redis is configured, [set_summary]
    succeeds and the entry lives in the memory cache for the requested
    number of seconds, but for 1800 seconds at most: a lookup up to
    [min(s, 1800)] seconds after the write returns the response, a later
    one returns nothing. *)
Theorem memory_only_entries_live_30_minutes_at_most (h : HybridCache.t R) (key : string)
    (r : SummaryResponse) (s : Z)
    (c_set t_set c_get t_set' t_get t_access : Time) :
  redis_cache h = None -> redis_available h = false ->
  1 <= s ->
  let written := set_summary redis_ops h key r (Some (timedelta_of_seconds s)) c_set t_set in
  let read := get_summary redis_ops (snd written) key c_get t_set' t_get t_access in
  fst written = Return true
  /\ ((t_get <= t_set + inject_Z (Z.min s 1800))%Q -> fst read = Return (Some r))
  /\ ((t_set + inject_Z (Z.min s 1800) < t_get)%Q -> fst read = Return None).
Proof.
  intros Hr Ha Hs. cbv zeta.
  destruct (check_without_redis h c_set Hr Ha) as (h1 & Hc1 & Hr1 & Ha1 & Hm1 & Hd1).
  set (m := snd (MemoryCache.set_summary (memory_cache h1) key r
                   (Some (timedelta_of_seconds (Z.min s 1800))) t_set)).
  assert (Hw : set_summary redis_ops h key r (Some (timedelta_of_seconds s)) c_set t_set
               = (Return true, with_memory m h1)).
  { unfold set_summary. rewrite Hc1, memory_ttl_is_capped by exact Hs. subst m.
    unfold MemoryCache.set_summary. reflexivity. }
  rewrite Hw. cbn [fst snd]. split; [reflexivity|].
  destruct (check_without_redis (with_memory m h1) c_get Hr1 Ha1)
    as (h2 & Hc2 & _ & _ & Hm2 & _).
  unfold get_summary. rewrite Hc2, Hm2. cbn [memory_cache with_memory].
  split; intros Ht.
  - pose proof (SummaryServiceOpsSpec.memory_hit_after_set (memory_cache h1) key r
                  (Z.min s 1800) t_set t_get t_access) as Hhit.
    fold m in Hhit.
    destruct (MemoryCache.get_summary m key t_get t_access) as [o m'].
    cbn [fst] in *. rewrite Hhit; [reflexivity|lia|exact Ht].
  - pose proof (memory_miss_after_expiry (memory_cache h1) key r
                  (Z.min s 1800) t_set t_get t_access) as Hmiss.
    fold m in Hmiss.
    destruct (MemoryCache.get_summary m key t_get t_access) as [o m'].
    cbn [fst] in *. rewrite Hmiss; [reflexivity|lia|exact Ht].
Qed.

(** A write while Redis answers with a [CacheError]. *)
Lemma set_summary_during_redis_failure (h h1 : HybridCache.t R) (r1 r2 : R) (key : string)
    (r : SummaryResponse) (s : Z) (e : Exn) (c_set t_set : Time) :
  1 <= s ->
  _check_redis_availability redis_ops h c_set = (Return true, h1) ->
  redis_cache h1 = Some r1 ->
  redis_set_summary redis_ops r1 key r (timedelta_of_seconds s) = (Raise e, r2) ->
  isinstance e CacheError = true ->
  set_summary redis_ops h key r (Some (timedelta_of_seconds s)) c_set t_set
  = (Return true,
     with_memory
       (snd (MemoryCache.set_summary (memory_cache h1) key r
               (Some (timedelta_of_seconds (Z.min s 1800))) t_set))
       (with_redis (Some r2) false h1)).
Proof.
  intros Hs Hc Hr Hset He. unfold set_summary.
  rewrite Hc, Hr, memory_ttl_is_capped by exact Hs.
  assert (Httl : ttl_or_default h (Some (timedelta_of_seconds s)) = timedelta_of_seconds s).
  { unfold ttl_or_default, timedelta_of_seconds.
    replace (s * 1000000 =? 0) with false by (symmetry; apply Z.eqb_neq; lia).
    reflexivity. }
  rewrite Httl, Hset, He. unfold MemoryCache.set_summary. reflexivity.
Qed.

(** High availability.  When Redis answers a write with a [CacheError],
    [set_summary] still succeeds through the memory cache and marks
    Redis unavailable; a lookup whose availability check falls inside
    the 30-second check interval then goes to the memory cache without
    touching Redis, and returns the response as long as it is not older
    than [min(s, 1800)] seconds. *)
Theorem memory_serves_while_redis_is_down (h h1 : HybridCache.t R) (r1 r2 : R)
    (key : string) (r : SummaryResponse) (s : Z) (e : Exn)
    (c_set t_set c_get t_set' t_get t_access : Time) :
  1 <= s ->
  _check_redis_availability redis_ops h c_set = (Return true, h1) ->
  redis_cache h1 = Some r1 ->
  redis_set_summary redis_ops r1 key r (timedelta_of_seconds s) = (Raise e, r2) ->
  isinstance e CacheError = true ->
  (c_get - last_redis_check h1 < inject_Z redis_check_interval)%Q ->
  (t_get <= t_set + inject_Z (Z.min s 1800))%Q ->
  let written := set_summary redis_ops h key r (Some (timedelta_of_seconds s)) c_set t_set in
  let read := get_summary redis_ops (snd written) key c_get t_set' t_get t_access in
  fst written = Return true
  /\ redis_available (snd written) = false
  /\ fst read = Return (Some r)
  /\ redis_cache (snd read) = Some r2.
Proof.
  intros Hs Hc Hr Hset He Hin Hlive. cbv zeta.
  rewrite (set_summary_during_redis_failure h h1 r1 r2 key r s e c_set t_set
             Hs Hc Hr Hset He).
  cbn [fst snd]. split; [reflexivity|]. split; [reflexivity|].
  unfold get_summary. rewrite check_inside_interval by exact Hin.
  cbn [redis_available with_memory with_redis memory_cache].
  pose proof (SummaryServiceOpsSpec.memory_hit_after_set (memory_cache h1) key r
                (Z.min s 1800) t_set t_get t_access) as Hhit.
  destruct (MemoryCache.get_summary _ key t_get t_access) as [o m'].
  cbn [fst snd] in *. rewrite Hhit; [split; reflexivity|lia|exact Hlive].
Qed.

(** A Redis miss is final.  Let a response be written while Redis
    answers with a [CacheError], so that only the memory cache holds it.
    Once Redis is reachable again (the availability check probes it
    successfully) a lookup of that key asks Redis alone: Redis does not
    have the key, so the lookup returns nothing, although the entry is
    still live in the memory cache, which is not consulted. *)
Theorem redis_miss_hides_the_memory_entry (h h1 : HybridCache.t R) (r1 r2 r3 r4 : R)
    (key : string) (r : SummaryResponse) (s : Z) (e : Exn)
    (c_set t_set c_get t_set' t_get t_access : Time) :
  1 <= s ->
  _check_redis_availability redis_ops h c_set = (Return true, h1) ->
  redis_cache h1 = Some r1 ->
  redis_set_summary redis_ops r1 key r (timedelta_of_seconds s) = (Raise e, r2) ->
  isinstance e CacheError = true ->
  (inject_Z redis_check_interval <= c_get - last_redis_check h1)%Q ->
  redis_probe redis_ops r2 = (Return tt, r3) ->
  redis_get_summary redis_ops r3 key = (Return None, r4) ->
  (t_get <= t_set + inject_Z (Z.min s 1800))%Q ->
  let written := set_summary redis_ops h key r (Some (timedelta_of_seconds s)) c_set t_set in
  let read := get_summary redis_ops (snd written) key c_get t_set' t_get t_access in
  fst read = Return None
  /\ memory_cache (snd read) = memory_cache (snd written)
  /\ fst (MemoryCache.get_summary (memory_cache (snd read)) key t_get t_access) = Some r.
Proof.
  intros Hs Hc Hr Hset He Hout Hprobe Hget Hlive. cbv zeta.
  rewrite (set_summary_during_redis_failure h h1 r1 r2 key r s e c_set t_set
             Hs Hc Hr Hset He).
  cbn [fst snd]. unfold get_summary, _check_redis_availability.
  cbn [last_redis_check with_memory with_redis].
  rewrite (proj2 (Qleb_true _ _) Hout).
  cbn [negb redis_cache with_last_check with_memory with_redis]. rewrite Hprobe.
  cbn [redis_cache with_redis]. rewrite Hget.
  cbn [fst snd memory_cache with_redis with_memory with_last_check].
  split; [reflexivity|]. split; [reflexivity|].
  apply SummaryServiceOpsSpec.memory_hit_after_set; [lia|exact Hlive].
Qed.

End WithRedis.

(** A Redis that can be reached but rejects every write and holds no
    key; its state counts the calls made on it. *)
Definition rejecting_redis : RedisCacheService nat :=
  {| redis_probe n := (Return tt, S n);
     redis_get_summary n _ := (Return None, S n);
     redis_set_summary n _ _ _ := (Raise (mkExn CacheError "READONLY"), S n) |}.

(** A hybrid cache whose Redis was found available at time 100, and one
    without Redis. *)
Definition hybrid_with_redis : HybridCache.t nat :=
  HybridCache.mk (Some 0%nat) (MemoryCacheService__init__ 1000 3600) 3600 true (100 # 1)%Q.

Definition hybrid_without_redis : HybridCache.t nat :=
  HybridCache.mk None (MemoryCacheService__init__ 1000 3600) 3600 false (0 # 1)%Q.

Lemma memory_only_entries_live_30_minutes_at_most_witness :
  let written := set_summary rejecting_redis hybrid_without_redis "summary:k"
                   SummaryServiceOpsSpec.provider_answer
                   (Some (timedelta_of_seconds 3600)) (100 # 1)%Q (100 # 1)%Q in
  fst written = Return true
  /\ fst (get_summary rejecting_redis (snd written) "summary:k"
            (1900 # 1) (1900 # 1) (1900 # 1) (1900 # 1))%Q
     = Return (Some SummaryServiceOpsSpec.provider_answer)
  /\ fst (get_summary rejecting_redis (snd written) "summary:k"
            (1901 # 1) (1901 # 1) (1901 # 1) (1901 # 1))%Q
     = Return None.
Proof.
  cbv zeta.
  destruct (memory_only_entries_live_30_minutes_at_most rejecting_redis
              hybrid_without_redis "summary:k" SummaryServiceOpsSpec.provider_answer 3600
              (100 # 1)%Q (100 # 1)%Q (1900 # 1)%Q (1900 # 1)%Q (1900 # 1)%Q (1900 # 1)%Q
              eq_refl eq_refl ltac:(lia)) as (Hw & Hhit & _).
  destruct (memory_only_entries_live_30_minutes_at_most rejecting_redis
              hybrid_without_redis "summary:k" SummaryServiceOpsSpec.provider_answer 3600
              (100 # 1)%Q (100 # 1)%Q (1901 # 1)%Q (1901 # 1)%Q (1901 # 1)%Q (1901 # 1)%Q
              eq_refl eq_refl ltac:(lia)) as (_ & _ & Hmiss).
  split; [exact Hw|]. split.
  - apply Hhit. vm_compute. discriminate.
  - apply Hmiss. vm_compute. reflexivity.
Defined.

Lemma memory_serves_while_redis_is_down_witness :
  let written := set_summary rejecting_redis hybrid_with_redis "summary:k"
                   SummaryServiceOpsSpec.provider_answer
                   (Some (timedelta_of_seconds 3600)) (110 # 1)%Q (110 # 1)%Q in
  let read := get_summary rejecting_redis (snd written) "summary:k"
                (120 # 1)%Q (120 # 1)%Q (120 # 1)%Q (120 # 1)%Q in
  fst written = Return true
  /\ redis_available (snd written) = false
  /\ fst read = Return (Some SummaryServiceOpsSpec.provider_answer)
  /\ redis_cache (snd read) = Some 1%nat.
Proof.
  apply (memory_serves_while_redis_is_down rejecting_redis
           hybrid_with_redis hybrid_with_redis 0%nat 1%nat "summary:k"
           SummaryServiceOpsSpec.provider_answer 3600 (mkExn CacheError "READONLY")
           (110 # 1)%Q (110 # 1)%Q (120 # 1)%Q (120 # 1)%Q (120 # 1)%Q (120 # 1)%Q).
  - lia.
  - reflexivity.
  - reflexivity.
  - reflexivity.
  - reflexivity.
  - reflexivity.
  - vm_compute. discriminate.
Defined.

Lemma redis_miss_hides_the_memory_entry_witness :
  let written := set_summary rejecting_redis hybrid_with_redis "summary:k"
                   SummaryServiceOpsSpec.provider_answer
                   (Some (timedelta_of_seconds 3600)) (110 # 1)%Q (110 # 1)%Q in
  let read := get_summary rejecting_redis (snd written) "summary:k"
                (140 # 1)%Q (140 # 1)%Q (140 # 1)%Q (140 # 1)%Q in
  fst read = Return None
  /\ fst (MemoryCache.get_summary (memory_cache (snd read)) "summary:k"
            (140 # 1)%Q (140 # 1)%Q)
     = Some SummaryServiceOpsSpec.provider_answer.
Proof.
  cbv zeta.
  destruct (redis_miss_hides_the_memory_entry rejecting_redis
              hybrid_with_redis hybrid_with_redis 0%nat 1%nat 2%nat 3%nat "summary:k"
              SummaryServiceOpsSpec.provider_answer 3600 (mkExn CacheError "READONLY")
              (110 # 1)%Q (110 # 1)%Q (140 # 1)%Q (140 # 1)%Q (140 # 1)%Q (140 # 1)%Q)
    as (Hnone & _ & Hheld).
  - lia.
  - reflexivity.
  - reflexivity.
  - reflexivity.
  - reflexivity.
  - vm_compute. discriminate.
  - reflexivity.
  - reflexivity.
  - vm_compute. discriminate.
  - split; [exact Hnone|exact Hheld].
Defined.

End HybridCacheSpec.

(** * Properties of the responses *)

Module ResponseSpec.
Import Fallback SummaryService ResponseOps.

(** How a response is rated.  A response that went through the cache
    lookup of the orchestrator is always ["excellent"], whatever its
    latency and origin were.  For any other response the rating follows
    the latency first: up to 1000 ms it is ["good"], up to 3000 ms
    ["acceptable"]; only a response slower than 3000 ms is rated by its
    origin, ["degraded"] for a fallback response and ["poor"] otherwise.
    In particular a fallback response delivered within 3000 ms is not
    reported as degraded. *)
Theorem performance_category_goes_by_latency_first (r : SummaryResponse) :
  is_from_cache r = false ->
  get_performance_category (mark_cache_hit r) = "excellent"
  /\ (get_performance_category r = "good" <-> (latency_ms r <= 1000 # 1)%Q)
  /\ (get_performance_category r = "acceptable"
      <-> (1000 # 1 < latency_ms r)%Q /\ (latency_ms r <= 3000 # 1)%Q)
  /\ (get_performance_category r = "degraded"
      <-> (3000 # 1 < latency_ms r)%Q /\ is_fallback_response r = true)
  /\ (get_performance_category r = "poor"
      <-> (3000 # 1 < latency_ms r)%Q /\ is_fallback_response r = false).
Proof.
  intros Hcache. split; [reflexivity|].
  unfold get_performance_category, is_fast_response. rewrite Hcache.
  destruct (Qleb (latency_ms r) (1000 # 1)) eqn:E1.
  - apply Qleb_true in E1.
    assert (H3 : ~ (3000 # 1 < latency_ms r)%Q) by lra.
    assert (H1 : ~ (1000 # 1 < latency_ms r)%Q) by lra.
    repeat split; try discriminate; try tauto.
  - apply Qleb_false in E1.
    destruct (Qleb (latency_ms r) (3000 # 1)) eqn:E3.
    + apply Qleb_true in E3.
      assert (H3 : ~ (3000 # 1 < latency_ms r)%Q) by lra.
      assert (H1 : ~ (latency_ms r <= 1000 # 1)%Q) by lra.
      repeat split; try discriminate; try tauto.
    + apply Qleb_false in E3.
      assert (H3 : ~ (latency_ms r <= 3000 # 1)%Q) by lra.
      assert (H1 : ~ (latency_ms r <= 1000 # 1)%Q) by lra.
      destruct (is_fallback_response r);
        repeat split; try discriminate; try tauto; try (intros [_ Hf]; discriminate Hf).
Qed.

Lemma performance_category_goes_by_latency_first_witness :
  let r := mkResponse "Beta two." (mkUsage 11 2 13) "textrank" (1500 # 1)%Q
             FALLBACK_TEXTRANK None false in
  is_fallback_response r = true
  /\ get_performance_category r = "acceptable"
  /\ get_performance_category (mark_cache_hit r) = "excellent".
Proof.
  cbv zeta.
  destruct (performance_category_goes_by_latency_first
              (mkResponse "Beta two." (mkUsage 11 2 13) "textrank" (1500 # 1)%Q
                 FALLBACK_TEXTRANK None false) eq_refl)
    as (Hhit & _ & Hacc & _).
  split; [reflexivity|]. split; [|exact Hhit].
  apply Hacc. split; [reflexivity|vm_compute; discriminate].
Defined.

Section Summarizers.

Variable strip : string -> string.
Variable sent_tokenize : string -> list string.
Variable rank_scores : list string -> Result (list Q).
Variable argsort : list Q -> list nat.
Variable tfidf_extract_sentences : string -> Z -> Result (list string).

(** What a response of the shared body of the two summarizers looks
    like. *)
Lemma extractive_response (extracted : Result (list string)) (model0 : string)
    (src : SummarySource) (failure : string) (t0 t1 : Time) (request : SummaryRequest)
    (r : SummaryResponse) :
  extractive_generate_summary strip extracted model0 src failure t0 t1 request = Return r ->
  exists sentences,
    extracted = Return sentences
    /\ summary r = strip (String.concat " " sentences)
    /\ 5 <= Z.of_nat (py_len (summary r))
    /\ (latency_ms r == (t1 - t0) * (1000 # 1))%Q
    /\ (t0 <= t1)%Q
    /\ model r = model0 /\ source r = src
    /\ resp_request_id r = request_id request
    /\ cache_hit r = false
    /\ prompt_tokens (usage r) = Z.of_nat (py_len (text request)) / 4
    /\ total_tokens (usage r) = prompt_tokens (usage r) + completion_tokens (usage r)
    /\ text request <> "".
Proof.
  unfold extractive_generate_summary, SummaryResponse__init__.
  destruct extracted as [sentences|e0];
    [|destruct (isinstance e0 PyException); discriminate].
  destruct (bool_decide (String.concat " " sentences = "")
            || bool_decide (strip (String.concat " " sentences) = "")); [discriminate|].
  destruct (Z.of_nat (py_len (strip (String.concat " " sentences))) <? 5) eqn:E5;
    [discriminate|].
  destruct (Qgtb (0 # 1) ((t1 - t0) * (1000 # 1))) eqn:El; [discriminate|].
  destruct (Z.of_nat (py_len (text request)) =? 0) eqn:Et; [discriminate|].
  intros Hr. inversion Hr; subst r; clear Hr. cbn.
  exists sentences. apply Z.ltb_ge in E5. apply MemoryCacheSpec.Qgtb_false in El.
  apply Z.eqb_neq in Et.
  repeat split; try reflexivity; try assumption.
  - unfold Time in *. lra.
  - intros Htext. rewrite Htext in Et. cbn in Et. lia.
Qed.

(** A response returned by one of the two summarizers is well formed:
    its summary has at least 5 characters, its latency is the
    non-negative time the call took (a clock that went backwards gives a
    [FallbackError] instead), it carries the model name and source of
    its algorithm, echoes the request id, is not flagged as a cache hit,
    and its token usage adds up, the prompt being counted as a quarter
    of the characters of a non-empty text. *)
Theorem fallback_response_is_well_formed (t0 t1 : Time) (request : SummaryRequest)
    (fs : FallbackService) (r : SummaryResponse) :
  fs = TextRankSummarizer strip sent_tokenize rank_scores argsort t0 t1
  \/ fs = TFIDFSummarizer strip sent_tokenize tfidf_extract_sentences t0 t1 ->
  Fallback.generate_summary fs request = Return r ->
  5 <= Z.of_nat (py_len (summary r))
  /\ (latency_ms r == (t1 - t0) * (1000 # 1))%Q
  /\ (0 <= latency_ms r)%Q
  /\ (model r, source r)
     = match get_algorithm_name fs with
       | TFIDF => ("tfidf", FALLBACK_TFIDF)
       | _ => ("textrank", FALLBACK_TEXTRANK)
       end
  /\ resp_request_id r = request_id request
  /\ cache_hit r = false
  /\ prompt_tokens (usage r) = Z.of_nat (py_len (text request)) / 4
  /\ total_tokens (usage r) = prompt_tokens (usage r) + completion_tokens (usage r)
  /\ text request <> "".
Proof.
  intros [-> | ->] Hgen; cbn [Fallback.generate_summary TextRankSummarizer TFIDFSummarizer
                              get_algorithm_name] in *;
    apply extractive_response in Hgen;
    destruct Hgen as (sentences & _ & _ & H5 & Hl & Ht & Hm & Hs & Hid & Hc & Hp & Htot & Hne);
    rewrite Hm, Hs;
    (repeat split; try assumption; try reflexivity);
    rewrite Hl; unfold Time in *; nra.
Qed.

End Summarizers.

(** A one-sentence request in Spanish: 18 characters, 20 bytes in
    UTF-8. *)
Definition spanish_request : SummaryRequest :=
  mkRequest "El niño come piña." SPANISH 100 NEUTRAL None (Some "req-es") [].

Definition spanish_textrank : FallbackService :=
  TextRankSummarizer (fun s => s) (fun _ => ["El niño come piña."])
    (fun _ => Return []) (fun _ => []) (1 # 1)%Q (2 # 1)%Q.

Lemma fallback_response_is_well_formed_witness :
  exists r,
    Fallback.generate_summary spanish_textrank spanish_request = Return r
    /\ 5 <= Z.of_nat (py_len (summary r))
    /\ (0 <= latency_ms r)%Q
    /\ cache_hit r = false
    /\ prompt_tokens (usage r) = 4
    /\ resp_request_id r = Some "req-es".
Proof.
  eexists. split; [vm_compute; reflexivity|].
  destruct (fallback_response_is_well_formed (fun s => s)
              (fun _ => ["El niño come piña."])
              (fun _ => Return []) (fun _ => [])
              (fun _ _ => Return [])
              (1 # 1)%Q (2 # 1)%Q spanish_request spanish_textrank
              (mkResponse "El niño come piña." (mkUsage 4 4 8) "textrank" (1000 # 1)%Q
                 FALLBACK_TEXTRANK (Some "req-es") false))
    as (H5 & _ & Hl & _ & Hid & Hc & Hp & _).
  - left. reflexivity.
  - vm_compute. reflexivity.
  - split; [exact H5|]. split; [exact Hl|]. split; [exact Hc|].
    split; [exact Hp|exact Hid].
Defined.

End ResponseSpec.

(** * The summarizers end to end *)

Module SummarizerSpec.
Import Fallback TextRank.

Section WithLibraries.

Variable sent_tokenize : string -> list string.
Variable rank_scores : list string -> Result (list Q).
Variable argsort : list Q -> list nat.

(** The budget stays below the number of sentences as soon as there are
    two of them. *)
Lemma budget_bounds (request : SummaryRequest) :
  let total := Z.of_nat (length (sent_tokenize (text request))) in
  let budget := _calculate_num_sentences sent_tokenize request in
  1 <= budget <= 10 /\ budget <= Z.max 1 (total / 3).
Proof.
  cbv zeta. unfold _calculate_num_sentences.
  set (a := max_tokens request / 20).
  set (b := Z.of_nat (length (sent_tokenize (text request))) / 3). lia.
Qed.

(** [extract_sentences] as [generate_summary] calls it, on the text of
    the request and with the budget computed from the same request.
    When the scoring succeeds and [argsort] orders the positions by
    score, the call returns [min(total, budget)] sentences: at most 10,
    at least one when the text has a sentence, and never the whole text
    once it has two sentences or more. *)
Theorem textrank_returns_a_bounded_selection (request : SummaryRequest) (scores : list Q) :
  let sentences := sent_tokenize (text request) in
  let budget := _calculate_num_sentences sent_tokenize request in
  rank_scores sentences = Return scores ->
  Permutation (argsort scores) (seq 0 (length sentences)) ->
  StronglySorted (fun i j => nth i scores (0 # 1) <= nth j scores (0 # 1))%Q
                 (argsort scores) ->
  exists chosen : list string,
    extract_sentences sent_tokenize rank_scores argsort (text request) budget
    = Return chosen
    /\ Z.of_nat (length chosen) = Z.min (Z.of_nat (length sentences)) budget
    /\ (length chosen <= 10)%nat
    /\ ((1 <= length sentences)%nat -> (1 <= length chosen)%nat)
    /\ ((2 <= length sentences)%nat -> (length chosen < length sentences)%nat).
Proof.
  cbv zeta. intros Hrank Hperm Hsorted.
  destruct (budget_bounds request) as [[Hlo Hhi] Hthird]. cbv zeta in Hthird.
  set (budget := _calculate_num_sentences sent_tokenize request) in *.
  set (sentences := sent_tokenize (text request)) in *.
  assert (Hdiv : 2 <= Z.of_nat (length sentences) ->
                 Z.max 1 (Z.of_nat (length sentences) / 3) < Z.of_nat (length sentences)).
  { intros H2.
    assert (Z.of_nat (length sentences) / 3 < Z.of_nat (length sentences))
      by (apply Z.div_lt; lia).
    lia. }
  unfold extract_sentences. fold sentences.
  destruct (Z.of_nat (length sentences) <=? budget) eqn:E.
  - apply Z.leb_le in E. exists sentences.
    split; [reflexivity|]. repeat split; try lia.
  - apply Z.leb_gt in E. rewrite Hrank.
    destruct (TextRankSpec.chosen_indices argsort scores (length sentences) budget)
      as (Hlen & _ & Hrange & _); [lia|exact Hperm|exact Hsorted|].
    rewrite (TextRankSpec.select_in_range sentences _ Hrange).
    eexists. split; [reflexivity|]. rewrite length_map, Hlen.
    repeat split; lia.
Qed.

End WithLibraries.

Lemma textrank_returns_a_bounded_selection_witness :
  exists chosen,
    extract_sentences (fun _ => TextRankSpec.four_sentences)
      (fun _ => Return TextRankSpec.four_scores) (fun _ => [3; 0; 2; 1]%nat)
      (text CacheKeySpec.alice_request)
      (_calculate_num_sentences (fun _ => TextRankSpec.four_sentences)
         CacheKeySpec.alice_request)
    = Return chosen
    /\ length chosen = 1%nat.
Proof.
  destruct (textrank_returns_a_bounded_selection (fun _ => TextRankSpec.four_sentences)
              (fun _ => Return TextRankSpec.four_scores) (fun _ => [3; 0; 2; 1]%nat)
              CacheKeySpec.alice_request TextRankSpec.four_scores)
    as (chosen & Hret & Hlen & _).
  - reflexivity.
  - cbn.
    apply (Permutation_trans (l' := [0; 3; 2; 1]%nat)); [apply perm_swap|].
    apply perm_skip.
    apply (Permutation_trans (l' := [2; 3; 1]%nat)); [apply perm_swap|].
    apply (Permutation_trans (l' := [2; 1; 3]%nat)); [apply perm_skip, perm_swap|].
    apply (Permutation_trans (l' := [1; 2; 3]%nat)); [apply perm_swap|].
    apply Permutation_refl.
  - repeat constructor; vm_compute; discriminate.
  - exists chosen. split; [exact Hret|].
    change (Z.of_nat (length chosen) = 1) in Hlen. lia.
Defined.

End SummarizerSpec.

(** * The TF-IDF selection *)

Module TFIDFSpec.
Import TFIDF.

(** Decreasing score. *)
Definition desc (a b : string * Q) : Prop := (snd b <= snd a)%Q.

Lemma insert_desc_perm (x : string * Q) (l : list (string * Q)) :
  Permutation (insert_desc x l) (x :: l).
Proof.
  induction l as [|y rest IH]; cbn [insert_desc]; [reflexivity|].
  destruct (Qgtb (snd y) (snd x)); [|reflexivity].
  rewrite IH. apply perm_swap.
Qed.

Lemma sort_desc_perm (l : list (string * Q)) : Permutation (sort_desc l) l.
Proof.
  induction l as [|x l IH]; cbn; [reflexivity|].
  fold (sort_desc l). rewrite insert_desc_perm, IH. reflexivity.
Qed.

Lemma insert_desc_sorted (x : string * Q) (l : list (string * Q)) :
  StronglySorted desc l -> StronglySorted desc (insert_desc x l).
Proof.
  induction 1 as [|y rest Hs IH Hall]; cbn [insert_desc].
  - constructor; constructor.
  - destruct (Qgtb (snd y) (snd x)) eqn:E.
    + apply MemoryCacheSpec.Qgtb_true in E. constructor; [exact IH|].
      apply List.Forall_forall. intros z Hz.
      apply (Permutation_in _ (insert_desc_perm x rest)) in Hz.
      destruct Hz as [<- | Hz].
      * unfold desc. lra.
      * rewrite List.Forall_forall in Hall. exact (Hall z Hz).
    + apply MemoryCacheSpec.Qgtb_false in E.
      constructor; [constructor; assumption|].
      constructor; [exact E|].
      rewrite List.Forall_forall in *. intros z Hz.
      specialize (Hall z Hz). unfold desc in *. lra.
Qed.

Lemma sort_desc_sorted (l : list (string * Q)) : StronglySorted desc (sort_desc l).
Proof.
  induction l as [|x l IH]; cbn; [constructor|].
  apply insert_desc_sorted, IH.
Qed.

Lemma filter_is_sublist {A} (f : A -> bool) (l : list A) : sublist (List.filter f l) l.
Proof.
  induction l as [|x l IH]; cbn; [constructor|].
  destruct (f x); [apply sublist_skip|apply sublist_cons]; exact IH.
Qed.

Lemma prefix_In {A} (n : nat) (l : list A) (x : A) :
  List.In x (firstn n l) -> List.In x l.
Proof.
  intros Hx. rewrite <- (List.firstn_skipn n l). apply List.in_or_app. left. exact Hx.
Qed.

Lemma slice_In {A} (n : Z) (l : list A) (x : A) :
  List.In x (TextRank.py_slice_to n l) -> List.In x l.
Proof.
  unfold TextRank.py_slice_to. destruct (0 <=? n); apply prefix_In.
Qed.

Section WithLibraries.

Variable strip : string -> string.
Variable sent_tokenize : string -> list string.
Variable get_sentence_scores : string -> Result (gmap string Q).
Variable self_min_sentence_length : Z.

(** The length threshold in force. *)
Definition min_length_of (min_sentence_length : option Z) : Z :=
  match min_sentence_length with
  | Some v => if v =? 0 then self_min_sentence_length else v
  | None => self_min_sentence_length
  end.

Definition valid_sentences (text : string) (min_sentence_length : option Z) : list string :=
  List.filter
    (fun s => Z.of_nat (py_len (strip s)) >=? min_length_of min_sentence_length)
    (sent_tokenize text).

Lemma scored_fst (scores : gmap string Q) (l : list string) :
  List.map fst (List.map (fun s => (s, score_of scores s)) l) = l.
Proof.
  induction l as [|x l IH]; cbn; [reflexivity|]. rewrite IH. reflexivity.
Qed.

Lemma sorted_scored_In (scores : gmap string Q) (l : list string) (p : string * Q) :
  List.In p (sort_desc (List.map (fun s => (s, score_of scores s)) l)) ->
  List.In (fst p) l /\ snd p = score_of scores (fst p).
Proof.
  intros Hp. apply (Permutation_in _ (sort_desc_perm _)) in Hp.
  apply List.in_map_iff in Hp. destruct Hp as (s & <- & Hs). cbn. auto.
Qed.

(** The TF-IDF selection.  Whatever [extract_sentences] returns is made
    of sentences of the text, in their original order, each at least
    [min_length] characters long once stripped.  When the sentences of
    the text are pairwise distinct, [0 <= num_sentences] and more than
    [num_sentences] of them are long enough, a successful scoring gives
    exactly [num_sentences] sentences, and no long-enough sentence that
    was left out has a higher score than one that was returned. *)
Theorem tfidf_selection (text : string) (num_sentences : Z)
    (min_sentence_length : option Z) :
  (forall chosen,
      extract_sentences strip sent_tokenize get_sentence_scores self_min_sentence_length
        text num_sentences min_sentence_length = Return chosen ->
      sublist chosen (sent_tokenize text)
      /\ List.Forall
           (fun s => min_length_of min_sentence_length
                     <= Z.of_nat (py_len (strip s))) chosen)
  /\ (forall scores,
        List.NoDup (sent_tokenize text) ->
        0 <= num_sentences
          < Z.of_nat (length (valid_sentences text min_sentence_length)) ->
        get_sentence_scores text = Return scores ->
        exists chosen,
          extract_sentences strip sent_tokenize get_sentence_scores
            self_min_sentence_length text num_sentences min_sentence_length
          = Return chosen
          /\ length chosen = Z.to_nat num_sentences
          /\ forall s s',
               List.In s chosen ->
               List.In s' (valid_sentences text min_sentence_length) ->
               ~ List.In s' chosen ->
               (score_of scores s' <= score_of scores s)%Q).
Proof.
  unfold extract_sentences.
  fold (min_length_of min_sentence_length).
  fold (valid_sentences text min_sentence_length).
  set (valid := valid_sentences text min_sentence_length).
  assert (Hvalid : forall s, List.In s valid ->
            List.In s (sent_tokenize text)
            /\ min_length_of min_sentence_length <= Z.of_nat (py_len (strip s))).
  { intros s Hs. subst valid. unfold valid_sentences in Hs.
    apply List.filter_In in Hs. destruct Hs as [Hin Hlen].
    rewrite Z.geb_leb in Hlen. apply Z.leb_le in Hlen. auto. }
  split.
  - intros chosen.
    destruct (Z.of_nat (length valid) <=? num_sentences).
    + intros Hr. inversion Hr; subst chosen. split.
      * apply filter_is_sublist.
      * apply List.Forall_forall. intros s Hs. apply Hvalid, Hs.
    + destruct (get_sentence_scores text) as [scores|e];
        [|destruct (isinstance e PyException); discriminate].
      intros Hr. inversion Hr; subst chosen. split; [apply filter_is_sublist|].
      apply List.Forall_forall. intros s Hs.
      apply List.filter_In in Hs. destruct Hs as [_ Hs].
      apply bool_decide_eq_true_1, list_elem_of_In, List.in_map_iff in Hs.
      destruct Hs as (p & <- & Hp). apply slice_In, sorted_scored_In in Hp.
      apply Hvalid, Hp.
  - intros scores Hnd Hnum Hscores.
    replace (Z.of_nat (length valid) <=? num_sentences) with false
      by (symmetry; apply Z.leb_gt; lia).
    rewrite Hscores.
    set (sorted := sort_desc (List.map (fun s => (s, score_of scores s)) valid)).
    set (k := Z.to_nat num_sentences).
    assert (Hslice : TextRank.py_slice_to num_sentences sorted = firstn k sorted).
    { unfold TextRank.py_slice_to.
      replace (0 <=? num_sentences) with true by (symmetry; apply Z.leb_le; lia).
      reflexivity. }
    rewrite Hslice.
    set (top := List.map fst (firstn k sorted)).
    assert (Hperm : Permutation (List.map fst sorted) valid).
    { subst sorted. rewrite (Permutation_map fst (sort_desc_perm _)), scored_fst.
      reflexivity. }
    assert (Hndv : List.NoDup valid).
    { subst valid. unfold valid_sentences. apply List.NoDup_filter, Hnd. }
    assert (Hnds : List.NoDup (List.map fst sorted)).
    { apply (Permutation_NoDup (Permutation_sym Hperm)), Hndv. }
    assert (Hlens : length sorted = length valid).
    { rewrite <- (length_map fst sorted). apply Permutation_length, Hperm. }
    assert (Hsplit : List.map fst sorted = top ++ List.map fst (skipn k sorted)).
    { subst top. rewrite <- List.map_app, List.firstn_skipn. reflexivity. }
    assert (Hndt : List.NoDup top).
    { rewrite Hsplit in Hnds. apply List.NoDup_app_remove_r in Hnds. exact Hnds. }
    assert (Htop_in : forall s, List.In s top -> List.In s (sent_tokenize text)).
    { intros s Hs. apply Hvalid. apply (Permutation_in _ Hperm).
      rewrite Hsplit. apply List.in_or_app. left. exact Hs. }
    assert (Hchosen : forall s,
              List.In s (List.filter (fun sentence => bool_decide (sentence ∈ top))
                                     (sent_tokenize text))
              <-> List.In s top).
    { intros s. rewrite List.filter_In. split.
      - intros [_ Hs]. apply bool_decide_eq_true_1, list_elem_of_In in Hs. exact Hs.
      - intros Hs. split; [apply Htop_in, Hs|].
        apply bool_decide_eq_true_2, list_elem_of_In, Hs. }
    eexists. split; [reflexivity|]. split.
    + rewrite (Permutation_length
                 (NoDup_Permutation (List.NoDup_filter _ Hnd) Hndt Hchosen)).
      subst top. rewrite length_map, length_firstn. lia.
    + intros s s' Hs Hs' Hnot.
      apply Hchosen in Hs. rewrite Hchosen in Hnot.
      assert (Hrest : List.In s' (List.map fst (skipn k sorted))).
      { apply (Permutation_in _ (Permutation_sym Hperm)) in Hs'.
        rewrite Hsplit in Hs'. apply List.in_app_or in Hs'. tauto. }
      apply List.in_map_iff in Hs. destruct Hs as (p & <- & Hp).
      apply List.in_map_iff in Hrest. destruct Hrest as (p' & <- & Hp').
      pose proof (sort_desc_sorted (List.map (fun s => (s, score_of scores s)) valid))
        as Hsorted.
      fold sorted in Hsorted. rewrite <- (List.firstn_skipn k sorted) in Hsorted.
      apply StronglySorted_app in Hsorted. destruct Hsorted as (Hcross & _ & _).
      specialize (Hcross p p' (proj2 (list_elem_of_In _ _) Hp)
                    (proj2 (list_elem_of_In _ _) Hp')).
      unfold desc in Hcross.
      assert (Hp1 : List.In p sorted) by (apply (prefix_In k), Hp).
      assert (Hp2 : List.In p' sorted).
      { rewrite <- (List.firstn_skipn k sorted). apply List.in_or_app. right. exact Hp'. }
      apply sorted_scored_In in Hp1, Hp2.
      destruct Hp1 as [_ <-]. destruct Hp2 as [_ <-]. exact Hcross.
Qed.

End WithLibraries.

(** Four sentences in Russian and their TF-IDF weights.  The second one
    has 8 characters (13 bytes in UTF-8) and is shorter than the
    threshold of 10. *)
Definition russian_sentences : list string :=
  ["Привет, мир."; "Да, так."; "Это длинное предложение."; "Ещё одно предложение."].

Definition russian_weights : gmap string Q :=
  list_to_map [("Привет, мир.", 3 # 10); ("Да, так.", 10 # 10);
               ("Это длинное предложение.", 5 # 10);
               ("Ещё одно предложение.", 1 # 10)]%Q.

Lemma tfidf_selection_witness :
  exists chosen,
    extract_sentences (fun s => s) (fun _ => russian_sentences)
      (fun _ => Return russian_weights) 10
      "Привет, мир. Да, так. Это длинное предложение. Ещё одно предложение." 2 None
    = Return chosen
    /\ length chosen = 2%nat
    /\ sublist chosen russian_sentences
    /\ ~ List.In "Да, так." chosen.
Proof.
  destruct (tfidf_selection (fun s => s) (fun _ => russian_sentences)
              (fun _ => Return russian_weights) 10
              "Привет, мир. Да, так. Это длинное предложение. Ещё одно предложение." 2 None)
    as [Hshape Hcount].
  destruct (Hcount russian_weights) as (chosen & Hret & Hlen & _).
  - unfold russian_sentences.
    repeat (constructor;
            [cbn; intros H; repeat (destruct H as [H|H]; [discriminate H|]); exact H|]).
    constructor.
  - vm_compute. split; [discriminate|reflexivity].
  - reflexivity.
  - destruct (Hshape chosen Hret) as [Hsub Hlong].
    exists chosen. split; [exact Hret|]. split; [exact Hlen|]. split; [exact Hsub|].
    intros Hin. rewrite List.Forall_forall in Hlong. specialize (Hlong _ Hin).
    vm_compute in Hlong. apply Hlong. reflexivity.
Defined.

End TFIDFSpec.

(** * The per-endpoint rate limit *)

Module RateLimitDependencySpec.
Import RateLimit RateLimitOps RateLimitDependency.

Lemma call_verdict (self : t) (request : HttpRequest) (now : Time) :
  let key := endpoint_identifier request +:+ ":minute" in
  let r := is_allowed (rate_limiter self) key (requests_per_minute self) 60 now in
  passed (fst (__call__ true self request now)) = fst (fst r)
  /\ snd (__call__ true self request now)
     = mk (requests_per_minute self) (requests_per_hour self) (snd r).
Proof.
  cbv zeta. unfold __call__. cbn [negb].
  destruct (is_allowed (rate_limiter self)
              (endpoint_identifier request +:+ ":minute")
              (requests_per_minute self) 60 now) as [[ok info] rh].
  destruct ok; cbn; auto.
Qed.

(** More than [W] seconds apart. *)
Definition spaced (W : Z) (times : list Time) : Prop :=
  StronglySorted (fun a b => a + inject_Z W < b)%Q times.

Lemma popleft_all (c : Time) (h : list Time) :
  List.Forall (fun t => t <= c)%Q h -> popleft_while c h = [].
Proof.
  induction 1 as [|t h Ht _ IH]; cbn; [reflexivity|].
  rewrite (proj2 (Qleb_true _ _) Ht). exact IH.
Qed.

Lemma serve_cons_eq (rh : gmap string (list Time)) (id : string) (L W : Z)
    (now : Time) (rest : list Time) :
  let pruned := popleft_while (now - inject_Z W)%Q (default [] (rh !! id)) in
  let ok := Z.of_nat (length pruned) <? L in
  fst (serve rh id L W (now :: rest))
  = ok :: fst (serve (<[id := if ok then pruned ++ [now] else pruned]> rh) id L W rest).
Proof.
  cbv zeta. rewrite RateLimitSpec.serve_cons. reflexivity.
Qed.

Lemma serve_spaced (id : string) (L W : Z) (times : list Time) :
  1 <= L -> 0 <= W -> spaced W times ->
  forall rh : gmap string (list Time),
    (forall now, List.In now times ->
       List.Forall (fun t => t + inject_Z W < now)%Q (default [] (rh !! id))) ->
    fst (serve rh id L W times) = List.map (fun _ => true) times.
Proof.
  intros HL HW Hsp. induction Hsp as [|now rest Hs IH Hall]; intros rh Hold.
  - reflexivity.
  - rewrite serve_cons_eq. cbv zeta.
    assert (Hp : popleft_while (now - inject_Z W)%Q (default [] (rh !! id)) = []).
    { apply popleft_all.
      eapply List.Forall_impl; [|apply (Hold now); left; reflexivity].
      cbn beta. intros t Ht. unfold Time in *. lra. }
    rewrite Hp. cbn [length app]. change (Z.of_nat 0) with 0.
    rewrite (proj2 (Z.ltb_lt 0 L)) by lia.
    cbn [List.map]. f_equal. apply IH.
    intros now' Hin. rewrite lookup_insert_eq. cbn [default].
    constructor; [|constructor].
    rewrite List.Forall_forall in Hall. exact (Hall now' Hin).
Qed.

(** The dependency enforces its per-minute quota and nothing else.  A
    run of checks of one request gives the verdicts of the sliding
    60-second window with limit [requests_per_minute], and leaves the
    deques that window leaves; [requests_per_hour] is never consulted.
    So a fresh dependency with [requests_per_minute >= 1] lets through
    every request of a run whose requests are more than 60 seconds
    apart, however many they are and whatever [requests_per_hour] is. *)
Theorem endpoint_limit_ignores_the_hour_quota (request : HttpRequest) (times : list Time) :
  (forall self : t,
      let key := endpoint_identifier request +:+ ":minute" in
      let run := serve (rate_limiter self) key (requests_per_minute self) 60 times in
      List.map passed (fst (calls true self request times)) = fst run
      /\ rate_limiter (snd (calls true self request times)) = snd run
      /\ requests_per_minute (snd (calls true self request times))
         = requests_per_minute self)
  /\ (forall per_minute per_hour : Z,
        1 <= per_minute -> spaced 60 times ->
        List.map passed (fst (calls true (__init__ per_minute per_hour) request times))
        = List.map (fun _ => true) times).
Proof.
  assert (Hrun : forall self : t,
            List.map passed (fst (calls true self request times))
            = fst (serve (rate_limiter self)
                     (endpoint_identifier request +:+ ":minute")
                     (requests_per_minute self) 60 times)
            /\ rate_limiter (snd (calls true self request times))
               = snd (serve (rate_limiter self)
                        (endpoint_identifier request +:+ ":minute")
                        (requests_per_minute self) 60 times)
            /\ requests_per_minute (snd (calls true self request times))
               = requests_per_minute self).
  { induction times as [|now rest IH]; intros self; [cbn; auto|].
    cbn [calls serve].
    destruct (call_verdict self request now) as [Hv Hs]. cbv zeta in Hv, Hs.
    destruct (__call__ true self request now) as [v self1]. cbn [fst snd] in Hv, Hs.
    destruct (is_allowed (rate_limiter self)
                (endpoint_identifier request +:+ ":minute")
                (requests_per_minute self) 60 now) as [[ok info] rh].
    cbn [fst snd] in Hv, Hs. subst self1.
    destruct (IH (mk (requests_per_minute self) (requests_per_hour self) rh))
      as (I1 & I2 & I3).
    cbn [rate_limiter requests_per_minute] in I1, I2, I3.
    destruct (calls true (mk (requests_per_minute self) (requests_per_hour self) rh)
                request rest) as [vs self2].
    destruct (serve rh (endpoint_identifier request +:+ ":minute")
                (requests_per_minute self) 60 rest) as [oks rh2].
    cbn [fst snd List.map] in *. rewrite Hv, I1. auto. }
  split; [exact Hrun|].
  intros per_minute per_hour Hpm Hsp.
  rewrite (proj1 (Hrun (__init__ per_minute per_hour))).
  cbn [rate_limiter requests_per_minute __init__].
  apply serve_spaced; [exact Hpm|lia|exact Hsp|].
  intros now _. rewrite lookup_empty. constructor.
Qed.

(** An endpoint limited to one request per minute and, nominally, to
    none per hour. *)
Definition summarize_from_host : HttpRequest :=
  mkHttpRequest "/v1/summarize" "POST" None (Some "10.0.0.1").

Lemma endpoint_limit_ignores_the_hour_quota_witness :
  List.map passed
    (fst (calls true (__init__ 1 0) summarize_from_host [0 # 1; 61 # 1; 122 # 1]%Q))
  = [true; true; true].
Proof.
  apply (proj2 (endpoint_limit_ignores_the_hour_quota summarize_from_host
                  [0 # 1; 61 # 1; 122 # 1]%Q) 1 0).
  - lia.
  - repeat constructor.
Defined.

End RateLimitDependencySpec.
